(** * EFL Cafe Wizard: the question list, the parser, the updater and the
      preview pipeline of [3.py], embedded in Rocq.

    Python strings are sequences of Unicode code points; they are modelled
    as lists of code points ([N]).  Calls into Qt, the network, the file
    system and the document libraries are modelled as events or as
    answers of the environment. *)

From stdpp Require Import base list gmap strings.
From Stdlib Require Import ZArith NArith Ascii Lia.

Local Open Scope N_scope.

(** ** Python strings *)

Module Py.

Definition char := N.
Definition str := list char.

(** An ASCII literal of the source as a sequence of code points. *)
Fixpoint lit (s : string) : str :=
  match s with
  | EmptyString => []
  | String a s' => N_of_ascii a :: lit s'
  end.

(** [str.isspace] on one code point, which is also the class [\s] of
    [re] on [str] patterns and the set that [str.strip()] removes. *)
Definition isspace (c : char) : bool :=
  ((0x09 <=? c) && (c <=? 0x0D)) || ((0x1C <=? c) && (c <=? 0x20))
  || (c =? 0x85) || (c =? 0xA0) || (c =? 0x1680)
  || ((0x2000 <=? c) && (c <=? 0x200A))
  || (c =? 0x2028) || (c =? 0x2029) || (c =? 0x202F) || (c =? 0x205F)
  || (c =? 0x3000).

Definition isspace_not (c : char) : bool := negb (isspace c).

(** Truthiness of a string, and [a or b]. *)
Definition truthy (s : str) : bool :=
  match s with [] => false | _ => true end.

Definition or_else (a b : str) : str := if truthy a then a else b.

(** [s.lstrip(chars)], [s.rstrip(chars)], [s.strip(chars)] for a set of
    characters given by its membership test. *)
Fixpoint lstrip_by (p : char -> bool) (s : str) : str :=
  match s with
  | [] => []
  | c :: s' => if p c then lstrip_by p s' else s
  end.

Definition rstrip_by (p : char -> bool) (s : str) : str :=
  rev (lstrip_by p (rev s)).

Definition strip_by (p : char -> bool) (s : str) : str :=
  rstrip_by p (lstrip_by p s).

Definition lstrip : str -> str := lstrip_by isspace.
Definition rstrip : str -> str := rstrip_by isspace.
Definition strip : str -> str := strip_by isspace.

(** Membership in the argument of [strip(chars)]. *)
Definition one_of (chars : str) (c : char) : bool :=
  bool_decide (c ∈ chars).

(** [s.endswith(t)] and [s.startswith(t)]. *)
Fixpoint startswith (s t : str) : bool :=
  match t, s with
  | [], _ => true
  | _ :: _, [] => false
  | b :: t', a :: s' => (a =? b) && startswith s' t'
  end.

Definition endswith (s t : str) : bool := startswith (rev s) (rev t).

(** [re.sub(r"\s+", " ", s)]: every maximal run of white space becomes
    one space.  [in_run] tells that the previous character was white
    space, whose space has been written already. *)
Fixpoint sub_ws_from (in_run : bool) (s : str) : str :=
  match s with
  | [] => []
  | c :: s' =>
      if isspace c
      then (if in_run then sub_ws_from true s' else 0x20 :: sub_ws_from true s')
      else c :: sub_ws_from false s'
  end.

Definition sub_ws : str -> str := sub_ws_from false.

(** [s.split()]: the maximal runs of characters that are not white
    space.  [cur] is the word being read, reversed. *)
Fixpoint split_ws_from (cur : str) (s : str) : list str :=
  match s with
  | [] => match cur with [] => [] | _ => [rev cur] end
  | c :: s' =>
      if isspace c
      then match cur with
           | [] => split_ws_from [] s'
           | _ => rev cur :: split_ws_from [] s'
           end
      else split_ws_from (c :: cur) s'
  end.

Definition split_ws : str -> list str := split_ws_from [].

(** A word: a non-empty run of characters that are not white space. *)
Definition word (w : str) : Prop := w ≠ [] ∧ forallb isspace_not w = true.

Definition SPACE : str := [0x20].

(** [sep.join(parts)]. *)
Fixpoint join (sep : str) (parts : list str) : str :=
  match parts with
  | [] => []
  | [p] => p
  | p :: ps => p ++ sep ++ join sep ps
  end.

(** The decimal digits of Unicode (category Nd, Unicode 14): the class
    [\d] of [re] on [str] patterns, and the digits [int] accepts.  They
    come in runs of ten, in the order 0 to 9; [DIGIT_ZEROS] lists the
    code point of the zero of every run. *)
Definition DIGIT_ZEROS : list char :=
  [0x30; 0x660; 0x6f0; 0x7c0; 0x966; 0x9e6; 0xa66; 0xae6; 0xb66; 0xbe6;
   0xc66; 0xce6; 0xd66; 0xde6; 0xe50; 0xed0; 0xf20; 0x1040; 0x1090;
   0x17e0; 0x1810; 0x1946; 0x19d0; 0x1a80; 0x1a90; 0x1b50; 0x1bb0;
   0x1c40; 0x1c50; 0xa620; 0xa8d0; 0xa900; 0xa9d0; 0xa9f0; 0xaa50;
   0xabf0; 0xff10; 0x104a0; 0x10d30; 0x11066; 0x110f0; 0x11136; 0x111d0;
   0x112f0; 0x11450; 0x114d0; 0x11650; 0x116c0; 0x11730; 0x118e0;
   0x11950; 0x11c50; 0x11d50; 0x11da0; 0x16a60; 0x16ac0; 0x16b50;
   0x1d7ce; 0x1d7d8; 0x1d7e2; 0x1d7ec; 0x1d7f6; 0x1e140; 0x1e2f0;
   0x1e950; 0x1fbf0].

Definition in_run (z c : char) : bool := (z <=? c) && (c <? z + 10).

Definition isdecimal (c : char) : bool := existsb (λ z, in_run z c) DIGIT_ZEROS.

(** The value of a decimal digit (0 for any other character). *)
Definition digit_value (c : char) : N :=
  match find (λ z, in_run z c) DIGIT_ZEROS with
  | Some z => c - z
  | None => 0
  end.

(** The number that a string of decimal digits stands for: the value
    of [int(s)] when [int] returns (see [int] below). *)
Definition int_of_digits (s : str) : N :=
  fold_left (λ acc c, 10 * acc + digit_value c) s 0.

(** The line boundaries of [str.splitlines]. *)
Definition islinebreak (c : char) : bool :=
  ((0x0A <=? c) && (c <=? 0x0D)) || ((0x1C <=? c) && (c <=? 0x1E))
  || (c =? 0x85) || (c =? 0x2028) || (c =? 0x2029).

(** [s.splitlines()].  [cur] is the line being read, reversed; [after_cr]
    tells that the previous character was a carriage return, so that a
    line feed that follows belongs to the same boundary. *)
Fixpoint splitlines_from (after_cr : bool) (cur : str) (s : str) : list str :=
  match s with
  | [] => match cur with [] => [] | _ => [rev cur] end
  | c :: s' =>
      if after_cr && (c =? 0x0A) then splitlines_from false cur s'
      else if islinebreak c
           then rev cur :: splitlines_from (c =? 0x0D) [] s'
           else splitlines_from false (c :: cur) s'
  end.

Definition splitlines : str -> list str := splitlines_from false [].

(** [l[:n]] for a Python integer [n]: a negative [n] counts from the
    end. *)
Definition slice_to {A} (n : Z) (l : list A) : list A :=
  if (n <? 0)%Z
  then take (Z.to_nat (Z.of_nat (length l) + n)) l
  else take (Z.to_nat n) l.

(** [str.lower] on the ASCII letters.  The full mapping of Unicode is a
    parameter of the functions that call [lower]; this instance serves
    to run them on ASCII input. *)
Definition ascii_lower (s : str) : str :=
  (λ c, if (0x41 <=? c) && (c <=? 0x5A) then c + 0x20 else c) <$> s.

(** [t in s]: [t] occurs in [s]. *)
Fixpoint contains (s t : str) : bool :=
  startswith s t ||
  match s with
  | [] => false
  | _ :: s' => contains s' t
  end.

(** [s.replace(old, new)] for a non-empty [old]: the occurrences of
    [old] are replaced from left to right, without overlap.  [skip]
    counts the characters of the current occurrence still to pass. *)
Fixpoint replace_from (skip : nat) (old new s : str) : str :=
  match s with
  | [] => []
  | c :: s' =>
      match skip with
      | S skip' => replace_from skip' old new s'
      | O =>
          if startswith s old
          then new ++ replace_from (length old - 1) old new s'
          else c :: replace_from 0 old new s'
      end
  end.

Definition replace (s old new : str) : str := replace_from 0 old new s.

(** [s.split(sep, 1)[1]] for a one-character [sep] that occurs in [s]:
    what follows the first [sep]. *)
Fixpoint after_first (sep : char) (s : str) : str :=
  match s with
  | [] => []
  | c :: s' => if c =? sep then s' else after_first sep s'
  end.

(** The lines of a message, joined by line feeds. *)
Definition lines (ls : list str) : str := join [0x0A] ls.

(** [str(n)] for a natural number, most significant digit first.
    [fuel] bounds the number of digits.  The code writes the numbers
    of the questions and the lengths of strings with it, which stay
    far below the 4300 digits at which [str] raises. *)
Fixpoint digits_of (fuel : nat) (n : N) (acc : str) : str :=
  match fuel with
  | O => acc
  | S fuel' =>
      let acc' := (0x30 + n mod 10) :: acc in
      if n / 10 =? 0 then acc' else digits_of fuel' (n / 10) acc'
  end.

Definition str_of_N (n : N) : str := digits_of (S (N.to_nat (N.log2 n))) n [].

(** The result of a call that may raise: the value returned, or the
    text of the exception. *)
Inductive result (A : Type) :=
| Return (a : A)
| Raise (msg : str).
Global Arguments Return {A} a.
Global Arguments Raise {A} msg.

(** The limit of CPython on the digits of a string that [int]
    converts ([sys.get_int_max_str_digits()]), and the text of the
    [ValueError] beyond it. *)
Definition MAX_STR_DIGITS : nat := 4300.

Definition int_limit_exceeded (digits : nat) : str :=
  lit "Exceeds the limit (4300 digits) for integer string conversion: value has "
  ++ str_of_N (N.of_nat digits)
  ++ lit " digits; use sys.set_int_max_str_digits() to increase the limit".

(** [int(s)] for a string of decimal digits: every digit counts for
    the limit, leading zeros too. *)
Definition int (s : str) : result N :=
  if (MAX_STR_DIGITS <? length s)%nat
  then Raise (int_limit_exceeded (length s))
  else Return (int_of_digits s).

End Py.

(** ** The question list: [_ensure_15] *)

Definition QMARK : Py.char := 0x3F.

Definition FALLBACK_QUESTION : Py.str :=
  Py.lit "How could this topic affect an everyday situation at home, work, or school?".

(** The condition of the comprehension: [(q or "").strip()] is truthy. *)
Definition kept (q : Py.str) : Prop :=
  Py.truthy (Py.strip (Py.or_else q [])) = true.

Global Instance kept_dec q : Decision (kept q).
Proof. unfold kept. apply _. Defined.

(** The element of the comprehension:
    [re.sub(r"\s+", " ", (q or "").strip())]. *)
Definition normalize (q : Py.str) : Py.str :=
  Py.sub_ws (Py.strip (Py.or_else q [])).

(** [while len(qs) < 15: qs.append(...)], with the number of iterations
    left as the recursion argument. *)
Fixpoint pad_loop (fuel : nat) (qs : list Py.str) : list Py.str :=
  match fuel with
  | O => qs
  | S fuel' =>
      if (length qs <? 15)%nat
      then pad_loop fuel' (qs ++ [FALLBACK_QUESTION])
      else qs
  end.

Definition _ensure_15 (qs : list Py.str) : list Py.str :=
  let qs := normalize <$> filter kept qs in
  let qs := if (15 <? length qs)%nat then take 15 qs else qs in
  pad_loop 15 qs.


(** An entry that [_ensure_15] leaves as it is. *)
Definition settled (r : Py.str) : Prop := kept r ∧ normalize r = r.

(** ** Regular expressions

    The fragment of [re] that the source uses: anchors, one-character
    classes, greedy repetition of a class, sequence, alternation and
    numbered groups.  The matcher backtracks like [re] does: a greedy
    repetition first takes as many characters as it can and gives them
    back one by one while the rest of the pattern fails. *)

Module Re.
Import Py.

Inductive re :=
| Eps                            (* the empty pattern *)
| Bol                            (* ^ *)
| Eol                            (* $ *)
| Class (p : char → bool)        (* one character of a class *)
| Star (p : char → bool)         (* zero or more of a class, greedy *)
| Plus (p : char → bool)         (* one or more of a class, greedy *)
| Seq (r1 r2 : re)
| Alt (r1 r2 : re)               (* r1|r2 *)
| Group (n : nat) (r : re).      (* (r), the n-th group *)

(** The text between two positions, each given by the reversed text
    before it. *)
Definition consumed (bef bef' : str) : str :=
  rev (take (length bef' - length bef) bef').

(** Greedy repetition: [bef] is the text before the position, reversed,
    [aft] the text after it, [k] the rest of the pattern. *)
Fixpoint star {A} (p : char → bool) (bef aft : str)
    (k : str → str → option A) : option A :=
  match aft with
  | c :: aft' =>
      if p c
      then match star p (c :: bef) aft' k with
           | Some a => Some a
           | None => k bef aft
           end
      else k bef aft
  | [] => k bef aft
  end.

Fixpoint run {A} (r : re) (bef aft : str) (g : gmap nat str)
    (k : str → str → gmap nat str → option A) : option A :=
  match r with
  | Eps => k bef aft g
  | Bol => match bef with [] => k bef aft g | _ => None end
  | Eol =>
      match aft with
      | [] => k bef aft g
      | [c] => if c =? 0x0A then k bef aft g else None
      | _ => None
      end
  | Class p =>
      match aft with
      | c :: aft' => if p c then k (c :: bef) aft' g else None
      | [] => None
      end
  | Star p => star p bef aft (λ b a, k b a g)
  | Plus p =>
      match aft with
      | c :: aft' =>
          if p c then star p (c :: bef) aft' (λ b a, k b a g) else None
      | [] => None
      end
  | Seq r1 r2 => run r1 bef aft g (λ b a g', run r2 b a g' k)
  | Alt r1 r2 =>
      match run r1 bef aft g k with
      | Some a => Some a
      | None => run r2 bef aft g k
      end
  | Group n r =>
      run r bef aft g (λ b a g', k b a (<[n := consumed bef b]> g'))
  end.

(** A match: the groups and the text after the match. *)
Record matched := { groups : gmap nat str; rest : str; upto : str }.

(** [m.group(n)]. *)
Definition group (m : matched) (n : nat) : str := default [] (groups m !! n).

(** A match that starts at the position after [bef]. *)
Definition match_at (r : re) (bef aft : str) : option matched :=
  run r bef aft ∅ (λ b a g, Some {| groups := g; rest := a; upto := b |}).

(** [re.match(r, s)]. *)
Definition match_ (r : re) (s : str) : option matched := match_at r [] s.

Definition len_matched (bef : str) (m : matched) : nat :=
  length (upto m) - length bef.

(** [re.split(r, s)] for a pattern without groups that matches no empty
    string.  [skip] counts the characters of the current match that
    are still to be passed, [cur] is the piece being read, reversed. *)
Fixpoint split_from (r : re) (skip : nat) (cur bef aft : str) : list str :=
  match aft with
  | [] => [rev cur]
  | c :: aft' =>
      match skip with
      | S skip' => split_from r skip' cur (c :: bef) aft'
      | O =>
          match match_at r bef aft with
          | Some m =>
              match len_matched bef m with
              | S n => rev cur :: split_from r n [] (c :: bef) aft'
              | O => split_from r 0 (c :: cur) (c :: bef) aft'
              end
          | None => split_from r 0 (c :: cur) (c :: bef) aft'
          end
      end
  end.

Definition split (r : re) (s : str) : list str := split_from r 0 [] [] s.

(** [re.findall(r, s)] for a pattern without groups that matches no
    empty string: the matched texts, from left to right. *)
Fixpoint findall_from (r : re) (skip : nat) (bef aft : str) : list str :=
  match aft with
  | [] => []
  | c :: aft' =>
      match skip with
      | S skip' => findall_from r skip' (c :: bef) aft'
      | O =>
          match match_at r bef aft with
          | Some m =>
              match len_matched bef m with
              | S n => consumed bef (upto m) :: findall_from r n (c :: bef) aft'
              | O => findall_from r 0 (c :: bef) aft'
              end
          | None => findall_from r 0 (c :: bef) aft'
          end
      end
  end.

Definition findall (r : re) (s : str) : list str := findall_from r 0 [] s.

(** Classes. *)
Definition chr (c : char) : char → bool := λ x, x =? c.
Definition dot : char → bool := λ x, negb (x =? 0x0A).

(** The items of a pattern, one after the other. *)
Definition cat (rs : list re) : re := foldr Seq Eps rs.

End Re.

(** ** Parsing the answer of the model: [parse_numbered_questions] *)

Section Parsing.
Import Py.

(** [str.lower], the lower-casing of Unicode. *)
Variable lower : str → str.

(** The class of the dot and the closing parenthesis. *)
Definition dot_or_paren (c : char) : bool := (c =? 0x2E) || (c =? 0x29).

(** The class of the bullets: hyphen, asterisk, U+2022. *)
Definition bullet (c : char) : bool :=
  (c =? 0x2D) || (c =? 0x2A) || (c =? 0x2022).

(** The pattern of a numbered line: start, white space, the digits
    (group 1), a dot or a closing parenthesis, white space, any text
    (group 2), a question mark, end. *)
Definition NUMBERED_LINE : Re.re :=
  Re.cat [Re.Bol; Re.Star isspace; Re.Group 1 (Re.Plus isdecimal);
          Re.Class dot_or_paren; Re.Plus isspace;
          Re.Group 2 (Re.Star Re.dot); Re.Class (Re.chr QMARK); Re.Eol].

(** The pattern of a bulleted line: start, a bullet, white space, any
    text (group 1), a question mark, end. *)
Definition BULLETED_LINE : Re.re :=
  Re.cat [Re.Bol; Re.Class bullet; Re.Plus isspace;
          Re.Group 1 (Re.Star Re.dot); Re.Class (Re.chr QMARK); Re.Eol].

(** The pattern of the split: white space, digits, a dot or a closing
    parenthesis, white space. *)
Definition NUMBER_MARK : Re.re :=
  Re.cat [Re.Star isspace; Re.Plus isdecimal; Re.Class dot_or_paren;
          Re.Plus isspace].

(** The body of the first loop: what one line adds to [out]. *)
Definition line_question (line : str) : option str :=
  let s := strip line in
  match Re.match_ NUMBERED_LINE s with
  | Some m => Some (strip (Re.group m 2) ++ [QMARK])
  | None =>
      match Re.match_ BULLETED_LINE s with
      | Some m2 => Some (strip (Re.group m2 1) ++ [QMARK])
      | None => None
      end
  end.

(** The body of the second loop: what one part of the split adds. *)
Definition chunk_question (c : str) : option str :=
  let c := strip c in
  if endswith c [QMARK] then Some c else None.

(** [out] after the two loops. *)
Definition raw_questions (text : str) : list str :=
  let out := omap line_question (splitlines (or_else text [])) in
  match out with
  | [] => omap chunk_question (Re.split NUMBER_MARK (or_else text []))
  | _ => out
  end.

(** The characters of the second [strip] (the straight and the right
    curly double quote) and of the last [rstrip] (dot, exclamation
    mark, space). *)
Definition QUOTES : str := [0x22; 0x201D].
Definition STOPS : str := [0x2E; 0x21; 0x20].

(** The first two statements of the last loop. *)
Definition tidy (q : str) : str :=
  let q := rstrip (strip_by (one_of QUOTES) (strip (sub_ws q))) in
  if endswith q [QMARK] then q else rstrip_by (one_of STOPS) q ++ [QMARK].

(** One turn of the last loop on the pair [(clean, seen)]. *)
Definition clean_step (st : list str * gset str) (q0 : str)
    : list str * gset str :=
  let q := tidy q0 in
  if decide (lower q ∈ st.2) then st
  else (st.1 ++ [q], {[lower q]} ∪ st.2).

Definition parse_numbered_questions (text : str) (max_items : Z) : list str :=
  let out := raw_questions text in
  (foldl clean_step ([], ∅) (slice_to max_items out)).1.

End Parsing.

(** The shape of a numbered line: digits, a dot or a closing parenthesis,
    white space, a body and the question mark. *)
Definition numbered_line (s body : Py.str) : Prop :=
  ∃ ds p w,
    s = ds ++ [p] ++ w ++ body ++ [QMARK] ∧
    ds ≠ [] ∧ forallb Py.isdecimal ds = true ∧ dot_or_paren p = true ∧
    w ≠ [] ∧ forallb Py.isspace w = true.

(** The shape of a bulleted line: a bullet, white space, a body and the
    question mark. *)
Definition bulleted_line (s body : Py.str) : Prop :=
  ∃ b w,
    s = [b] ++ w ++ body ++ [QMARK] ∧
    bullet b = true ∧ w ≠ [] ∧ forallb Py.isspace w = true.

(** Where an entry of [out] comes from: a numbered or bulleted line of the
    text, ... *)
Definition from_line (text raw : Py.str) : Prop :=
  ∃ line body,
    line ∈ Py.splitlines (Py.or_else text []) ∧
    (numbered_line (Py.strip line) body ∨ bulleted_line (Py.strip line) body) ∧
    raw = Py.strip body ++ [QMARK].

(** ... or, when the text has no such line, a part of the whole text
    between two number marks that ends with a question mark. *)
Definition from_chunk (text raw : Py.str) : Prop :=
  (∀ line body,
     line ∈ Py.splitlines (Py.or_else text []) →
     ¬ numbered_line (Py.strip line) body ∧
     ¬ bulleted_line (Py.strip line) body) ∧
  ∃ c, c ∈ Re.split NUMBER_MARK (Py.or_else text []) ∧
       raw = Py.strip c ∧ Py.endswith raw [QMARK] = true.

(** ** Versions: [version_tuple] *)

(** The pattern of one or more digits. *)
Definition DIGITS : Re.re := Re.Plus Py.isdecimal.

(** [[int(x) for x in xs]]: the integers, or the exception of the
    first [int] that raises. *)
Fixpoint ints (xs : list Py.str) : Py.result (list N) :=
  match xs with
  | [] => Py.Return []
  | x :: xs' =>
      match Py.int x with
      | Py.Raise e => Py.Raise e
      | Py.Return n =>
          match ints xs' with
          | Py.Raise e => Py.Raise e
          | Py.Return ns => Py.Return (n :: ns)
          end
      end
  end.

(** [nums = [int(x) for x in re.findall(r"\d+", v or "0")]], then
    [tuple(nums) or (0,)]. *)
Definition version_tuple (v : Py.str) : Py.result (list N) :=
  match ints (Re.findall DIGITS (Py.or_else v (Py.lit "0"))) with
  | Py.Return [] => Py.Return [0]
  | r => r
  end.

(** The comparisons [<] and [<=] of Python on tuples of integers. *)
Fixpoint tuple_lt (a b : list N) : bool :=
  match a, b with
  | [], [] => false
  | [], _ :: _ => true
  | _ :: _, [] => false
  | x :: a', y :: b' => if x =? y then tuple_lt a' b' else x <? y
  end.

Fixpoint tuple_le (a b : list N) : bool :=
  match a, b with
  | [], _ => true
  | _ :: _, [] => false
  | x :: a', y :: b' => if x =? y then tuple_le a' b' else x <? y
  end.

(** [a > b] is [b < a]. *)
Definition tuple_gt (a b : list N) : bool := tuple_lt b a.



Definition APP_NAME : Py.str := Py.lit "EFL Cafe Wizard".
Definition APP_VERSION : Py.str := Py.lit "0.23 BETA".

(** ** The updater *)

Module Updater.
Import Py.

(** The manifest: the JSON object of the update server, with the four
    keys that the code reads; a key may be absent. *)
Record manifest := {
  m_version : option str;
  m_url : option str;
  m_sha256 : option str;
  m_notes : option str;
}.

(** What the updater does to the outside. *)
Inductive event :=
| FetchManifest                              (* fetch_manifest is called *)
| Information (title text : str)             (* QMessageBox.information *)
| Critical (title text : str)                (* QMessageBox.critical *)
| Warning (title text : str)                 (* QMessageBox.warning *)
| UpdateDialog (latest current : str)        (* UpdateAvailableDialog shown *)
| EmitUpdateAvailable (m : manifest)         (* update_available.emit *)
| EmitCheckCompleted (b : bool)              (* check_completed.emit *)
| StartDownload (url : option str)           (* dl.start(); dlg.show() *)
| CloseProgress                              (* dlg.close() *)
| BeginUpdateReplace (new_exe target : str)  (* begin_update_replace is called *)
| Quit.                                      (* QApplication.quit(); sys.exit(0) *)

(** The module-level names that the updater assigns. *)
Record globals := { UPDATE_IN_PROGRESS : bool }.

(** A result of [fetch_manifest]: the manifest, or the message of the
    exception. *)
Inductive fetched := Fetched (m : manifest) | FetchError (msg : str).

(** How [begin_update_replace] ends: the new file is in place and the
    application exits; another update holds the lock file (on Windows);
    or an exception is raised inside.  The copy of the file, the lock
    file, the script that swaps the files and the box shown while the
    update is prepared are not modelled further. *)
Inductive replace_outcome := Replaced | Locked | ReplaceError (msg : str).

(** The download whose callbacks [check_for_updates] has connected:
    the closure of [on_done] and [on_err] holds [sha]. *)
Record download := { dl_url : option str; dl_sha : option str }.


Section WithEnvironment.
(** [str.lower], [sha256_of_file] on the files of the machine, the
    path of the running executable, and the way the replacement of
    the executable ends. *)
Variable lower : str → str.
Variable sha256_of_file : str → str.
Variable current_executable_path : str.
Variable replace_ends : str → str → replace_outcome.

(** [m.get("version", "0")]. *)
Definition latest_of (m : manifest) : str := default (lit "0") (m_version m).

(** [version_tuple(latest) cmp version_tuple(APP_VERSION)] for a
    comparison [cmp] of tuples: the left operand first, then the right
    one; the value of the comparison, or the exception of
    [version_tuple]. *)
Definition compare_versions (cmp : list N → list N → bool) (latest : str)
    : result bool :=
  match version_tuple latest with
  | Raise e => Raise e
  | Return a =>
      match version_tuple APP_VERSION with
      | Raise e => Raise e
      | Return b => Return (cmp a b)
      end
  end.

(** An update is on offer: the test [>] of the background checker
    returns [True]. *)
Definition newer (m : manifest) : bool :=
  match compare_versions tuple_gt (latest_of m) with
  | Return b => b
  | Raise _ => false
  end.


(** [begin_update_replace], which declares [UPDATE_IN_PROGRESS]
    global. *)
Definition begin_update_replace (new_exe target : str) (g : globals)
    : globals * list event :=
  match replace_ends new_exe target with
  | Replaced =>
      (g, [BeginUpdateReplace new_exe target;
           Information (lit "Update Complete")
             (lines [lit "Update completed successfully!"; [];
                     lit "Please manually restart " ++ APP_NAME
                     ++ lit " to use the new version."; [];
                     lit "The application will now close."]);
           Quit])
  | Locked =>
      (g, [BeginUpdateReplace new_exe target;
           Warning (lit "Update") (lit "Another update is already in progress. Please wait for it to complete.")])
  | ReplaceError e =>
      ({| UPDATE_IN_PROGRESS := false |},
       [BeginUpdateReplace new_exe target;
        Critical (lit "Updater") (lit "Failed to finalize update:" ++ [0x0A] ++ e)])
  end.

(** The names that a nested function assigns are its own: neither
    [on_done] nor [on_err] declares [UPDATE_IN_PROGRESS] global (or
    nonlocal), so their assignment binds a local name, which is lost
    when the function returns. *)
Record frame := { local_UPDATE_IN_PROGRESS : option bool }.

Definition no_locals : frame := {| local_UPDATE_IN_PROGRESS := None |}.

(** The body of [on_done(path)] in the closure of a download. *)
Definition on_done_body (d : download) (path : str) (g : globals)
    : globals * frame * list event :=
  let sha := default [] (dl_sha d) in
  if truthy sha && negb (bool_decide (lower (sha256_of_file path) = lower sha))
  then
    (g, {| local_UPDATE_IN_PROGRESS := Some false |},
     [CloseProgress;
      Critical (lit "Updater") (lit "SHA-256 mismatch. Update aborted.")])
  else
    let '(g', evs) := begin_update_replace path current_executable_path g in
    (g', no_locals,
     [CloseProgress;
      Information (lit "Updater") (lit "Update downloaded. The app will exit to finalize.")]
     ++ evs).

Definition on_done (d : download) (path : str) (g : globals)
    : globals * list event :=
  let '(g', _, evs) := on_done_body d path g in (g', evs).

(** The body of [on_err(msg)]. *)
Definition on_err_body (msg : str) (g : globals)
    : globals * frame * list event :=
  (g, {| local_UPDATE_IN_PROGRESS := Some false |},
   [CloseProgress; Critical (lit "Download Failed") msg]).

Definition on_err (msg : str) (g : globals) : globals * list event :=
  let '(g', _, evs) := on_err_body msg g in (g', evs).

(** The box that [UpdateAvailableDialog.start_update] shows before it
    accepts the dialog. *)
Definition STARTING_UPDATE : event :=
  Information (lit "Update")
    (lines [lit "Starting update process..."; [];
            lit "Please wait while the update is prepared.";
            lit "Do not close the application during this process."]).

(** The result of [check_for_updates]: the value returned, the
    globals, the events, and the download it has started, if any. *)
Record checked := {
  returned : bool;
  globals_after : globals;
  events : list event;
  started : option download;
}.

(** [check_for_updates(parent, show_updater_pane)].  [f] is what
    [fetch_manifest] gives, [accepted] the answer of the user to the
    update dialog.  An exception of [fetch_manifest] or of
    [version_tuple] is caught: the flag is cleared, the text of the
    exception is shown, and [False] is returned. *)
Definition check_for_updates (show_updater_pane : bool)
    (f : fetched) (accepted : bool) (g : globals) : checked :=
  if UPDATE_IN_PROGRESS g
  then {| returned := false; globals_after := g;
          events := [Information (lit "Update")
                       (lit "An update is already in progress. Please wait for it to complete.")];
          started := None |}
  else
    match f with
    | FetchError e =>
        {| returned := false;
           globals_after := {| UPDATE_IN_PROGRESS := false |};
           events := [FetchManifest; Critical (lit "Updater") e];
           started := None |}
    | Fetched m =>
        match compare_versions tuple_le (latest_of m) with
        | Raise e =>
            {| returned := false;
               globals_after := {| UPDATE_IN_PROGRESS := false |};
               events := [FetchManifest; Critical (lit "Updater") e];
               started := None |}
        | Return true =>
            {| returned := false; globals_after := g;
               events :=
                 FetchManifest ::
                 (if negb show_updater_pane
                  then [Information (lit "Updater")
                          (lit "You're on the latest version (v" ++ APP_VERSION ++ lit ").")]
                  else []);
               started := None |}
        | Return false =>
            if negb accepted
            then {| returned := false; globals_after := g;
                    events := [FetchManifest; UpdateDialog (latest_of m) APP_VERSION];
                    started := None |}
            else {| returned := true;
                    globals_after := {| UPDATE_IN_PROGRESS := true |};
                    events := [FetchManifest; UpdateDialog (latest_of m) APP_VERSION;
                               STARTING_UPDATE; StartDownload (m_url m)];
                    started := Some {| dl_url := m_url m; dl_sha := m_sha256 m |} |}
        end
    end.

End WithEnvironment.
End Updater.

(** A repetition of the class [p] cannot go on into [rest]. *)
Definition stops (p : Py.char → bool) (rest : Py.str) : Prop :=
  match rest with
  | [] => True
  | c :: _ => p c = false
  end.

(** ** DOCX to PDF: [convert_docx_to_pdf] *)

Module Pdf.
Import Py.

(** The four converters of the source. *)
Inductive tool := ReportLab | Docx2Pdf | WordCom | LibreOffice.

(** What the conversion does to the outside: the converters it calls,
    in order. *)
Definition trace := list tool.

(** The end of a conversion: the PDF is written, or a [RuntimeError]
    with its message is raised. *)
Inductive outcome := Written | Raised (msg : str).

(** The messages of the errors that [convert_docx_to_pdf] raises. *)
Definition NO_REPORTLAB : str :=
  lines [lit "ReportLab library is not installed."; [];
         lit "To fix this issue:";
         lit "1. Install ReportLab: pip install reportlab";
         lit "2. Restart the application after installation"; [];
         lit "This provides self-contained PDF generation without external dependencies."].

Definition NEITHER_AVAILABLE : str :=
  lines [lit "Neither ReportLab nor docx2pdf are available."; [];
         lit "To fix this issue:";
         lit "1. Install ReportLab: pip install reportlab (recommended)";
         lit "2. Or install docx2pdf: pip install docx2pdf (requires Word)";
         lit "3. Restart the application after installation"; [];
         lit "ReportLab provides self-contained PDF generation."].

Definition both_failed (e e2 : str) : str :=
  lines [lit "PDF conversion failed with both methods:"; [];
         lit "ReportLab error: " ++ e;
         lit "docx2pdf error: " ++ e2; [];
         lit "Please install ReportLab for self-contained PDF generation:";
         lit "pip install reportlab"].

Section WithTools.
(** What each converter does on the files at hand: it writes the PDF
    ([None]) or raises an exception with the given text. *)
Variable attempt : tool → option str.

(** [convert_docx_to_pdf]: the helper of ReportLab, then the helper
    of docx2pdf. *)
Definition convert_docx_to_pdf : trace * outcome :=
  match attempt ReportLab with
  | None => ([ReportLab], Written)
  | Some e =>
      match attempt Docx2Pdf with
      | None => ([ReportLab; Docx2Pdf], Written)
      | Some e2 =>
          ([ReportLab; Docx2Pdf],
           Raised
             (if contains e (lit "ReportLab library not available")
              then NO_REPORTLAB
              else if contains e2 (lit "docx2pdf not available")
                   then NEITHER_AVAILABLE
                   else both_failed e e2))
      end
  end.

(** The converter that a method name selects. *)
Definition tool_of_method (method : str) : option tool :=
  if decide (method = lit "reportlab") then Some ReportLab
  else if decide (method = lit "word_com") then Some WordCom
  else if decide (method = lit "docx2pdf") then Some Docx2Pdf
  else if decide (method = lit "libreoffice") then Some LibreOffice
  else None.

Definition selected_failed (method e : str) : str :=
  lit "Selected PDF method '" ++ method ++ lit "' failed: " ++ e.

(** [convert_docx_to_pdf_with_method]: one converter, without
    fallback, unless the method is "auto". *)
Definition convert_docx_to_pdf_with_method (method : str) : trace * outcome :=
  if decide (method = lit "auto") then convert_docx_to_pdf
  else
    match tool_of_method method with
    | Some t =>
        match attempt t with
        | None => ([t], Written)
        | Some e => ([t], Raised (selected_failed method e))
        end
    | None =>
        ([], Raised (selected_failed method
                       (lit "Unknown PDF conversion method: " ++ method)))
    end.

End WithTools.
End Pdf.

(** ** The template document: [export_docx] and [PreviewWorker.run] *)

Module Docx.
Import Py.

(** A paragraph of python-docx: its runs and the name of its style.
    [p.text] is the concatenation of the texts of the runs. *)
Record paragraph := { runs : list str; style : str }.

Definition text (p : paragraph) : str := concat (runs p).

(** [doc.paragraphs]. *)
Definition document := list paragraph.

Definition LOOKING_BACK : str := lit "LOOKING BACK".
Definition DISCUSSION : str := lit "Discussion".
Definition LEVEL_TOKENS : list str :=
  [lit "A1"; lit "A2"; lit "B1"; lit "B1+"; lit "B2"; lit "C1"; lit "C2"].

(** The message of the missing marker. *)
Definition NO_DISCUSSION : str :=
  lit "Could not find " ++ [0x22] ++ lit "Discussion" ++ [0x22]
  ++ lit " in template.".

(** The unit title in place of the words of the template, in the runs
    of a paragraph whose text has them. *)
Definition replace_title (unit_title : str) (p : paragraph) : paragraph :=
  if contains (text p) LOOKING_BACK
  then {| runs := (λ r, if contains r LOOKING_BACK
                        then replace r LOOKING_BACK unit_title else r)
                  <$> runs p;
          style := style p |}
  else p.

(** The loop over the level tokens in [export_docx]: the first token
    that occurs is replaced, then the loop is left. *)
Fixpoint replace_first_token (toks : list str) (level txt : str) : str :=
  match toks with
  | [] => txt
  | tok :: toks' =>
      if contains txt tok then replace txt tok level
      else replace_first_token toks' level txt
  end.

(** The loop over the level tokens in the preview worker: every token
    that occurs is replaced, one after the other. *)
Definition replace_each_token (level txt : str) : str :=
  foldl (λ txt tok, if contains txt tok then replace txt tok level else txt)
        txt LEVEL_TOKENS.

Definition map_runs (f : str → str) (p : paragraph) : paragraph :=
  {| runs := f <$> runs p; style := style p |}.

(** The first [try] block of [export_docx], on all paragraphs. *)
Definition substitute_export (unit_title level : str) (d : document) : document :=
  (λ p, map_runs (λ r, replace_first_token LEVEL_TOKENS level (or_else r []))
                 (replace_title unit_title p)) <$> d.

(** [_replace_level_and_title(doc, idx_disc)], on the paragraphs up to
    the marker. *)
Definition _replace_level_and_title (unit_title level : str)
    (d : document) (idx_disc : nat) : document :=
  ((λ p, map_runs (λ r, replace_each_token level (or_else r []))
                  (replace_title unit_title p)) <$> take (S idx_disc) d)
  ++ drop (S idx_disc) d.

(** The search for the marker: the index of the first paragraph whose
    stripped text is "Discussion". *)
Definition is_marker (p : paragraph) : Prop :=
  strip (or_else (text p) []) = DISCUSSION.

Global Instance is_marker_dec p : Decision (is_marker p).
Proof. unfold is_marker. apply _. Defined.

Definition find_discussion (d : document) : option nat :=
  fst <$> list_find is_marker d.

Definition ONE_DOT_PAREN : Re.re :=
  Re.Group 2 (Re.Alt (Re.Class (Re.chr 0x2E)) (Re.Class (Re.chr 0x29))).

(** The pattern of the first numbered item: start, white space, the
    digit one, a dot or a closing parenthesis, white space. *)
Definition NUMBER_ONE : Re.re :=
  Re.cat [Re.Bol; Re.Star isspace; Re.Class (Re.chr 0x31);
          ONE_DOT_PAREN; Re.Plus isspace].

(** The same with the prefix, from the digit to the white space, as
    group 1. *)
Definition NUMBER_ONE_PREFIX : Re.re :=
  Re.cat [Re.Bol; Re.Star isspace;
          Re.Group 1 (Re.cat [Re.Class (Re.chr 0x31); ONE_DOT_PAREN;
                              Re.Plus isspace])].

Definition is_first_item (p : paragraph) : Prop :=
  is_Some (Re.match_ NUMBER_ONE (or_else (text p) [])).

Global Instance is_first_item_dec p : Decision (is_first_item p).
Proof. unfold is_first_item. apply _. Defined.

(** The loop that looks for the first numbered item after the marker:
    its index and the paragraph. *)
Definition first_item (d : document) (idx_disc : nat) : option (nat * paragraph) :=
  prod_map (λ i, S idx_disc + i)%nat id <$> list_find is_first_item (drop (S idx_disc) d).

(** [prefix_example] after the loop. *)
Definition prefix_example (item : option (nat * paragraph)) : str :=
  match item with
  | Some (_, p) =>
      match Re.match_ NUMBER_ONE_PREFIX (text p) with
      | Some m => Re.group m 1
      | None => lit "1. "
      end
  | None => lit "1. "
  end.

(** [dot_or_paren] and [space_part]. *)
Definition dot_or_paren_of (prefix : str) : char :=
  if contains prefix (lit ". ") then 0x2E else 0x29.

Definition space_part_of (prefix : str) : str :=
  let sep := dot_or_paren_of prefix in
  let part := if contains prefix [sep] then after_first sep prefix else lit " " in
  if truthy part then part else lit " ".

(** The paragraphs that the last loop adds. *)
Definition question_paragraphs (prefix style_name : str) (qs : list str)
    : list paragraph :=
  imap (λ i q,
          {| runs := [str_of_N (N.of_nat (S i)) ++ [dot_or_paren_of prefix]
                      ++ space_part_of prefix ++ q];
             style := style_name |}) qs.

Definition NORMAL : str := lit "Normal".

(** The document that [export_docx] saves: the old items are removed,
    then the style is read, then the questions are added. *)
Definition fill_export (d : document) (idx_disc : nat) (qs : list str) : document :=
  let item := first_item d idx_disc in
  let '(kept_part, style_name) :=
    match item with
    | Some (i, p) => (take i d, style p)
    | None =>
        let d' := take (S idx_disc) d in
        (d', match d' !! S idx_disc with Some p => style p | None => NORMAL end)
    end in
  kept_part ++ question_paragraphs (prefix_example item) style_name qs.

(** The document that the preview worker saves: the style is read
    before the old items are removed. *)
Definition fill_preview (d : document) (idx_disc : nat) (qs : list str) : document :=
  let item := first_item d idx_disc in
  let '(kept_part, style_name) :=
    match item with
    | Some (i, p) => (take i d, style p)
    | None =>
        (take (S idx_disc) d,
         match d !! S idx_disc with Some p => style p | None => NORMAL end)
    end in
  kept_part ++ question_paragraphs (prefix_example item) style_name qs.

(** The template file: absent, unreadable (the text of the exception
    of [Document]), or a document. *)
Inductive template_file :=
| NoFile
| Unreadable (e : str)
| Template (d : document).

(** What the export and the preview worker do to the outside. *)
Inductive event :=
| Warning (title msg : str)            (* QMessageBox.warning *)
| Critical (title msg : str)           (* QMessageBox.critical *)
| Information (title msg : str)        (* QMessageBox.information *)
| Save (path : str) (d : document)     (* doc.save(path) *)
| Convert (tools : Pdf.trace)          (* the converters called *)
| Failed (msg : str)                   (* failed.emit(msg) *)
| Done (key png : str).                (* done.emit(key, png) *)

Definition EXPORT_ERROR : str := lit "Export Error".

Section WithFiles.
(** The path of the template, and the files of the preview worker. *)
Variable TEMPLATE_PATH : str.
Variables tmp_docx tmp_png : str.

(** [App.export_docx].  [chosen] is the path that the file dialog
    returns (empty when cancelled), [deps] the text of the exception
    of the import of python-docx, if any.  The message of the last
    handler also carries the traceback, which is left out here. *)
Definition export_docx (unit_title level : str) (questions : list str)
    (chosen : str) (deps : option str) (template : template_file)
    : list event :=
  if negb (truthy unit_title) || negb (truthy (strip unit_title))
  then [Warning (lit "Unit Title Required")
          (lines [lit "Please enter a unit title before exporting."; [];
                  lit "The unit title will be used in the exported document."])]
  else if negb (truthy chosen) then []
  else
    match deps with
    | Some e => [Critical EXPORT_ERROR (lit "python-docx not installed: " ++ e)]
    | None =>
        match template with
        | NoFile =>
            [Critical EXPORT_ERROR
               (lit "Template not found:" ++ [0x0A] ++ TEMPLATE_PATH)]
        | Unreadable e => [Critical EXPORT_ERROR e]
        | Template d =>
            let d := substitute_export unit_title level d in
            match find_discussion d with
            | None => [Critical EXPORT_ERROR NO_DISCUSSION]
            | Some idx_disc =>
                [Save chosen (fill_export d idx_disc (_ensure_15 questions));
                 Information (lit "Export") (lit "Saved:" ++ [0x0A] ++ chosen)]
            end
        end
    end.

(** The message of the preview worker for a failed conversion. *)
Definition conversion_failed (error_msg : str) : str :=
  if contains error_msg (lit "LibreOffice")
  then lines [lit "Preview generation failed due to PDF conversion issues."; [];
              lit "The preview requires PDF conversion, but LibreOffice is not available."; [];
              lit "To fix this:";
              lit "1. Install LibreOffice from https://www.libreoffice.org/";
              lit "2. Make sure it's added to your system PATH";
              lit "3. Restart the application"; [];
              lit "You can still export to DOCX format without preview."]
  else if contains error_msg (lit "All PDF conversion methods failed")
       then lines [lit "Preview generation failed - no PDF conversion method is available."; [];
                   lit "To enable preview:";
                   lit "1. Install LibreOffice (recommended)";
                   lit "2. Or install Microsoft Word (Windows only)";
                   lit "3. Or install docx2pdf library"; [];
                   lit "You can still export to DOCX format without preview."]
       else lit "Preview generation failed: " ++ error_msg.

(** [PreviewWorker.run].  [attempt] is what the converters do,
    [raster] what the rendering of the first page does after the
    conversion: it writes the PNG ([None]) or raises. *)
Definition run (DEBUG_MODE : bool) (key unit_title level : str)
    (questions : list str) (pdf_method : str)
    (deps : option str) (template : template_file)
    (attempt : Pdf.tool → option str)
    (raster : Pdf.outcome → option str) : list event :=
  match deps with
  | Some e => [Failed (lit "Preview deps missing: " ++ e)]
  | None =>
      match template with
      | NoFile => [Failed (lit "Template not found.")]
      | Unreadable e => [Failed e]
      | Template d =>
          match find_discussion d with
          | None => [Failed NO_DISCUSSION]
          | Some idx_disc =>
              let d := _replace_level_and_title unit_title level d idx_disc in
              let d := fill_preview d idx_disc questions in
              let '(tools, out) :=
                if DEBUG_MODE && negb (bool_decide (pdf_method = lit "reportlab"))
                then Pdf.convert_docx_to_pdf_with_method attempt pdf_method
                else Pdf.convert_docx_to_pdf attempt in
              [Save tmp_docx d; Convert tools]
              ++ match out with
                 | Pdf.Written => []
                 | Pdf.Raised e => [Failed (conversion_failed e)]
                 end
              ++ match raster out with
                 | None => [Done key tmp_png]
                 | Some e => [Failed e]
                 end
          end
      end
  end.

End WithFiles.
End Docx.

(** ** The main window: the preview and the question rows *)

Module App.
Import Py.

(** A row of the list of questions: the text of its line edit, and
    whether it shows as real content and as regenerated. *)
Record row := { row_text : str; real_content : bool; regenerated : bool }.

(** The workers that the window keeps in [_workers]: the preview
    workers, with what they were given, and the others.  A worker
    stands for its data: two preview workers made with the same key,
    title, level and questions are the same entry of [_workers]. *)
Inductive worker :=
| PreviewWorker (key unit_title level : str) (questions : list str)
| OtherWorker (id : nat).

Global Instance worker_eq_dec : EqDecision worker.
Proof. solve_decision. Defined.

Definition is_preview (w : worker) : bool :=
  match w with PreviewWorker _ _ _ _ => true | OtherWorker _ => false end.

(** The fields of the window that the code at hand reads or writes,
    with the files of the machine and the state of the preview pane:
    the PNG on its page and the message of its overlay. *)
Record state := {
  unit_title : str;
  level : str;
  questions : list str;
  row_widgets : list row;
  preview_visible : bool;
  page : option str;
  overlay : option str;
  files : gset str;
  _workers : list worker;
}.

Definition set_questions (qs : list str) (st : state) : state :=
  {| unit_title := unit_title st; level := level st; questions := qs;
     row_widgets := row_widgets st; preview_visible := preview_visible st;
     page := page st; overlay := overlay st; files := files st;
     _workers := _workers st |}.

Definition set_row_widgets (rs : list row) (st : state) : state :=
  {| unit_title := unit_title st; level := level st; questions := questions st;
     row_widgets := rs; preview_visible := preview_visible st;
     page := page st; overlay := overlay st; files := files st;
     _workers := _workers st |}.

Definition set_preview (pg ov : option str) (st : state) : state :=
  {| unit_title := unit_title st; level := level st; questions := questions st;
     row_widgets := row_widgets st; preview_visible := preview_visible st;
     page := pg; overlay := ov; files := files st;
     _workers := _workers st |}.

Definition set_files (fs : gset str) (st : state) : state :=
  {| unit_title := unit_title st; level := level st; questions := questions st;
     row_widgets := row_widgets st; preview_visible := preview_visible st;
     page := page st; overlay := overlay st; files := fs;
     _workers := _workers st |}.

Definition set_workers (ws : list worker) (st : state) : state :=
  {| unit_title := unit_title st; level := level st; questions := questions st;
     row_widgets := row_widgets st; preview_visible := preview_visible st;
     page := page st; overlay := overlay st; files := files st;
     _workers := ws |}.

(** The index of [l[i]] for a Python integer [i]: a negative [i] counts
    from the end; out of range there is no index ([IndexError]). *)
Definition index_of {A} (l : list A) (i : Z) : option nat :=
  let n := Z.of_nat (length l) in
  if (0 <=? i)%Z && (i <? n)%Z then Some (Z.to_nat i)
  else if (- n <=? i)%Z && (i <? 0)%Z then Some (Z.to_nat (n + i))
  else None.

(** The position that a Python index within range stands for. *)
Definition position {A} (l : list A) (i : Z) : nat :=
  Z.to_nat (if (i <? 0)%Z then Z.of_nat (length l) + i else i).

Inductive exception := IndexError.

(** What the window does to the outside. *)
Inductive event :=
| ShowExact (png : str)                 (* preview.show_exact(png) *)
| Remove (path : str)                   (* os.remove(path) *)
| Warning (title msg : str)             (* QMessageBox.warning *)
| Start (w : worker).                   (* worker.start() *)

Section WithHash.
(** [hashlib.sha1(data).hexdigest()] and [s.encode("utf-8")]. *)
Variable sha1_hexdigest : list N → str.
Variable encode_utf8 : str → list N.

(** [_content_key]: the hash of the title, the level and, for every
    question, a bar and the question. *)
Definition _content_key (st : state) : str :=
  sha1_hexdigest
    (encode_utf8 (or_else (unit_title st) [])
     ++ encode_utf8 (or_else (level st) [])
     ++ concat ((λ q, [0x7C] ++ encode_utf8 q) <$> questions st)).

(** [self.setVisible(True)] of the preview. *)
Definition set_visible (st : state) : state :=
  {| unit_title := unit_title st; level := level st; questions := questions st;
     row_widgets := row_widgets st; preview_visible := true;
     page := page st; overlay := overlay st; files := files st;
     _workers := _workers st |}.

(** [preview.show_exact(png_path)]: the PNG goes on the page if the
    file is there, and the preview is made visible; a warning is
    shown otherwise; the overlay is hidden in both cases.  A file
    that is there is taken to load: the worker emits [done] only for
    a PNG that it has written and found not empty. *)
Definition show_exact (png_path : str) (st : state) : state * list event :=
  if decide (png_path ∈ files st)
  then (set_visible (set_preview (Some png_path) None st), [])
  else (set_preview (page st) None st,
        [Warning (lit "Exact preview error") png_path]).

(** The callback [on_done(k, png_path)] that [_start_exact_render]
    connects to the signal [done] of [worker]. *)
Definition on_done (worker : worker) (k png_path : str) (st : state)
    : state * list event :=
  let current_key := _content_key st in
  let '(st, evs) :=
    if decide (k = current_key)
    then let '(st', evs) := show_exact png_path st in
         (st', ShowExact png_path :: evs)
    else if decide (png_path ∈ files st)
         then (set_files (files st ∖ {[png_path]}) st, [Remove png_path])
         else (st, []) in
  (set_workers (filter (λ w, w ≠ worker) (_workers st)) st, evs).

(** [_start_exact_render]: the preview workers at hand are dropped,
    and a new one is started with the key and a copy of the
    questions of this moment. *)
Definition _start_exact_render (st : state) : state * list event :=
  let w := PreviewWorker (_content_key st) (unit_title st) (level st)
             (questions st) in
  (set_workers (filter (λ w, is_preview w = false) (_workers st) ++ [w]) st,
   [Start w]).

(** [preview.queue_exact()]: the overlay shows its message, which
    ends with the character U+2026. *)
Definition queue_exact (st : state) : state :=
  set_preview (page st) (Some (lit "Rendering exact" ++ [0x2026])) st.

(** [_apply_single(idx, new_q)]: the state after the call, the
    exception that leaves it, if any, and the events. *)
Definition _apply_single (idx : Z) (new_q : str) (st : state)
    : state * option exception * list event :=
  match index_of (questions st) idx with
  | None => (st, Some IndexError, [])
  | Some i =>
      let st := set_questions (<[i := new_q]> (questions st)) st in
      match index_of (row_widgets st) idx with
      | None => (st, Some IndexError, [])
      | Some j =>
          let r := {| row_text := new_q; real_content := true;
                      regenerated := true |} in
          let st := set_row_widgets (<[j := r]> (row_widgets st)) st in
          if preview_visible st
          then let '(st', evs) := _start_exact_render (queue_exact st) in
               (st', None, evs)
          else (st, None, [])
      end
  end.

End WithHash.
End App.

(** ** The workers of the model: what they make of a reply *)

Module Gemini.
Import Py.

(** What the call of the model gives: a reply with its text, if it has
    one (the attribute [text] or, without it, the text of the first
    part of the first candidate), or an exception with its text.  The
    log of the conversation, which is written between the parsing and
    the signal, catches its own exceptions and is left out. *)
Inductive reply :=
| Reply (text : option str)
| ApiError (e : str).

(** The signals of the two workers. *)
Inductive signal :=
| Ok (qs : list str)                    (* GeminiBatchWorker.ok *)
| OkSingle (index : Z) (q : str)        (* GeminiSingleWorker.ok *)
| Err (msg : str).                      (* err *)

Definition DEFAULT_SINGLE : str :=
  lit "What everyday example fits this topic for you?".

(** The text of the [IndexError] of an index on an empty list. *)
Definition INDEX_OUT_OF_RANGE : str := lit "list index out of range".

(** [text or ""]. *)
Definition text_or_empty (text : option str) : str :=
  or_else (default [] text) [].

Section WithLower.
Variable lower : str → str.

(** The list that [GeminiBatchWorker.run] emits for a reply: the
    parsed questions, the loop that pads them, the slice. *)
Definition batch_questions (text : option str) : list str :=
  let qs := parse_numbered_questions lower (text_or_empty text) 15 in
  let qs := pad_loop 15 qs in
  slice_to 15 qs.

(** [GeminiBatchWorker.run], from the reply on. *)
Definition batch_run (r : reply) : signal :=
  match r with
  | Reply text => Ok (batch_questions text)
  | ApiError e => Err (lit "Gemini batch failed: " ++ e)
  end.

(** The first line of the stripped text, or the empty string when
    there is no text; [None] stands for the [IndexError] of indexing
    an empty list of lines. *)
Definition first_line (text : option str) : option str :=
  if truthy (default [] text)
  then head (splitlines (strip (text_or_empty text)))
  else Some [].

(** The question that is made of that line. *)
Definition question_of_line (line : str) : str :=
  let line :=
    if endswith line [QMARK] then line
    else or_else (strip (rstrip_by (one_of STOPS) line)) DEFAULT_SINGLE
         ++ [QMARK] in
  sub_ws line.

(** [GeminiSingleWorker.run], from the reply on. *)
Definition single_run (index : Z) (r : reply) : signal :=
  match r with
  | Reply text =>
      match parse_numbered_questions lower (text_or_empty text) 1 with
      | q :: _ => OkSingle index q
      | [] =>
          match first_line text with
          | Some line => OkSingle index (question_of_line line)
          | None => Err (lit "Gemini single failed: " ++ INDEX_OUT_OF_RANGE)
          end
      end
  | ApiError e => Err (lit "Gemini single failed: " ++ e)
  end.

End WithLower.
End Gemini.

(** ** The main window: the callbacks that write the questions *)

Module Window.
Import Py App.

(** The questions of a new window. *)
Definition PLACEHOLDERS : list str :=
  [lit "Question 1 goes here"; lit "Question 2 goes here";
   lit "Question 3 goes here"; lit "Question 4 goes here";
   lit "Question 5 goes here"; lit "Question 6 goes here";
   lit "Question 7 goes here"; lit "Question 8 goes here";
   lit "Question 9 goes here"; lit "Question 10 goes here";
   lit "Question 11 goes here"; lit "Question 12 goes here";
   lit "Question 13 goes here"; lit "Question 14 goes here";
   lit "Question 15 goes here"].

(** [QuestionRow(text, index)] as [_add_row] makes it. *)
Definition fresh_row (text : str) : row :=
  {| row_text := text; real_content := false; regenerated := false |}.

(** [QuestionRow.set_text]. *)
Definition set_text (t : str) (r : row) : row :=
  {| row_text := t;
     real_content := negb (startswith t (lit "Question ")
                           && endswith t (lit " goes here"));
     regenerated := regenerated r |}.

(** [row.edit.set_real_content(True); row.mark_as_original()]. *)
Definition as_original (r : row) : row :=
  {| row_text := row_text r; real_content := true; regenerated := false |}.

(** [preview.clear()]: the page is emptied. *)
Definition clear (st : state) : state := set_preview None (overlay st) st.

(** [on_title_changed]. *)
Definition on_title_changed (txt : str) (st : state) : state :=
  let st :=
    {| unit_title := strip (or_else txt []); level := level st;
       questions := questions st; row_widgets := row_widgets st;
       preview_visible := preview_visible st; page := page st;
       overlay := overlay st; files := files st; _workers := _workers st |} in
  clear st.

(** [on_level_changed]. *)
Definition on_level_changed (lvl : str) (st : state) : state :=
  let st :=
    {| unit_title := unit_title st; level := lvl;
       questions := questions st; row_widgets := row_widgets st;
       preview_visible := preview_visible st; page := page st;
       overlay := overlay st; files := files st; _workers := _workers st |} in
  clear st.

(** [preview.show()]. *)
Definition show (st : state) : state :=
  {| unit_title := unit_title st; level := level st;
     questions := questions st; row_widgets := row_widgets st;
     preview_visible := true; page := page st;
     overlay := overlay st; files := files st; _workers := _workers st |}.

(** [on_text_edit]. *)
Definition on_text_edit (idx : Z) (new_text : str) (st : state) : state :=
  if (0 <=? idx)%Z && (idx <? Z.of_nat (length (questions st)))%Z
  then clear (set_questions (<[Z.to_nat idx := strip new_text]> (questions st)) st)
  else st.

(** [_apply_batch]: the state after the call, and whether
    [_start_exact_render] has been put on the timer. *)
Definition _apply_batch (qs : list str) (st : state) : state * bool :=
  let st := set_questions (_ensure_15 qs) st in
  let rows :=
    if decide (length (row_widgets st) ≠ length (questions st))
    then fresh_row <$> questions st
    else zip_with set_text (questions st) (row_widgets st) in
  let st := set_row_widgets (as_original <$> rows) st in
  if preview_visible st then (queue_exact st, true) else (st, false).

(** The callback [done(qs)] of [generate_with_gemini] for [worker]. *)
Definition batch_done (worker : worker) (qs : list str) (st : state)
    : state * bool :=
  let '(st, timer) := _apply_batch (_ensure_15 qs) st in
  (set_workers (filter (λ w, w ≠ worker) (_workers st)) st, timer).

Section WithHash.
Variable sha1_hexdigest : list N → str.
Variable encode_utf8 : str → list N.

(** The callback [done(index, new_q)] of [regen_single] for [worker]. *)
Definition single_done (worker : worker) (index : Z) (new_q : str)
    (st : state) : state * option exception * list event :=
  let '(st, exn, evs) :=
    if truthy new_q && truthy (strip new_q)
    then _apply_single sha1_hexdigest encode_utf8 index (strip new_q) st
    else (st, None,
          [Warning (lit "No result") (lit "Model returned empty text.")]) in
  (set_workers (filter (λ w, w ≠ worker) (_workers st)) st, exn, evs).

(** [render_exact_now]: the preview is shown if it is hidden, then
    the render is started. *)
Definition render_exact_now (st : state) : state * list event :=
  let st := if negb (preview_visible st) then show st else st in
  _start_exact_render sha1_hexdigest encode_utf8 (queue_exact st).

(** The callback [on_fail(msg)] that [_start_exact_render] connects
    to the signal [failed] of [worker]. *)
Definition on_fail (worker : worker) (msg : str) (st : state)
    : state * list event :=
  (set_workers (filter (λ w, w ≠ worker) (_workers st)) st,
   [Warning (lit "Exact preview failed") msg]).

(** The calls that the window receives from its widgets, its workers
    and its timer, as far as they write the questions, the rows, the
    preview or the workers. *)
Inductive call :=
| BatchDone (w : worker) (qs : list str)
| SingleDone (w : worker) (index : Z) (new_q : str)
| TextEdit (idx : Z) (new_text : str)
| TitleChanged (txt : str)
| LevelChanged (lvl : str)
| RenderExactNow
| TimerRender
| PreviewDone (w : worker) (k png_path : str)
| PreviewFailed (w : worker) (msg : str).

(** The state after a call. *)
Definition after (st : state) (c : call) : state :=
  match c with
  | BatchDone w qs => (batch_done w qs st).1
  | SingleDone w index new_q => (single_done w index new_q st).1.1
  | TextEdit idx new_text => on_text_edit idx new_text st
  | TitleChanged txt => on_title_changed txt st
  | LevelChanged lvl => on_level_changed lvl st
  | RenderExactNow => (render_exact_now st).1
  | TimerRender => (_start_exact_render sha1_hexdigest encode_utf8 st).1
  | PreviewDone w k png_path =>
      (on_done sha1_hexdigest encode_utf8 w k png_path st).1
  | PreviewFailed w msg => (on_fail w msg st).1
  end.

End WithHash.
End Window.

(** * Properties *)

(** ** Facts about the string operations *)

Section PyFacts.
Import Py.
Implicit Types (s t w : str) (c : char) (p : char → bool).

Lemma lstrip_by_nil_iff p s : lstrip_by p s = [] ↔ forallb p s = true.
Proof.
  induction s as [|c s IH]; simpl; [done|].
  destruct (p c); simpl; [done|]. split; discriminate.
Qed.

Lemma lstrip_by_snoc p s c :
  lstrip_by p (s ++ [c]) =
  match lstrip_by p s with
  | [] => if p c then [] else [c]
  | r => r ++ [c]
  end.
Proof.
  induction s as [|a s IH]; simpl; [done|].
  destruct (p a); [exact IH | done].
Qed.

Lemma rstrip_by_cons p c s :
  rstrip_by p (c :: s) =
  match rstrip_by p s with
  | [] => if p c then [] else [c]
  | r => c :: r
  end.
Proof.
  unfold rstrip_by. simpl. rewrite lstrip_by_snoc.
  destruct (lstrip_by p (rev s)) as [|a l]; simpl.
  - by destruct (p c).
  - rewrite rev_app_distr. simpl.
    destruct (rev l ++ [a]) eqn:E; [|done].
    by destruct (rev l).
Qed.

Lemma rstrip_by_nil p : rstrip_by p [] = [].
Proof. done. Qed.

Lemma rstrip_by_snoc_keep p s c :
  p c = false → rstrip_by p (s ++ [c]) = s ++ [c].
Proof.
  intros Hc. unfold rstrip_by. rewrite rev_app_distr. simpl.
  rewrite Hc. simpl. by rewrite rev_involutive.
Qed.

Lemma lstrip_by_snoc_keep p s c :
  p c = false → lstrip_by p (s ++ [c]) = lstrip_by p s ++ [c].
Proof.
  intros Hc. rewrite lstrip_by_snoc, Hc. by destruct (lstrip_by p s).
Qed.

Lemma strip_by_snoc_keep p s c :
  p c = false → strip_by p (s ++ [c]) = lstrip_by p s ++ [c].
Proof.
  intros Hc. unfold strip_by.
  rewrite lstrip_by_snoc_keep by done. by apply rstrip_by_snoc_keep.
Qed.

(** Stripping on the left and on the right commute. *)
Lemma lstrip_rstrip_comm p s :
  lstrip_by p (rstrip_by p s) = rstrip_by p (lstrip_by p s).
Proof.
  induction s as [|c s IH]; [done|].
  rewrite rstrip_by_cons. simpl. destruct (p c) eqn:Hc.
  - destruct (rstrip_by p s) eqn:E; simpl.
    + by rewrite <- IH.
    + rewrite Hc. by rewrite <- IH.
  - rewrite rstrip_by_cons.
    destruct (rstrip_by p s); simpl; by rewrite Hc.
Qed.

Lemma sub_ws_from_true s : sub_ws_from true s = sub_ws_from false (lstrip s).
Proof.
  induction s as [|c s IH]; simpl; [done|].
  unfold lstrip in *. simpl. destruct (isspace c) eqn:Hc; [done|].
  simpl. by rewrite Hc.
Qed.

Lemma sub_ws_from_snoc_keep b s c :
  isspace c = false → sub_ws_from b (s ++ [c]) = sub_ws_from b s ++ [c].
Proof.
  intros Hc. revert b. induction s as [|a s IH]; intros b; simpl.
  - by rewrite Hc.
  - destruct (isspace a); [destruct b|]; simpl; by rewrite IH.
Qed.

Lemma sub_ws_nil_iff s : sub_ws s = [] ↔ s = [].
Proof.
  destruct s as [|c s]; [done|]. unfold sub_ws. simpl.
  by destruct (isspace c).
Qed.

Lemma split_ws_from_word cur s :
  forallb isspace_not cur = true → Forall word (split_ws_from cur s).
Proof.
  revert cur. induction s as [|c s IH]; intros cur Hcur; simpl.
  - destruct cur as [|a cur]; [constructor|].
    repeat constructor.
    + intros E. simpl in E. by destruct (rev cur).
    + rewrite forallb_forall in *. intros x Hx. apply Hcur.
      by apply in_rev in Hx.
  - destruct (isspace c) eqn:Hc.
    + destruct cur as [|a cur]; [by apply IH|].
      constructor; [|by apply IH]. split.
      * intros E. simpl in E. by destruct (rev cur).
      * rewrite forallb_forall in *. intros x Hx. apply Hcur.
        by apply in_rev in Hx.
    + apply IH. simpl. unfold isspace_not at 1. by rewrite Hc.
Qed.

End PyFacts.

Section Normalize.
Import Py.
Implicit Types (s t w cur : str) (c : char) (ws : list str).

Lemma join_nil_iff ws : Forall word ws → join SPACE ws = [] ↔ ws = [].
Proof.
  intros Hws. split; [|by intros ->].
  destruct Hws as [|w ws [Hw _] _]; [done|].
  simpl. destruct ws; [done|]. by destruct w.
Qed.

Lemma join_cons w ws :
  ws ≠ [] → join SPACE (w :: ws) = w ++ SPACE ++ join SPACE ws.
Proof. by destruct ws. Qed.

Lemma split_ws_from_cur_ne cur s : cur ≠ [] → split_ws_from cur s ≠ [].
Proof.
  revert cur. induction s as [|a s IH]; intros cur Hcur; simpl.
  - by destruct cur.
  - destruct (isspace a).
    + by destruct cur.
    + by apply IH.
Qed.

Lemma split_ws_from_nil_iff s :
  split_ws_from [] s = [] ↔ forallb isspace s = true.
Proof.
  induction s as [|c s IH]; simpl; [done|].
  destruct (isspace c); simpl; [done|]. split; [|done].
  intros E. by apply split_ws_from_cur_ne in E.
Qed.

Lemma rstrip_nil_iff s : rstrip s = [] ↔ forallb isspace s = true.
Proof.
  unfold rstrip, rstrip_by. split.
  - intros E. apply (f_equal (@rev _)) in E. rewrite rev_involutive in E.
    apply lstrip_by_nil_iff in E. rewrite forallb_forall in *.
    intros x Hx. apply E. by apply in_rev in Hx.
  - intros E. replace (lstrip_by isspace (rev s)) with (@nil char); [done|].
    symmetry. apply lstrip_by_nil_iff. rewrite forallb_forall in *.
    intros x Hx. apply E. by apply in_rev.
Qed.

Lemma sub_ws_rstrip_cons_keep c s :
  isspace c = false → sub_ws (rstrip (c :: s)) = c :: sub_ws (rstrip s).
Proof.
  intros Hc. unfold rstrip. rewrite rstrip_by_cons.
  unfold sub_ws.
  destruct (rstrip_by isspace s); rewrite ?Hc; simpl; by rewrite Hc.
Qed.

(** The collapsed form of a stripped string is its words joined by one
    space: [re.sub(r"\s+", " ", s.strip()) == " ".join(s.split())].
    The first part is the invariant inside a word, [cur] being the
    characters of the word read so far. *)
Lemma sub_ws_strip_from s :
  (∀ cur, cur ≠ [] →
     rev cur ++ sub_ws (rstrip s) = join SPACE (split_ws_from cur s)) ∧
  sub_ws (rstrip (lstrip s)) = join SPACE (split_ws_from [] s).
Proof.
  induction s as [|c s [IH1 IH2]].
  - split; [|done]. intros cur Hcur. simpl.
    destruct cur; [done|]. by rewrite app_nil_r.
  - destruct (isspace c) eqn:Hc; split.
    + intros cur Hcur. simpl. rewrite Hc.
      destruct cur as [|a cur]; [done|].
      unfold rstrip. rewrite rstrip_by_cons. fold (rstrip s). rewrite Hc.
      destruct (rstrip s) as [|r0 r] eqn:Er.
      * apply rstrip_nil_iff, split_ws_from_nil_iff in Er.
        rewrite Er. simpl. by rewrite app_nil_r.
      * assert (split_ws_from [] s ≠ []) as Hne.
        { intros E. apply split_ws_from_nil_iff, rstrip_nil_iff in E.
          congruence. }
        rewrite join_cons by done. f_equal.
        rewrite <- IH2, <- Er. unfold sub_ws at 1. simpl. rewrite Hc.
        unfold SPACE. simpl. f_equal.
        rewrite sub_ws_from_true. unfold lstrip, rstrip.
        by rewrite lstrip_rstrip_comm.
    + unfold lstrip. simpl. rewrite Hc. exact IH2.
    + intros cur Hcur. rewrite sub_ws_rstrip_cons_keep by done.
      simpl. rewrite Hc. rewrite <- IH1 by done.
      simpl. by rewrite <- app_assoc.
    + unfold lstrip. simpl. rewrite Hc.
      rewrite sub_ws_rstrip_cons_keep by done.
      by rewrite <- IH1.
Qed.

Lemma normalize_words s : sub_ws (strip s) = join SPACE (split_ws s).
Proof. apply sub_ws_strip_from. Qed.

Lemma split_ws_from_app_word cur w s :
  forallb isspace_not w = true →
  split_ws_from cur (w ++ s) = split_ws_from (rev w ++ cur) s.
Proof.
  revert cur. induction w as [|a w IH]; intros cur Hw; [done|].
  simpl in *. apply andb_true_iff in Hw as [Ha Hw].
  unfold isspace_not in Ha. apply negb_true_iff in Ha. rewrite Ha.
  rewrite IH by done. by rewrite <- app_assoc.
Qed.

(** Splitting the join of words gives the words back. *)
Lemma split_ws_join ws : Forall word ws → split_ws (join SPACE ws) = ws.
Proof.
  unfold split_ws. induction 1 as [|w ws [Hne Hw] Hws IH]; [done|].
  destruct ws as [|w' ws].
  - simpl. rewrite <- (app_nil_r w) at 1.
    rewrite split_ws_from_app_word by done. simpl. rewrite app_nil_r.
    destruct (rev w) eqn:E.
    + apply (f_equal (@rev _)) in E. rewrite rev_involutive in E. done.
    + by rewrite <- E, rev_involutive.
  - rewrite join_cons by done.
    rewrite split_ws_from_app_word by done. rewrite app_nil_r.
    unfold SPACE. simpl app. cbn [split_ws_from].
    replace (isspace 32) with true by done.
    destruct (rev w) eqn:E.
    + apply (f_equal (@rev _)) in E. rewrite rev_involutive in E. done.
    + rewrite <- E, rev_involutive. f_equal. exact IH.
Qed.

Lemma split_ws_word s : Forall word (split_ws s).
Proof. by apply split_ws_from_word. Qed.

Lemma or_else_nil s : or_else s [] = s.
Proof. by destruct s. Qed.

Lemma normalize_eq_words q : normalize q = join SPACE (split_ws q).
Proof. unfold normalize. rewrite or_else_nil. apply normalize_words. Qed.

Lemma kept_iff_words q : kept q ↔ split_ws q ≠ [].
Proof.
  unfold kept. rewrite or_else_nil.
  rewrite <- (join_nil_iff (split_ws q)) by apply split_ws_word.
  rewrite <- normalize_words, sub_ws_nil_iff.
  by destruct (strip q).
Qed.

Lemma kept_normalize q : kept q → kept (normalize q).
Proof.
  rewrite !kept_iff_words, normalize_eq_words.
  by rewrite split_ws_join by apply split_ws_word.
Qed.

Lemma normalize_idem q : normalize (normalize q) = normalize q.
Proof.
  rewrite !normalize_eq_words.
  by rewrite split_ws_join by apply split_ws_word.
Qed.

End Normalize.

(** ** [_ensure_15] *)

Section Ensure15.
Import Py.
Implicit Types (q r : str) (qs : list str).

Lemma pad_loop_replicate fuel qs :
  (15 - length qs ≤ fuel)%nat →
  pad_loop fuel qs = qs ++ replicate (15 - length qs) FALLBACK_QUESTION.
Proof.
  revert qs. induction fuel as [|fuel IH]; intros qs Hfuel; simpl.
  - replace (15 - length qs)%nat with 0%nat by lia. by rewrite app_nil_r.
  - destruct (Nat.ltb_spec (length qs) 15) as [Hlt|Hge].
    + rewrite IH by (rewrite length_app; simpl; lia).
      rewrite length_app. simpl. rewrite <- app_assoc. f_equal.
      replace (15 - length qs)%nat with (S (15 - (length qs + 1)))%nat by lia.
      done.
    + replace (15 - length qs)%nat with 0%nat by lia. by rewrite app_nil_r.
Qed.

(** The loops of [_ensure_15] in closed form. *)
Lemma ensure_15_eq qs :
  _ensure_15 qs =
  take 15 (normalize <$> filter kept qs)
  ++ replicate (15 - length (filter kept qs)) FALLBACK_QUESTION.
Proof.
  unfold _ensure_15. set (l := normalize <$> filter kept qs).
  assert (length l = length (filter kept qs)) as Hl
    by (unfold l; apply length_fmap).
  rewrite <- Hl. destruct (Nat.ltb_spec 15 (length l)) as [Hlt|Hge].
  - rewrite pad_loop_replicate by lia.
    do 2 f_equal. rewrite length_take. lia.
  - rewrite pad_loop_replicate by lia. by rewrite take_ge by done.
Qed.

Lemma ensure_15_length qs : length (_ensure_15 qs) = 15%nat.
Proof.
  rewrite ensure_15_eq, length_app, length_take, length_replicate, length_fmap.
  lia.
Qed.

Lemma endswith_qmark_iff q :
  endswith q [QMARK] = true ↔ ∃ s, q = s ++ [QMARK].
Proof.
  unfold endswith. simpl. split.
  - destruct (rev q) as [|a l] eqn:E; simpl; [done|].
    replace (startswith l []) with true by (by destruct l).
    rewrite andb_true_r. intros ->%N.eqb_eq. exists (rev l).
    apply (f_equal (@rev _)) in E. by rewrite rev_involutive in E.
  - intros [s ->]. rewrite rev_app_distr. simpl.
    by destruct (rev s).
Qed.

Lemma normalize_endswith q :
  endswith q [QMARK] = true → endswith (normalize q) [QMARK] = true.
Proof.
  rewrite !endswith_qmark_iff. intros [s ->].
  unfold normalize. rewrite or_else_nil.
  exists (sub_ws (lstrip s)). unfold strip.
  rewrite strip_by_snoc_keep by done.
  by apply sub_ws_from_snoc_keep.
Qed.

Lemma ensure_15_elem r qs :
  r ∈ _ensure_15 qs →
  (∃ q, r = normalize q ∧ kept q ∧ q ∈ qs) ∨ r = FALLBACK_QUESTION.
Proof.
  rewrite ensure_15_eq, elem_of_app. intros [Hr|Hr].
  - left. apply subseteq_take, list_elem_of_fmap in Hr as (q & -> & Hq).
    apply list_elem_of_filter in Hq as [??]. eauto.
  - right. by apply elem_of_replicate_inv in Hr.
Qed.

Lemma filter_Forall_id {A} (P : A → Prop) `{!∀ x, Decision (P x)} (l : list A) :
  Forall P l → filter P l = l.
Proof.
  induction 1 as [|x l Hx Hl IH]; [done|].
  rewrite filter_cons, decide_True by done. by rewrite IH.
Qed.

Lemma ensure_15_settled qs : Forall settled (_ensure_15 qs).
Proof.
  apply Forall_forall. intros r [(q & -> & Hq & _)| ->]%ensure_15_elem.
  - split; [by apply kept_normalize | apply normalize_idem].
  - split; [done | by vm_compute].
Qed.

Lemma ensure_15_fixed qs :
  length qs = 15%nat → Forall settled qs → _ensure_15 qs = qs.
Proof.
  intros Hlen Hqs. rewrite ensure_15_eq.
  rewrite filter_Forall_id by (eapply Forall_impl; [done | by intros ? []]).
  rewrite Hlen. simpl replicate. rewrite app_nil_r.
  rewrite take_ge by (rewrite length_fmap; lia).
  rewrite <- (list_fmap_id qs) at 2. apply Forall_fmap_ext.
  eapply Forall_impl; [done | by intros ? []].
Qed.

End Ensure15.

(** C1. For every list of strings [qs], [_ensure_15 qs] has exactly 15
    entries: the kept entries (those that are not empty once stripped),
    each white-space normalized (its words joined by single spaces), in
    their original order and cut after the fifteenth, followed by as many
    copies of the fixed fallback question as are needed to reach 15.  If
    every kept entry of [qs] ends with '?', every entry of the result ends
    with '?'. *)
Theorem ensure_15_spec (qs : list Py.str) :
  length (_ensure_15 qs) = 15%nat ∧
  _ensure_15 qs =
    take 15 (normalize <$> filter kept qs)
    ++ replicate (15 - length (filter kept qs)) FALLBACK_QUESTION ∧
  (∀ q, (kept q ↔ Py.split_ws q ≠ []) ∧
        normalize q = Py.join Py.SPACE (Py.split_ws q)) ∧
  ((∀ q, q ∈ qs → kept q → Py.endswith q [QMARK] = true) →
   ∀ r, r ∈ _ensure_15 qs → Py.endswith r [QMARK] = true).
Proof.
  split; [apply ensure_15_length|].
  split; [apply ensure_15_eq|].
  split; [intros q; split; [apply kept_iff_words | apply normalize_eq_words]|].
  intros Hqs r [(q & -> & Hq & Hin)| ->]%ensure_15_elem.
  - apply normalize_endswith. by apply Hqs.
  - by vm_compute.
Qed.

Lemma ensure_15_spec_witness :
  Forall (λ r, Py.endswith r [QMARK] = true)
         (_ensure_15 [Py.lit "  Why   now?"; Py.lit "   "; Py.lit "Who?"]).
Proof.
  apply Forall_forall.
  apply (proj2 (proj2 (proj2
    (ensure_15_spec [Py.lit "  Why   now?"; Py.lit "   "; Py.lit "Who?"])))).
  intros q Hq Hkept.
  apply elem_of_cons in Hq as [->|Hq]; [reflexivity|].
  apply elem_of_cons in Hq as [->|Hq]; [discriminate Hkept|].
  apply list_elem_of_singleton in Hq as ->. reflexivity.
Defined.

(** C10. [_ensure_15] is idempotent: its result has 15 entries, each kept
    and already normalized, so a second application changes nothing. *)
Theorem ensure_15_idempotent (qs : list Py.str) :
  _ensure_15 (_ensure_15 qs) = _ensure_15 qs.
Proof.
  apply ensure_15_fixed; [apply ensure_15_length | apply ensure_15_settled].
Qed.

(** ** The matcher *)

Section ReFacts.
Import Py.
Implicit Types (s w bef aft : str) (c : char) (p : char → bool).

(** What a successful greedy repetition has read. *)
Lemma star_sound {A} p bef aft (k : str → str → option A) a :
  Re.star p bef aft k = Some a →
  ∃ w rest, aft = w ++ rest ∧ forallb p w = true ∧
            k (rev w ++ bef) rest = Some a.
Proof.
  revert bef. induction aft as [|c aft IH]; intros bef H; simpl in H.
  - by exists [], [].
  - destruct (p c) eqn:Hc; [|by exists [], (c :: aft)].
    destruct (Re.star p (c :: bef) aft k) as [a'|] eqn:E.
    + injection H as ->. apply IH in E as (w & rest & -> & Hw & Hk).
      exists (c :: w), rest. simpl. rewrite Hc, Hw.
      rewrite <- app_assoc. by simpl.
    + by exists [], (c :: aft).
Qed.

Lemma consumed_app bef w : Re.consumed bef (rev w ++ bef) = w.
Proof.
  unfold Re.consumed. rewrite length_app, length_rev.
  replace (length w + length bef - length bef)%nat with (length (rev w))
    by (rewrite length_rev; lia).
  by rewrite take_app_length, rev_involutive.
Qed.

Lemma consumed_app_cons bef c w :
  Re.consumed bef (rev w ++ c :: bef) = c :: w.
Proof.
  rewrite <- (consumed_app bef (c :: w)). simpl.
  by rewrite <- app_assoc.
Qed.

Lemma strip_head_not_space s c y : strip s = c :: y → isspace c = false.
Proof.
  unfold strip, strip_by. rewrite <- lstrip_rstrip_comm.
  generalize (rstrip_by isspace s). intros t.
  induction t as [|a t IH]; simpl; [done|].
  destruct (isspace a) eqn:Ha; [done|]. by intros [= <- _].
Qed.

Lemma strip_last_not_space s c y : strip s = y ++ [c] → isspace c = false.
Proof.
  unfold strip, strip_by, rstrip_by.
  generalize (rev (lstrip_by isspace s)). intros t E.
  apply (f_equal (@rev _)) in E.
  rewrite rev_involutive, rev_app_distr in E. simpl in E.
  induction t as [|a t IH]; simpl in E; [done|].
  destruct (isspace a) eqn:Ha; [by apply IH|]. by injection E as <- _.
Qed.

(** Every string is a run of the class followed by a rest that the run
    cannot enter. *)
Lemma span_run p s :
  ∃ w rest, s = w ++ rest ∧ forallb p w = true ∧ stops p rest.
Proof.
  induction s as [|c s (w & rest & -> & Hw & Hrest)].
  - by exists [], [].
  - destruct (p c) eqn:Hc.
    + exists (c :: w), rest. simpl. by rewrite Hc, Hw.
    + by exists [], (c :: w ++ rest).
Qed.

End ReFacts.

(** ** [parse_numbered_questions] *)

Section LineFacts.
Import Py.
Implicit Types (s w x bef aft rest body : str) (c : char) (p : char → bool).

(** A line that the first pattern matches is a numbered line, and group
    2 is its body. *)
Lemma match_numbered_sound line m :
  Re.match_ NUMBERED_LINE (strip line) = Some m →
  numbered_line (strip line) (Re.group m 2).
Proof.
  intros H. unfold Re.match_, Re.match_at, NUMBERED_LINE, Re.cat in H.
  cbn [foldr Re.run] in H.
  apply star_sound in H as (w0 & r0 & Hs & Hw0 & H).
  destruct r0 as [|d r0]; [done|]. destruct (isdecimal d) eqn:Hd; [|done].
  apply star_sound in H as (ds & r1 & -> & Hds & H).
  destruct r1 as [|p r1]; [done|]. destruct (dot_or_paren p) eqn:Hp; [|done].
  destruct r1 as [|c1 r1]; [done|]. destruct (isspace c1) eqn:Hc1; [|done].
  apply star_sound in H as (w & r2 & -> & Hw & H).
  apply star_sound in H as (body & r3 & -> & Hbody & H).
  destruct r3 as [|q r3]; [done|]. destruct (Re.chr QMARK q) eqn:Hq; [|done].
  apply N.eqb_eq in Hq as ->.
  assert (w0 = []) as ->.
  { destruct w0 as [|a w0]; [done|]. simpl in Hw0.
    apply strip_head_not_space in Hs. by rewrite Hs in Hw0. }
  assert (r3 = []) as ->.
  { destruct r3 as [|c3 [|]]; [done| |done].
    destruct (c3 =? 10) eqn:E; [|done]. apply N.eqb_eq in E as ->.
    exfalso. simpl in Hs.
    change (d :: ds ++ p :: c1 :: w ++ body ++ [QMARK; 10])
      with ((d :: ds) ++ [p] ++ (c1 :: w) ++ body ++ [QMARK] ++ [10]) in Hs.
    rewrite !app_assoc in Hs. by apply strip_last_not_space in Hs. }
  injection H as <-. unfold Re.group. simpl.
  rewrite lookup_insert_eq. simpl. rewrite consumed_app.
  exists (d :: ds), p, (c1 :: w). simpl in *. rewrite Hd, Hds, Hc1, Hw.
  by rewrite Hs.
Qed.

Lemma match_bulleted_sound line m :
  Re.match_ BULLETED_LINE (strip line) = Some m →
  bulleted_line (strip line) (Re.group m 1).
Proof.
  intros H. unfold Re.match_, Re.match_at, BULLETED_LINE, Re.cat in H.
  cbn [foldr Re.run] in H.
  destruct (strip line) as [|b r0] eqn:Hs; [done|].
  destruct (bullet b) eqn:Hb; [|done].
  destruct r0 as [|c1 r1]; [done|]. destruct (isspace c1) eqn:Hc1; [|done].
  apply star_sound in H as (w & r2 & -> & Hw & H).
  apply star_sound in H as (body & r3 & -> & Hbody & H).
  destruct r3 as [|q r3]; [done|]. destruct (Re.chr QMARK q) eqn:Hq; [|done].
  apply N.eqb_eq in Hq as ->.
  assert (r3 = []) as ->.
  { destruct r3 as [|c3 [|]]; [done| |done].
    destruct (c3 =? 10) eqn:E; [|done]. apply N.eqb_eq in E as ->.
    exfalso.
    change (b :: c1 :: w ++ body ++ [QMARK; 10])
      with ([b] ++ (c1 :: w) ++ body ++ [QMARK] ++ [10]) in Hs.
    rewrite !app_assoc in Hs. by apply strip_last_not_space in Hs. }
  injection H as <-. unfold Re.group. simpl.
  rewrite lookup_insert_eq. simpl. rewrite consumed_app.
  exists b, (c1 :: w). simpl in *. by rewrite Hc1, Hw.
Qed.

(** Where an entry of the first loop comes from. *)
Lemma line_question_sound line raw :
  line_question line = Some raw →
  ∃ body, raw = strip body ++ [QMARK] ∧
          (numbered_line (strip line) body ∨ bulleted_line (strip line) body).
Proof.
  unfold line_question.
  destruct (Re.match_ NUMBERED_LINE (strip line)) as [m|] eqn:E1.
  - intros [= <-]. exists (Re.group m 2). split; [done|].
    left. by apply match_numbered_sound.
  - destruct (Re.match_ BULLETED_LINE (strip line)) as [m|] eqn:E2; [|done].
    intros [= <-]. exists (Re.group m 1). split; [done|].
    right. by apply match_bulleted_sound.
Qed.

(** A greedy repetition stops at the end of the run when the rest of the
    pattern matches there. *)
Lemma star_first {A} p bef w rest (k : str → str → option A) a :
  forallb p w = true → stops p rest →
  k (rev w ++ bef) rest = Some a →
  Re.star p bef (w ++ rest) k = Some a.
Proof.
  revert bef. induction w as [|c w IH]; intros bef Hw Hrest Hk; simpl in *.
  - destruct rest as [|c rest]; [done|]. simpl in *. by rewrite Hrest, Hk.
  - apply andb_true_iff in Hw as [-> Hw].
    rewrite (IH (c :: bef)); [done..|]. by rewrite <- app_assoc in Hk.
Qed.

(** A greedy repetition that has run to the end of the text gives its
    last character back when the rest of the pattern needs it. *)
Lemma star_last {A} p bef x c (k : str → str → option A) a :
  forallb p x = true → p c = true →
  k (c :: rev x ++ bef) [] = None →
  k (rev x ++ bef) [c] = Some a →
  Re.star p bef (x ++ [c]) k = Some a.
Proof.
  revert bef. induction x as [|y x IH]; intros bef Hx Hc Hnone Hk; simpl in *.
  - by rewrite Hc, Hnone.
  - apply andb_true_iff in Hx as [-> Hx].
    rewrite (IH (y :: bef)); [done..| |]; by rewrite <- app_assoc in *.
Qed.

Lemma lstrip_app_space w s :
  forallb isspace w = true → lstrip (w ++ s) = lstrip s.
Proof.
  induction w as [|c w IH]; simpl; [done|].
  intros [Hc Hw]%andb_true_iff. unfold lstrip in *. simpl. rewrite Hc. auto.
Qed.

Lemma strip_app_space w s :
  forallb isspace w = true → strip (w ++ s) = strip s.
Proof.
  intros Hw. unfold strip, strip_by. fold lstrip.
  by rewrite lstrip_app_space.
Qed.

(** The white space before a text that ends with a question mark. *)
Lemma span_space_question y :
  ∃ wm x, y ++ [QMARK] = wm ++ x ++ [QMARK] ∧
          forallb isspace wm = true ∧ stops isspace (x ++ [QMARK]).
Proof.
  destruct (span_run isspace (y ++ [QMARK])) as (wm & rest & E & Hwm & Hrest).
  destruct rest as [|r0 rest _] using rev_ind.
  - rewrite app_nil_r in E. subst wm.
    rewrite forallb_app in Hwm. simpl in Hwm.
    by apply andb_true_iff in Hwm as [_ ?].
  - rewrite app_assoc in E. apply app_inj_tail in E as [-> <-].
    exists wm, rest. by rewrite <- app_assoc.
Qed.

(** The second half of both line patterns, from the white space on:
    the group is the body without the white space before it. *)
Lemma run_tail {A} n bef c1 w body g0 (f : str → str → gmap nat str → A) :
  isspace c1 = true → forallb isspace w = true →
  forallb Re.dot (w ++ body ++ [QMARK]) = true →
  ∃ x b1,
    strip x = strip body ∧
    Re.run (Re.cat [Re.Plus isspace; Re.Group n (Re.Star Re.dot);
                    Re.Class (Re.chr QMARK); Re.Eol])
           bef (c1 :: w ++ body ++ [QMARK]) g0 (λ b a g, Some (f b a g))
    = Some (f (QMARK :: b1) [] (<[n := x]> g0)).
Proof.
  intros Hc1 Hw Hdot.
  destruct (span_space_question (w ++ body)) as (wm & x & E & Hwm & Hstop).
  rewrite <- app_assoc in E.
  exists x, (rev x ++ rev wm ++ c1 :: bef). split.
  - apply app_inv_tail with (l := [QMARK]).
    assert (w ++ body = wm ++ x) as E'.
    { apply (app_inv_tail [QMARK]). by rewrite <- !app_assoc. }
    f_equal. by rewrite <- (strip_app_space wm x), <- E', strip_app_space.
  - cbn [Re.cat foldr Re.run]. rewrite Hc1, E.
    rewrite E in Hdot. rewrite !forallb_app in Hdot.
    apply andb_true_iff in Hdot as [_ [Hx _]%andb_true_iff].
    apply star_first; [done..|].
    apply star_last; [done..| |]; simpl.
    + done.
    + by rewrite consumed_app.
Qed.

Lemma match_numbered_complete line body :
  numbered_line (strip line) body → forallb Re.dot (strip line) = true →
  ∃ m, Re.match_ NUMBERED_LINE (strip line) = Some m ∧
       strip (Re.group m 2) = strip body.
Proof.
  intros (ds & p & w & Hs & Hds0 & Hds & Hp & Hw0 & Hw) Hdot.
  destruct ds as [|d ds]; [done|]. destruct w as [|c1 w]; [done|].
  simpl in Hds, Hw.
  apply andb_true_iff in Hds as [Hd Hds]. apply andb_true_iff in Hw as [Hc1 Hw].
  assert (isspace d = false) as Hd' by (by apply strip_head_not_space in Hs).
  assert (isdecimal p = false) as Hp'.
  { unfold dot_or_paren in Hp.
    apply orb_true_iff in Hp as [->%N.eqb_eq| ->%N.eqb_eq]; by vm_compute. }
  rewrite Hs in Hdot |- *. simpl in Hdot |- *.
  apply andb_true_iff in Hdot as [_ Hdot]. rewrite forallb_app in Hdot.
  apply andb_true_iff in Hdot as [_ Hdot]. simpl in Hdot.
  apply andb_true_iff in Hdot as [_ [_ Hdot]%andb_true_iff].
  destruct (run_tail 2 (p :: rev ds ++ [d]) c1 w body
              (<[1%nat := d :: ds]> ∅)
              (λ b a g, {| Re.groups := g; Re.rest := a; Re.upto := b |})
              Hc1 Hw Hdot)
    as (x & b1 & Hx & Htail).
  eexists. split.
  - unfold Re.match_, Re.match_at, NUMBERED_LINE.
    cbn [Re.cat foldr Re.run Re.star]. rewrite Hd', Hd.
    eapply star_first; [done|by simpl|].
    cbn beta iota. rewrite Hp. rewrite consumed_app_cons.
    exact Htail.
  - unfold Re.group. simpl. by rewrite lookup_insert_eq.
Qed.

Lemma match_bulleted_complete line body :
  bulleted_line (strip line) body → forallb Re.dot (strip line) = true →
  ∃ m, Re.match_ BULLETED_LINE (strip line) = Some m ∧
       strip (Re.group m 1) = strip body.
Proof.
  intros (b & w & Hs & Hb & Hw0 & Hw) Hdot.
  destruct w as [|c1 w]; [done|]. simpl in Hw.
  apply andb_true_iff in Hw as [Hc1 Hw].
  rewrite Hs in Hdot |- *. simpl in Hdot |- *.
  apply andb_true_iff in Hdot as [_ [_ Hdot]%andb_true_iff].
  destruct (run_tail 1 [b] c1 w body ∅
              (λ b a g, {| Re.groups := g; Re.rest := a; Re.upto := b |})
              Hc1 Hw Hdot)
    as (x & b1 & Hx & Htail).
  eexists. split.
  - unfold Re.match_, Re.match_at, BULLETED_LINE.
    cbn [Re.cat foldr Re.run]. rewrite Hb. exact Htail.
  - unfold Re.group. simpl. by rewrite lookup_insert_eq.
Qed.

(** A numbered line is not a bulleted line. *)
Lemma bulleted_not_numbered line body m :
  bulleted_line (strip line) body →
  Re.match_ NUMBERED_LINE (strip line) = Some m → False.
Proof.
  intros (b & w & Hs & Hb & _) (ds & p & w' & Hs' & Hne & Hds & _)%match_numbered_sound.
  destruct ds as [|d ds]; [done|]. rewrite Hs in Hs'. simpl in Hs', Hds.
  injection Hs' as <- _. apply andb_true_iff in Hds as [Hd _].
  unfold bullet in Hb.
  apply orb_true_iff in Hb as [[->%N.eqb_eq| ->%N.eqb_eq]%orb_true_iff| ->%N.eqb_eq];
    by vm_compute in Hd.
Qed.

(** Every numbered or bulleted line without a line feed gives its body. *)
Lemma line_question_complete line body :
  numbered_line (strip line) body ∨ bulleted_line (strip line) body →
  forallb Re.dot (strip line) = true →
  line_question line = Some (strip body ++ [QMARK]).
Proof.
  intros [H|H] Hdot; unfold line_question.
  - destruct (match_numbered_complete line body H Hdot) as (m & -> & ->).
    done.
  - destruct (Re.match_ NUMBERED_LINE (strip line)) as [m|] eqn:E.
    + by destruct (bulleted_not_numbered line body m).
    + destruct (match_bulleted_complete line body H Hdot) as (m & -> & ->).
      done.
Qed.

(** No line of [splitlines] holds a line feed, and stripping keeps that. *)
Lemma splitlines_from_dot s :
  ∀ after_cr cur line,
    forallb Re.dot cur = true → line ∈ splitlines_from after_cr cur s →
    forallb Re.dot line = true.
Proof.
  assert (∀ cur, forallb Re.dot cur = true → forallb Re.dot (rev cur) = true)
    as Hrev.
  { intros cur H. rewrite forallb_forall in *. intros c Hc. apply H.
    by apply in_rev. }
  induction s as [|c s IH]; intros after_cr cur line Hcur Hline; simpl in Hline.
  - destruct cur; [by apply elem_of_nil in Hline|].
    apply list_elem_of_singleton in Hline as ->. by apply Hrev.
  - destruct (after_cr && (c =? 10)); [by apply (IH false cur)|].
    destruct (islinebreak c) eqn:Hc.
    + apply elem_of_cons in Hline as [->|Hline]; [by apply Hrev|].
      by apply (IH (c =? 13) []).
    + apply (IH false (c :: cur)); [|done]. simpl. rewrite Hcur, andb_true_r.
      unfold Re.dot. by destruct (N.eqb_spec c 10) as [->|].
Qed.

Lemma lstrip_by_forallb p q s :
  forallb q s = true → forallb q (lstrip_by p s) = true.
Proof.
  induction s as [|c s IH]; simpl; [done|].
  intros [Hc Hs]%andb_true_iff. destruct (p c); [by apply IH|].
  simpl. by rewrite Hc, Hs.
Qed.

Lemma strip_forallb q s : forallb q s = true → forallb q (strip s) = true.
Proof.
  assert (∀ t, forallb q t = true → forallb q (rev t) = true) as Hrev.
  { intros t H. rewrite forallb_forall in *. intros c Hc. apply H.
    by apply in_rev. }
  intros H. unfold strip, strip_by, rstrip_by.
  by apply Hrev, lstrip_by_forallb, Hrev, lstrip_by_forallb.
Qed.

(** What a line of the text adds to [out], both ways. *)
Lemma line_question_iff text line raw :
  line ∈ splitlines text →
  line_question line = Some raw ↔
  ∃ body, raw = strip body ++ [QMARK] ∧
          (numbered_line (strip line) body ∨ bulleted_line (strip line) body).
Proof.
  intros Hline. split; [apply line_question_sound|].
  intros (body & -> & Hshape). apply line_question_complete; [done|].
  by apply strip_forallb, (splitlines_from_dot text false [] line).
Qed.

End LineFacts.

Section ParseFacts.
Import Py.
Variable lower : str → str.
Implicit Types (q raw text : str) (l clean : list str) (seen : gset str).

Lemma tidy_endswith q : endswith (tidy q) [QMARK] = true.
Proof.
  unfold tidy.
  set (t := rstrip (strip_by (one_of QUOTES) (strip (sub_ws q)))).
  destruct (endswith t [QMARK]) eqn:E; [done|].
  apply endswith_qmark_iff. eauto.
Qed.

Lemma clean_loop_length l st :
  (length (foldl (clean_step lower) st l).1 ≤ length st.1 + length l)%nat.
Proof.
  revert st. induction l as [|q l IH]; intros st; simpl; [lia|].
  etrans; [apply IH|]. unfold clean_step.
  case_decide; simpl; [lia|]. rewrite length_app. simpl. lia.
Qed.

(** What holds for the entries at the start and for the tidied form of
    every item holds for the entries at the end. *)
Lemma clean_loop_Forall (P : str → Prop) l st :
  Forall P st.1 → Forall (λ q0, P (tidy q0)) l →
  Forall P (foldl (clean_step lower) st l).1.
Proof.
  revert st. induction l as [|q l IH]; intros st Hst Hl; simpl; [done|].
  apply Forall_cons in Hl as [Hq Hl]. apply IH; [|done].
  unfold clean_step. case_decide; simpl; [done|].
  apply Forall_app. split; [done|]. by constructor.
Qed.

(** [seen] holds the lower-case form of every entry, so that no two
    entries have the same. *)
Lemma clean_loop_NoDup l st :
  (∀ q, q ∈ st.1 → lower q ∈ st.2) → NoDup (lower <$> st.1) →
  NoDup (lower <$> (foldl (clean_step lower) st l).1).
Proof.
  revert st. induction l as [|q0 l IH]; intros st Hseen Hnd; simpl; [done|].
  apply IH; unfold clean_step; case_decide as Hin; simpl; try done.
  - intros q [Hq| ->%list_elem_of_singleton]%elem_of_app.
    + apply elem_of_union. right. by apply Hseen.
    + apply elem_of_union. left. by apply elem_of_singleton.
  - rewrite fmap_app. apply NoDup_app. split; [done|].
    split; [|apply NoDup_singleton].
    intros x Hx ->%list_elem_of_singleton.
    apply list_elem_of_fmap in Hx as (q & Hq & Hin').
    apply Hin. rewrite Hq. by apply Hseen.
Qed.

Lemma slice_to_length {A} (n : Z) (l : list A) :
  (0 ≤ n)%Z → (Z.of_nat (length (slice_to n l)) ≤ n)%Z.
Proof.
  intros Hn. unfold slice_to.
  destruct (Z.ltb_spec n 0); [lia|]. rewrite length_take. lia.
Qed.

Lemma slice_to_subseteq {A} (n : Z) (l : list A) : slice_to n l ⊆ l.
Proof. unfold slice_to. destruct (n <? 0)%Z; apply subseteq_take. Qed.

(** Every entry of [out] comes from a numbered or bulleted line or,
    when there is no such entry, from the split. *)
Lemma raw_questions_origin text raw :
  raw ∈ raw_questions text → from_line text raw ∨ from_chunk text raw.
Proof.
  unfold raw_questions.
  destruct (omap line_question (splitlines (or_else text []))) as [|r0 out] eqn:E.
  - intros (c & Hc & Hq)%list_elem_of_omap. right. split.
      + intros line body Hline.
    assert (line_question line = None) as Hnone.
    { destruct (line_question line) as [r|] eqn:El; [|done].
      assert (r ∈ omap line_question (splitlines (or_else text []))) as Hr
        by (apply list_elem_of_omap; eauto).
      rewrite E in Hr. by apply elem_of_nil in Hr. }
    split; intros Hshape;
      assert (line_question line = Some (strip body ++ [QMARK])) as Hsome
        by (apply (line_question_iff (or_else text [])); eauto);
      congruence.
    + exists c. split; [done|]. unfold chunk_question in Hq.
      destruct (endswith (strip c) [QMARK]) eqn:Ee; [|done].
      by injection Hq as <-.
  - rewrite <- E. intros (line & Hline & Hq)%list_elem_of_omap. left.
    apply line_question_sound in Hq as (body & -> & Hshape).
    by exists line, body.
Qed.

End ParseFacts.

(** C2, as the code has it.  For every text and every bound [N] that is
    not negative, [parse_numbered_questions text N] returns at most [N]
    questions; for every [N], each of them ends with '?' and no two of
    them are equal ignoring case (they have different lower-case forms).
    Each is the tidied form of an entry that comes from a line that is
    numbered or bulleted and ends with '?' or, when the text has no line
    that gives an entry, from a part of the text between two number marks
    that ends with '?'. *)
Theorem parse_numbered_questions_spec
    (lower : Py.str → Py.str) (text : Py.str) (N : Z) :
  let qs := parse_numbered_questions lower text N in
  ((0 ≤ N)%Z → (Z.of_nat (length qs) ≤ N)%Z) ∧
  Forall (λ q, Py.endswith q [QMARK] = true) qs ∧
  NoDup (lower <$> qs) ∧
  Forall (λ q, ∃ raw, q = tidy raw ∧
                      (from_line text raw ∨ from_chunk text raw)) qs.
Proof.
  unfold parse_numbered_questions. repeat split.
  - intros HN. etrans; [|by apply (slice_to_length N (raw_questions text))].
    pose proof (clean_loop_length lower
                  (Py.slice_to N (raw_questions text)) ([], ∅)) as H.
    simpl in H. lia.
  - apply clean_loop_Forall; [done|].
    apply Forall_forall. intros q _. apply tidy_endswith.
  - apply clean_loop_NoDup; simpl; [|constructor].
    intros q Hq. by apply elem_of_nil in Hq.
  - apply clean_loop_Forall; [done|].
    apply Forall_forall. intros raw Hraw. exists raw. split; [done|].
    by apply raw_questions_origin, (slice_to_subseteq N).
Qed.

Lemma parse_numbered_questions_spec_witness :
  (Z.of_nat (length (parse_numbered_questions Py.ascii_lower
                       (Py.lit "1. What is it?") 15)) ≤ 15)%Z.
Proof.
  apply (proj1 (parse_numbered_questions_spec Py.ascii_lower
                  (Py.lit "1. What is it?") 15)).
  lia.
Defined.

(** A text without any numbered or bulleted line still gives a question,
    and a negative bound does not bound the result. *)
Lemma parse_numbered_questions_counterexample :
  parse_numbered_questions Py.ascii_lower (Py.lit "Is this a question?") 15
    = [Py.lit "Is this a question?"] ∧
  (∀ line body,
     line ∈ Py.splitlines (Py.lit "Is this a question?") →
     ¬ numbered_line (Py.strip line) body ∧
     ¬ bulleted_line (Py.strip line) body) ∧
  (-1 < Z.of_nat (length (parse_numbered_questions Py.ascii_lower
                            (Py.lit "1. A?" ++ [0x0A%N] ++ Py.lit "2. B?")
                            (-1)%Z)))%Z.
Proof.
  split; [by vm_compute|]. split; [|by vm_compute].
  intros line body Hline.
  assert (Py.strip line = Py.lit "Is this a question?") as ->.
  { vm_compute in Hline. apply list_elem_of_singleton in Hline as ->.
    by vm_compute. }
  split.
  - intros (ds & p & w & Hs & Hne & Hds & _).
    destruct ds as [|d ds]; [done|]. simpl in Hs, Hds.
    injection Hs as <- _. by vm_compute in Hds.
  - intros (b & w & Hs & Hb & _). simpl in Hs.
    injection Hs as <- _. by vm_compute in Hb.
Qed.

(** ** [version_tuple] *)

Section VersionFacts.
Import Py.
Implicit Types (s w bef aft rest : str) (c : char) (p : char → bool).

(** A greedy repetition whose continuation always succeeds takes the
    whole run. *)
Lemma star_max {A} p bef w rest (f : str → str → A) :
  forallb p w = true → stops p rest →
  Re.star p bef (w ++ rest) (λ b a, Some (f b a)) = Some (f (rev w ++ bef) rest).
Proof.
  revert bef. induction w as [|c w IH]; intros bef Hw Hrest; simpl in *.
  - destruct rest as [|c rest]; [done|]. simpl in *. by rewrite Hrest.
  - apply andb_true_iff in Hw as [-> Hw].
    rewrite IH by done. by rewrite <- app_assoc.
Qed.

Lemma findall_skip r w bef rest :
  Re.findall_from r (length w) bef (w ++ rest)
  = Re.findall_from r 0 (rev w ++ bef) rest.
Proof.
  revert bef. induction w as [|c w IH]; intros bef; simpl.
  - by destruct rest.
  - rewrite IH. by rewrite <- app_assoc.
Qed.



Lemma int_short x :
  (length x ≤ MAX_STR_DIGITS)%nat → int x = Return (int_of_digits x).
Proof.
  intros H. unfold int. by destruct (Nat.ltb_spec MAX_STR_DIGITS (length x)); [lia|].
Qed.


(** The comprehension returns the values when no string is too long,
    and raises for the first that is. *)
Lemma ints_short (xs : list str) :
  Forall (λ x, (length x ≤ MAX_STR_DIGITS)%nat) xs →
  ints xs = Return (int_of_digits <$> xs).
Proof.
  induction xs as [|x xs IH]; intros H; [done|].
  apply Forall_cons in H as [Hx Hxs]. cbn [ints].
  by rewrite int_short, IH.
Qed.




(** The order on tuples. *)
Lemma tuple_lt_irrefl a : tuple_lt a a = false.
Proof. induction a as [|x a IH]; [done|]. simpl. by rewrite N.eqb_refl. Qed.



Lemma tuple_le_not_gt a b : tuple_le a b = negb (tuple_gt a b).
Proof.
  unfold tuple_gt. revert b.
  induction a as [|x a IH]; intros [|y b]; simpl; try done.
  destruct (N.eqb_spec x y) as [->|Hxy].
  - rewrite N.eqb_refl. apply IH.
  - destruct (N.eqb_spec y x) as [->|_]; [done|].
    destruct (N.ltb_spec x y), (N.ltb_spec y x); simpl; try done; lia.
Qed.

End VersionFacts.

(** ** The updater *)

(** Membership in an explicit list of events, case by case. *)
Ltac elem_cases H :=
  repeat (let E := fresh "E" in
          apply elem_of_cons in H as [E|H];
          [try discriminate E; try (injection E as ?; subst)|]);
  try (by apply elem_of_nil in H).

Section UpdaterFacts.
Import Py Updater.
Local Arguments version_tuple : simpl never.
Local Arguments compare_versions : simpl never.
Local Arguments tuple_gt : simpl never.
Local Arguments tuple_le : simpl never.

Lemma app_version_tuple : version_tuple APP_VERSION = Return [0; 23].
Proof. by vm_compute. Qed.

Lemma compare_versions_eq cmp latest :
  compare_versions cmp latest =
  match version_tuple latest with
  | Raise e => Raise e
  | Return a => Return (cmp a [0; 23])
  end.
Proof. unfold compare_versions. by rewrite app_version_tuple. Qed.

Lemma newer_iff m :
  newer m = true ↔
  ∃ a, version_tuple (latest_of m) = Return a ∧ tuple_gt a [0; 23] = true.
Proof.
  unfold newer. rewrite compare_versions_eq.
  destruct (version_tuple (latest_of m)) as [a|e].
  - split; [by eauto|]. by intros (a' & [= <-] & ?).
  - split; [done|]. by intros (a' & [=] & _).
Qed.







(** While the flag is set, [check_for_updates] only shows a message. *)
Lemma check_guarded pane f accepted g :
  UPDATE_IN_PROGRESS g = true →
  check_for_updates pane f accepted g =
  {| returned := false; globals_after := g;
     events := [Information (lit "Update")
                  (lit "An update is already in progress. Please wait for it to complete.")];
     started := None |}.
Proof. intros Hg. unfold check_for_updates. by rewrite Hg. Qed.

(** The flag is set when the user accepts the update. *)
Lemma check_accepted pane m g :
  UPDATE_IN_PROGRESS g = false → newer m = true →
  let r := check_for_updates pane (Fetched m) true g in
  returned r = true ∧ UPDATE_IN_PROGRESS (globals_after r) = true ∧
  started r = Some {| dl_url := m_url m; dl_sha := m_sha256 m |}.
Proof.
  intros Hg (a & Ha & Hgt)%newer_iff. unfold check_for_updates.
  rewrite Hg, compare_versions_eq, Ha, tuple_le_not_gt, Hgt.
  by simpl.
Qed.

(** The callbacks of the download leave the flag as it is when the
    download fails or the digest differs. *)
Lemma on_err_keeps_flag msg g : (on_err msg g).1 = g.
Proof. done. Qed.

Lemma on_done_mismatch_keeps_flag lower sha256_of_file exe replace_ends d path g :
  truthy (default [] (dl_sha d)) = true →
  lower (sha256_of_file path) ≠ lower (default [] (dl_sha d)) →
  (on_done lower sha256_of_file exe replace_ends d path g).1 = g.
Proof.
  intros Hsha Hne. unfold on_done, on_done_body. rewrite Hsha.
  by rewrite bool_decide_eq_false_2.
Qed.

End UpdaterFacts.




(** C4, as the code has it.  When the manifest supplies a sha256 value
    that is not empty, [on_done] compares the SHA-256 digest of the
    downloaded file with it, both in lower case.
    [begin_update_replace] is then called only if they agree; if they
    differ, the progress dialog is closed, the error dialog of the
    mismatch is shown, and nothing else happens.  When the sha256
    value is absent or empty, nothing is compared, and
    [begin_update_replace] is called whatever the digest of the
    file. *)
Theorem sha256_gate
    (lower sha256_of_file : Py.str → Py.str) (exe : Py.str)
    (replace_ends : Py.str → Py.str → Updater.replace_outcome)
    (d : Updater.download) (path : Py.str) (g : Updater.globals) :
  let r := Updater.on_done lower sha256_of_file exe replace_ends d path g in
  (∀ sha, Updater.dl_sha d = Some sha → sha ≠ [] →
     (lower (sha256_of_file path) = lower sha →
      Updater.BeginUpdateReplace path exe ∈ r.2) ∧
     (lower (sha256_of_file path) ≠ lower sha →
      r = (g, [Updater.CloseProgress;
               Updater.Critical (Py.lit "Updater")
                 (Py.lit "SHA-256 mismatch. Update aborted.")])) ∧
     (∀ a b, Updater.BeginUpdateReplace a b ∈ r.2 →
             lower (sha256_of_file path) = lower sha)) ∧
  (Updater.dl_sha d = None ∨ Updater.dl_sha d = Some [] →
   Updater.BeginUpdateReplace path exe ∈ r.2) ∧
  (∀ pane m accepted g0 d0,
     Updater.started
       (Updater.check_for_updates pane (Updater.Fetched m) accepted g0) = Some d0 →
     Updater.dl_sha d0 = Updater.m_sha256 m).
Proof.
  intros r. subst r.
  split; [|split].
  3: { intros pane m accepted g0 d0. unfold Updater.check_for_updates.
    destruct (Updater.UPDATE_IN_PROGRESS g0); [done|].
    destruct (Updater.compare_versions tuple_le (Updater.latest_of m))
      as [[|]|e]; try done.
    destruct accepted; simpl; [|done]. by intros [= <-]. }
  all: unfold Updater.on_done, Updater.on_done_body.
  all: assert (∀ g', Updater.BeginUpdateReplace path exe
                ∈ [Updater.CloseProgress;
                   Updater.Information (Py.lit "Updater")
                     (Py.lit "Update downloaded. The app will exit to finalize.")]
                  ++ (Updater.begin_update_replace replace_ends path exe g').2)
    as Hbegin
    by (intros g'; unfold Updater.begin_update_replace;
        destruct (replace_ends path exe); simpl;
        do 2 apply list_elem_of_further; apply list_elem_of_here).
  - intros sha Hd Hsha. rewrite Hd. simpl.
    assert (Py.truthy sha = true) as -> by (by destruct sha). simpl.
    destruct (decide (lower (sha256_of_file path) = lower sha)) as [Heq|Hne].
    + rewrite bool_decide_eq_true_2 by done. simpl.
      split; [|split]; [|by intros ?|by intros].
      intros _. specialize (Hbegin g).
      by destruct (Updater.begin_update_replace replace_ends path exe g).
    + rewrite bool_decide_eq_false_2 by done. simpl.
      split; [by intros ?|]. split; [done|]. intros a b H. elem_cases H.
  - intros Hd. specialize (Hbegin g).
    assert (Py.truthy (default [] (Updater.dl_sha d)) = false) as ->
      by (by destruct Hd as [-> | ->]).
    simpl. by destruct (Updater.begin_update_replace replace_ends path exe g).
Qed.

Lemma sha256_gate_witness :
  Updater.BeginUpdateReplace (Py.lit "/tmp/upd_1.bin") (Py.lit "app.exe")
  ∈ (Updater.on_done Py.ascii_lower (λ _, Py.lit "ab12") (Py.lit "app.exe")
       (λ _ _, Updater.Replaced)
       {| Updater.dl_url := None; Updater.dl_sha := Some (Py.lit "AB12") |}
       (Py.lit "/tmp/upd_1.bin") {| Updater.UPDATE_IN_PROGRESS := true |}).2.
Proof.
  apply (proj1 (proj1 (sha256_gate Py.ascii_lower (λ _, Py.lit "ab12")
                         (Py.lit "app.exe") (λ _ _, Updater.Replaced)
                         {| Updater.dl_url := None;
                            Updater.dl_sha := Some (Py.lit "AB12") |}
                         (Py.lit "/tmp/upd_1.bin")
                         {| Updater.UPDATE_IN_PROGRESS := true |})
                  (Py.lit "AB12") eq_refl ltac:(discriminate))).
  reflexivity.
Defined.

(** Where the claim fails.  The manifest supplies a sha256 field, the
    empty string; the user accepts the update, and the download that
    [check_for_updates] starts holds that value.  The digest of the
    downloaded file differs from it, and [begin_update_replace] is
    called all the same. *)
Lemma sha256_gate_counterexample :
  let m := {| Updater.m_version := Some (Py.lit "1.0");
              Updater.m_url := Some (Py.lit "https://example.org/app.exe");
              Updater.m_sha256 := Some []; Updater.m_notes := None |} in
  let d := {| Updater.dl_url := Some (Py.lit "https://example.org/app.exe");
              Updater.dl_sha := Some [] |} in
  Updater.started
    (Updater.check_for_updates false (Updater.Fetched m) true
       {| Updater.UPDATE_IN_PROGRESS := false |}) = Some d ∧
  bool_decide (Py.ascii_lower (Py.lit "ab12") = Py.ascii_lower []) = false ∧
  Updater.on_done Py.ascii_lower (λ _, Py.lit "ab12") (Py.lit "app.exe")
    (λ _ _, Updater.Replaced) d (Py.lit "/tmp/upd_1.bin")
    {| Updater.UPDATE_IN_PROGRESS := true |}
  = ({| Updater.UPDATE_IN_PROGRESS := true |},
     [Updater.CloseProgress;
      Updater.Information (Py.lit "Updater")
        (Py.lit "Update downloaded. The app will exit to finalize.");
      Updater.BeginUpdateReplace (Py.lit "/tmp/upd_1.bin") (Py.lit "app.exe");
      Updater.Information (Py.lit "Update Complete")
        (Py.lines [Py.lit "Update completed successfully!"; [];
                   Py.lit "Please manually restart " ++ APP_NAME
                   ++ Py.lit " to use the new version."; [];
                   Py.lit "The application will now close."]);
      Updater.Quit]).
Proof. by vm_compute. Qed.

(** C6, where the code departs from it.  A newer version is offered and
    accepted, which sets the flag; the download then fails and [on_err]
    runs.  The flag is still set, and the next [check_for_updates] only
    shows the message of an update in progress: it does not fetch the
    manifest. *)
Theorem update_flag_stuck_after_failed_download :
  let m := {| Updater.m_version := Some (Py.lit "1.0");
              Updater.m_url := Some (Py.lit "https://example.org/app.exe");
              Updater.m_sha256 := None; Updater.m_notes := None |} in
  let r1 := Updater.check_for_updates false (Updater.Fetched m) true
              {| Updater.UPDATE_IN_PROGRESS := false |} in
  let g2 := (Updater.on_err (Py.lit "timed out") (Updater.globals_after r1)).1 in
  let r3 := Updater.check_for_updates false (Updater.Fetched m) true g2 in
  Updater.returned r1 = true ∧
  Updater.UPDATE_IN_PROGRESS (Updater.globals_after r1) = true ∧
  Updater.UPDATE_IN_PROGRESS g2 = true ∧
  Updater.returned r3 = false ∧
  Updater.started r3 = None ∧
  Updater.events r3 =
    [Updater.Information (Py.lit "Update")
       (Py.lit "An update is already in progress. Please wait for it to complete.")].
Proof. by vm_compute. Qed.

(** ** DOCX to PDF *)

Section PdfFacts.
Import Py Pdf.
Variable attempt : tool → option str.

Lemma convert_trace :
  (convert_docx_to_pdf attempt).1 = [ReportLab] ∨
  (convert_docx_to_pdf attempt).1 = [ReportLab; Docx2Pdf].
Proof.
  unfold convert_docx_to_pdf.
  destruct (attempt ReportLab); [destruct (attempt Docx2Pdf)|]; auto.
Qed.

Lemma convert_never_tries t :
  t = WordCom ∨ t = LibreOffice → t ∉ (convert_docx_to_pdf attempt).1.
Proof.
  intros Ht Hin.
  destruct convert_trace as [E|E]; rewrite E in Hin; elem_cases Hin;
    destruct Ht; congruence.
Qed.

End PdfFacts.

(** C5, as the code has it.  [convert_docx_to_pdf] is a fixed ordered
    fallback across two converters: ReportLab first and, only when it
    fails, docx2pdf; when both fail it gives up with an error message.
    Word COM and LibreOffice are never tried by it.  Each of them runs
    only when [convert_docx_to_pdf_with_method] is given its name,
    "word_com" or "libreoffice", and then that one converter is tried
    without fallback: with the name "auto" the function is
    [convert_docx_to_pdf], with the name of a converter it tries that
    converter alone, and with any other name it tries none and raises
    an error. *)
Theorem convert_docx_to_pdf_fallback (attempt : Pdf.tool → option Py.str) :
  (attempt Pdf.ReportLab = None →
   Pdf.convert_docx_to_pdf attempt = ([Pdf.ReportLab], Pdf.Written)) ∧
  (attempt Pdf.ReportLab ≠ None → attempt Pdf.Docx2Pdf = None →
   Pdf.convert_docx_to_pdf attempt
   = ([Pdf.ReportLab; Pdf.Docx2Pdf], Pdf.Written)) ∧
  (attempt Pdf.ReportLab ≠ None → attempt Pdf.Docx2Pdf ≠ None →
   ∃ msg, Pdf.convert_docx_to_pdf attempt
          = ([Pdf.ReportLab; Pdf.Docx2Pdf], Pdf.Raised msg)) ∧
  (Pdf.WordCom ∉ (Pdf.convert_docx_to_pdf attempt).1) ∧
  (Pdf.LibreOffice ∉ (Pdf.convert_docx_to_pdf attempt).1) ∧
  (∀ method,
     let r := Pdf.convert_docx_to_pdf_with_method attempt method in
     (Pdf.WordCom ∈ r.1 ↔ method = Py.lit "word_com") ∧
     (Pdf.LibreOffice ∈ r.1 ↔ method = Py.lit "libreoffice") ∧
     (method = Py.lit "auto" → r = Pdf.convert_docx_to_pdf attempt) ∧
     (∀ t, (method = Py.lit "reportlab" ∧ t = Pdf.ReportLab) ∨
           (method = Py.lit "word_com" ∧ t = Pdf.WordCom) ∨
           (method = Py.lit "docx2pdf" ∧ t = Pdf.Docx2Pdf) ∨
           (method = Py.lit "libreoffice" ∧ t = Pdf.LibreOffice) →
           r = ([t], match attempt t with
                     | None => Pdf.Written
                     | Some e => Pdf.Raised (Pdf.selected_failed method e)
                     end)) ∧
     (method ∉ [Py.lit "auto"; Py.lit "reportlab"; Py.lit "word_com";
                Py.lit "docx2pdf"; Py.lit "libreoffice"] →
      r = ([], Pdf.Raised
                 (Pdf.selected_failed method
                    (Py.lit "Unknown PDF conversion method: " ++ method))))).
Proof.
  split; [unfold Pdf.convert_docx_to_pdf; by intros ->|].
  split.
  { unfold Pdf.convert_docx_to_pdf.
    destruct (attempt Pdf.ReportLab); [|done]. by intros _ ->. }
  split.
  { unfold Pdf.convert_docx_to_pdf.
    destruct (attempt Pdf.ReportLab); [|done].
    destruct (attempt Pdf.Docx2Pdf); [|done]. eauto. }
  split; [apply convert_never_tries; auto|].
  split; [apply convert_never_tries; auto|].
  intros method r. subst r.
  assert (∀ t, (method = Py.lit "reportlab" ∧ t = Pdf.ReportLab) ∨
               (method = Py.lit "word_com" ∧ t = Pdf.WordCom) ∨
               (method = Py.lit "docx2pdf" ∧ t = Pdf.Docx2Pdf) ∨
               (method = Py.lit "libreoffice" ∧ t = Pdf.LibreOffice) →
               Pdf.convert_docx_to_pdf_with_method attempt method
               = ([t], match attempt t with
                       | None => Pdf.Written
                       | Some e => Pdf.Raised (Pdf.selected_failed method e)
                       end)) as Hone.
  { intros t [[-> ->]|[[-> ->]|[[-> ->]|[-> ->]]]];
      unfold Pdf.convert_docx_to_pdf_with_method;
      (rewrite decide_False by discriminate);
      cbv [Pdf.tool_of_method];
      repeat (first [rewrite decide_True by reflexivity
                    |rewrite decide_False by discriminate]);
      by destruct (attempt _). }
  assert (method ∉ [Py.lit "auto"; Py.lit "reportlab"; Py.lit "word_com";
                    Py.lit "docx2pdf"; Py.lit "libreoffice"] →
          Pdf.convert_docx_to_pdf_with_method attempt method
          = ([], Pdf.Raised
                   (Pdf.selected_failed method
                      (Py.lit "Unknown PDF conversion method: " ++ method))))
    as Hnone.
  { intros Hm. unfold Pdf.convert_docx_to_pdf_with_method, Pdf.tool_of_method.
    repeat (rewrite decide_False;
            [|intros ->; apply Hm;
              repeat (first [apply list_elem_of_here
                            |apply list_elem_of_further])]).
    done. }
  assert (∀ t, t = Pdf.WordCom ∨ t = Pdf.LibreOffice →
               t ∈ (Pdf.convert_docx_to_pdf_with_method attempt method).1 →
               Pdf.tool_of_method method = Some t ∧ method ≠ Py.lit "auto")
    as Honly.
  { intros t Ht Hin. unfold Pdf.convert_docx_to_pdf_with_method in Hin.
    destruct (decide (method = Py.lit "auto")) as [->|Hauto].
    - by apply convert_never_tries in Hin.
    - destruct (Pdf.tool_of_method method) as [t'|];
        [|by apply elem_of_nil in Hin].
      destruct (attempt t'); apply list_elem_of_singleton in Hin as ->; done. }
  assert (∀ t name, Pdf.tool_of_method method = Some t →
                    Pdf.tool_of_method name = Some t →
                    name ≠ Py.lit "auto" → method = name) as Hname.
  { intros t name. unfold Pdf.tool_of_method.
    repeat case_decide; subst; congruence. }
  split; [|split; [|split; [|split]]]; [| |by intros ->|exact Hone|exact Hnone].
  - split.
    + intros [Ht _]%Honly; [|auto].
      by apply (Hname Pdf.WordCom); [|reflexivity|discriminate].
    + intros ->. rewrite (Hone Pdf.WordCom) by auto. apply list_elem_of_here.
  - split.
    + intros [Ht _]%Honly; [|auto].
      by apply (Hname Pdf.LibreOffice); [|reflexivity|discriminate].
    + intros ->. rewrite (Hone Pdf.LibreOffice) by auto. apply list_elem_of_here.
Qed.

Lemma convert_docx_to_pdf_fallback_witness :
  Pdf.convert_docx_to_pdf
    (λ t, match t with Pdf.ReportLab => Some (Py.lit "no font") | _ => None end)
  = ([Pdf.ReportLab; Pdf.Docx2Pdf], Pdf.Written).
Proof.
  apply (proj1 (proj2 (convert_docx_to_pdf_fallback
    (λ t, match t with Pdf.ReportLab => Some (Py.lit "no font") | _ => None end)))).
  - discriminate.
  - reflexivity.
Defined.

(** ReportLab and docx2pdf fail, Word and LibreOffice would succeed: the
    conversion gives up without trying them. *)
Lemma convert_docx_to_pdf_counterexample :
  Pdf.convert_docx_to_pdf
    (λ t, match t with
          | Pdf.ReportLab => Some (Py.lit "build failed")
          | Pdf.Docx2Pdf => Some (Py.lit "Word not found")
          | Pdf.WordCom | Pdf.LibreOffice => None
          end)
  = ([Pdf.ReportLab; Pdf.Docx2Pdf],
     Pdf.Raised (Pdf.both_failed (Py.lit "build failed") (Py.lit "Word not found"))).
Proof. by vm_compute. Qed.

(** ** The template document *)

Section DocxFacts.
Import Py Docx.
Variables TEMPLATE_PATH tmp_docx tmp_png : str.

(** Without the marker the preview worker fails with the message of
    the marker. *)
Lemma run_no_marker debug key unit_title level questions pdf_method d
    attempt raster :
  find_discussion d = None →
  run tmp_docx tmp_png debug key unit_title level questions pdf_method
      None (Template d) attempt raster
  = [Failed NO_DISCUSSION].
Proof. intros H. unfold run. by rewrite H. Qed.

(** ... and never emits [done], whatever else happens. *)
Lemma run_no_marker_not_done debug key unit_title level questions pdf_method
    deps d attempt raster k png :
  find_discussion d = None →
  Done k png ∉ run tmp_docx tmp_png debug key unit_title level questions
                   pdf_method deps (Template d) attempt raster.
Proof.
  intros H Hin. unfold run in Hin. rewrite H in Hin.
  destruct deps; elem_cases Hin.
Qed.

(** The export fails with the message of the marker when the document
    has no marker after the title and the level have been put in. *)
Lemma export_no_marker unit_title level questions chosen d :
  truthy (strip unit_title) = true → truthy chosen = true →
  find_discussion (substitute_export unit_title level d) = None →
  export_docx TEMPLATE_PATH unit_title level questions chosen None (Template d)
  = [Critical EXPORT_ERROR NO_DISCUSSION].
Proof.
  intros Ht Hc H. unfold export_docx. rewrite Ht, Hc, H.
  destruct unit_title; [done|]. done.
Qed.

(** No document is saved unless the marker is found after the
    substitution. *)
Lemma export_saves unit_title level questions chosen deps template path d' :
  Save path d' ∈ export_docx TEMPLATE_PATH unit_title level questions chosen
                   deps template →
  ∃ d, template = Template d ∧
       is_Some (find_discussion (substitute_export unit_title level d)).
Proof.
  unfold export_docx.
  destruct (negb (truthy unit_title) || negb (truthy (strip unit_title)));
    [intros H; elem_cases H|].
  destruct (negb (truthy chosen)); [intros H; elem_cases H|].
  destruct deps; [intros H; elem_cases H|].
  destruct template as [|e|d]; try (intros H; by elem_cases H).
  destruct (find_discussion _) eqn:E; [by eauto|].
  intros H; elem_cases H.
Qed.

End DocxFacts.

(** C7, where the code departs from it.  The template has one paragraph,
    "LOOKING BACK", and so no paragraph whose stripped text is
    "Discussion"; the unit title is "Discussion".  The preview worker
    fails with the message of the missing marker.  [export_docx] puts the
    title in place of "LOOKING BACK" before it looks for the marker,
    finds the title paragraph, and saves a document. *)
Theorem export_docx_marker_from_title :
  let d := [ {| Docx.runs := [Py.lit "LOOKING BACK"];
                Docx.style := Py.lit "Title" |} ] in
  Docx.find_discussion d = None ∧
  Docx.run (Py.lit "preview.docx") (Py.lit "preview.png") false
    (Py.lit "k") (Py.lit "Discussion") (Py.lit "B2") [Py.lit "Why?"]
    (Py.lit "reportlab") None (Docx.Template d) (λ _, None) (λ _, None)
  = [Docx.Failed Docx.NO_DISCUSSION] ∧
  ∃ d',
    Docx.export_docx (Py.lit "template.docx") (Py.lit "Discussion") (Py.lit "B2")
      [Py.lit "Why?"] (Py.lit "out.docx") None (Docx.Template d)
    = [Docx.Save (Py.lit "out.docx") d';
       Docx.Information (Py.lit "Export")
         (Py.lit "Saved:" ++ [0x0A] ++ Py.lit "out.docx")].
Proof.
  split; [by vm_compute|]. split; [by vm_compute|].
  eexists. vm_compute. reflexivity.
Qed.

(** ** The main window *)

Section AppFacts.
Import Py App.
Variable sha1_hexdigest : list N → str.
Variable encode_utf8 : str → list N.

Local Abbreviation key := (_content_key sha1_hexdigest encode_utf8).
Local Abbreviation on_done := (App.on_done sha1_hexdigest encode_utf8).

Lemma on_done_current w k png st :
  k = key st →
  (on_done w k png st).2 = ShowExact png :: (show_exact png st).2 ∧
  files (on_done w k png st).1 = files st ∧
  (png ∈ files st → page (on_done w k png st).1 = Some png).
Proof.
  intros ->. unfold App.on_done. rewrite decide_True by done.
  unfold show_exact. destruct (decide (png ∈ files st)); simpl; done.
Qed.

Lemma on_done_stale w k png st :
  k ≠ key st →
  (∀ p, ShowExact p ∉ (on_done w k png st).2) ∧
  page (on_done w k png st).1 = page st ∧
  (png ∉ files (on_done w k png st).1) ∧
  (png ∈ files st → (on_done w k png st).2 = [Remove png]).
Proof.
  intros Hk. unfold App.on_done. rewrite decide_False by done.
  destruct (decide (png ∈ files st)) as [Hin|Hout]; simpl.
  - split; [intros p H; elem_cases H|]. split; [done|].
    split; [|done]. intros [_ Hn]%elem_of_difference.
    apply Hn. by apply elem_of_singleton.
  - split; [intros p H; elem_cases H|]. done.
Qed.

Lemma index_of_in_range {A} (l : list A) (i : Z) :
  (- Z.of_nat (length l) ≤ i < Z.of_nat (length l))%Z →
  index_of l i = Some (position l i) ∧ (position l i < length l)%nat.
Proof.
  intros Hi. unfold index_of, position.
  destruct (Z.leb_spec 0 i), (Z.ltb_spec i (Z.of_nat (length l))),
    (Z.leb_spec (- Z.of_nat (length l)) i), (Z.ltb_spec i 0); simpl;
    try lia; (split; [done|lia]).
Qed.

Lemma apply_single_questions idx new_q st :
  (- Z.of_nat (length (questions st)) ≤ idx < Z.of_nat (length (questions st)))%Z →
  questions (_apply_single sha1_hexdigest encode_utf8 idx new_q st).1.1
  = <[position (questions st) idx := new_q]> (questions st).
Proof.
  intros Hi. unfold _apply_single.
  destruct (index_of_in_range (questions st) idx Hi) as [-> _].
  cbn [questions set_questions row_widgets].
  destruct (index_of (row_widgets st) idx); [|done].
  cbn [preview_visible set_questions set_row_widgets].
  by destruct (preview_visible st).
Qed.

End AppFacts.

(** C8. A finished render is shown only if its key equals the key of the
    content at the time of completion, which is the SHA-1 hash of the
    unit title, the level and the questions, each question after a bar.
    A result with another key is never shown: the page keeps what it
    had, and the PNG of the result is removed from the files. *)
Theorem preview_on_done_spec
    (sha1_hexdigest : list N → Py.str) (encode_utf8 : Py.str → list N)
    (w : App.worker) (k png : Py.str) (st : App.state) :
  let r := App.on_done sha1_hexdigest encode_utf8 w k png st in
  let current :=
    sha1_hexdigest
      (encode_utf8 (Py.or_else (App.unit_title st) [])
       ++ encode_utf8 (Py.or_else (App.level st) [])
       ++ concat ((λ q, [0x7C] ++ encode_utf8 q) <$> App.questions st)) in
  (∀ p, App.ShowExact p ∈ r.2 → p = png ∧ k = current) ∧
  (k = current → App.ShowExact png ∈ r.2 ∧
                 (png ∈ App.files st → App.page r.1 = Some png)) ∧
  (k ≠ current →
   (∀ p, App.ShowExact p ∉ r.2) ∧
   App.page r.1 = App.page st ∧
   (png ∉ App.files r.1) ∧
   (png ∈ App.files st → r.2 = [App.Remove png])).
Proof.
  cbv zeta. fold (App._content_key sha1_hexdigest encode_utf8 st).
  split; [|split].
  - intros p Hp.
    destruct (decide (k = App._content_key sha1_hexdigest encode_utf8 st))
      as [Hk|Hk].
    + split; [|done].
      destruct (on_done_current sha1_hexdigest encode_utf8 w k png st Hk)
        as (E & _). rewrite E in Hp.
      apply elem_of_cons in Hp as [[= ->]|Hp]; [done|].
      unfold App.show_exact in Hp.
      destruct (decide (png ∈ App.files st)); simpl in Hp; elem_cases Hp.
    + by apply (on_done_stale sha1_hexdigest encode_utf8 w k png st) in Hp.
  - intros Hk.
    destruct (on_done_current sha1_hexdigest encode_utf8 w k png st Hk)
      as (E & _ & Hpage).
    split; [|done]. rewrite E. apply list_elem_of_here.
  - apply on_done_stale.
Qed.

Lemma preview_on_done_spec_witness :
  let st := {| App.unit_title := Py.lit "Travel"; App.level := Py.lit "B2";
               App.questions := [Py.lit "Why?"]; App.row_widgets := [];
               App.preview_visible := true; App.page := None;
               App.overlay := None;
               App.files := {[ Py.lit "old.png" ]}; App._workers := [] |} in
  App.page (App.on_done (λ b, b) (λ s, s) (App.OtherWorker 0)
              (Py.lit "stale") (Py.lit "old.png") st).1 = None.
Proof.
  cbv zeta.
  refine (proj1 (proj2 (proj2 (proj2 (preview_on_done_spec (λ b, b) (λ s, s)
            (App.OtherWorker 0) (Py.lit "stale") (Py.lit "old.png") _)) _))).
  vm_compute. discriminate.
Defined.

(** C9. For every index [idx] within the range of the questions (from 0
    to the length, or negative and counted from the end, as Python reads
    it), [_apply_single idx new_q] puts [new_q] at the position of [idx]
    and leaves every other entry, the order and the length of the list
    as they were. *)
Theorem apply_single_in_place
    (sha1_hexdigest : list N → Py.str) (encode_utf8 : Py.str → list N)
    (idx : Z) (new_q : Py.str) (st : App.state) :
  (- Z.of_nat (length (App.questions st)) ≤ idx
   < Z.of_nat (length (App.questions st)))%Z →
  let i := App.position (App.questions st) idx in
  let qs' :=
    App.questions (App._apply_single sha1_hexdigest encode_utf8 idx new_q st).1.1 in
  ((0 ≤ idx)%Z → i = Z.to_nat idx) ∧
  length qs' = length (App.questions st) ∧
  qs' !! i = Some new_q ∧
  (∀ j, j ≠ i → qs' !! j = App.questions st !! j) ∧
  qs' = take i (App.questions st) ++ new_q :: drop (S i) (App.questions st).
Proof.
  intros Hi. cbv zeta. rewrite apply_single_questions by done.
  destruct (index_of_in_range (App.questions st) idx Hi) as [_ Hlt].
  split; [|split; [|split; [|split]]].
  - intros H0. unfold App.position. by destruct (Z.ltb_spec idx 0); [lia|].
  - apply length_insert.
  - by apply list_lookup_insert_eq.
  - intros j Hj. by apply list_lookup_insert_ne.
  - by apply insert_take_drop.
Qed.

Lemma apply_single_in_place_witness :
  let st := {| App.unit_title := Py.lit "Travel"; App.level := Py.lit "B2";
               App.questions := [Py.lit "a?"; Py.lit "b?"; Py.lit "c?"];
               App.row_widgets := [];
               App.preview_visible := false; App.page := None;
               App.overlay := None; App.files := ∅; App._workers := [] |} in
  App.questions (App._apply_single (λ b, b) (λ s, s) 1 (Py.lit "new?") st).1.1
  !! 1%nat = Some (Py.lit "new?").
Proof.
  cbv zeta.
  refine (proj1 (proj2 (proj2 (apply_single_in_place (λ b, b) (λ s, s) 1
                                 (Py.lit "new?") _ _)))).
  simpl. lia.
Defined.

(** * Further properties of the code *)

(** ** The parser and the workers of the model *)

Section GeminiFacts.
Import Py Gemini.
Variable lower : str → str.
Implicit Types (s t q raw text line : str) (l : list str) (seen : gset str).

Local Abbreviation parse := (parse_numbered_questions lower).
Local Abbreviation ends_with_qmark := (λ q : str, endswith q [QMARK] = true).

Lemma rev_forallb (p : char → bool) s :
  forallb p s = true → forallb p (rev s) = true.
Proof.
  rewrite !forallb_forall. intros H c Hc. apply H. by apply in_rev.
Qed.

Lemma lstrip_by_head (p : char → bool) s c y :
  lstrip_by p s = c :: y → p c = false.
Proof.
  induction s as [|a s IH]; simpl; [done|].
  destruct (p a) eqn:Ha; [done|]. by intros [= <- _].
Qed.

Lemma strip_nil_iff s : strip s = [] ↔ forallb isspace s = true.
Proof.
  unfold strip, strip_by. split.
  - intros E. apply rstrip_nil_iff in E.
    destruct (lstrip_by isspace s) as [|c y] eqn:El.
    + by apply lstrip_by_nil_iff.
    + apply lstrip_by_head in El. simpl in E. by rewrite El in E.
  - intros E. apply lstrip_by_nil_iff in E. by rewrite E.
Qed.

(** The lines and the parts of a text are made of its characters. *)
Lemma splitlines_from_forallb (p : char → bool) s :
  ∀ after_cr cur line,
    forallb p cur = true → forallb p s = true →
    line ∈ splitlines_from after_cr cur s → forallb p line = true.
Proof.
  induction s as [|c s IH]; intros after_cr cur line Hcur Hs Hline;
    simpl in Hline.
  - destruct cur; [by apply elem_of_nil in Hline|].
    apply list_elem_of_singleton in Hline as ->. by apply rev_forallb.
  - simpl in Hs. apply andb_true_iff in Hs as [Hc Hs].
    destruct (after_cr && (c =? 10)); [by apply (IH false cur)|].
    destruct (islinebreak c).
    + apply elem_of_cons in Hline as [->|Hline]; [by apply rev_forallb|].
      by apply (IH (c =? 13) []).
    + apply (IH false (c :: cur)); [|done..]. simpl. by rewrite Hc, Hcur.
Qed.

Lemma split_from_forallb (p : char → bool) r aft :
  ∀ skip cur bef c,
    forallb p cur = true → forallb p aft = true →
    c ∈ Re.split_from r skip cur bef aft → forallb p c = true.
Proof.
  induction aft as [|a aft IH]; intros skip cur bef c Hcur Haft Hc;
    simpl in Hc.
  - apply list_elem_of_singleton in Hc as ->. by apply rev_forallb.
  - simpl in Haft. apply andb_true_iff in Haft as [Ha Haft].
    assert (forallb p (a :: cur) = true) as Hcur'
      by (simpl; by rewrite Ha, Hcur).
    destruct skip as [|skip]; [|by apply (IH skip cur (a :: bef))].
    destruct (Re.match_at r bef (a :: aft)) as [m|];
      [|by apply (IH 0%nat (a :: cur) (a :: bef))].
    destruct (Re.len_matched bef m) as [|n];
      [by apply (IH 0%nat (a :: cur) (a :: bef))|].
    apply elem_of_cons in Hc as [->|Hc]; [by apply rev_forallb|].
    by apply (IH n [] (a :: bef)).
Qed.

Lemma omap_none {A B} (f : A → option B) (l : list A) :
  (∀ x, x ∈ l → f x = None) → omap f l = [].
Proof.
  induction l as [|x l IH]; intros H; simpl; [done|].
  rewrite (H x) by apply list_elem_of_here.
  apply IH. intros y Hy. apply H. by apply list_elem_of_further.
Qed.

(** A text of white space has no question in it. *)
Lemma raw_questions_space text :
  forallb isspace text = true → raw_questions text = [].
Proof.
  intros Hws. unfold raw_questions. rewrite or_else_nil.
  rewrite (omap_none line_question).
  - apply omap_none. intros c Hc. unfold chunk_question.
    apply (split_from_forallb isspace) in Hc; [|done..].
    apply strip_nil_iff in Hc. by rewrite Hc.
  - intros line Hline. unfold line_question.
    apply (splitlines_from_forallb isspace) in Hline; [|done..].
    apply strip_nil_iff in Hline. by rewrite Hline.
Qed.

Lemma parse_space text N :
  forallb isspace text = true → parse text N = [].
Proof.
  intros Hws. unfold parse_numbered_questions.
  rewrite raw_questions_space by done. unfold slice_to.
  by destruct (N <? 0)%Z; rewrite take_nil.
Qed.

Lemma parse_length text N :
  (0 ≤ N)%Z → (length (parse text N) ≤ Z.to_nat N)%nat.
Proof.
  intros HN. unfold parse_numbered_questions.
  pose proof (clean_loop_length lower (slice_to N (raw_questions text)) ([], ∅)) as H1.
  pose proof (slice_to_length N (raw_questions text) HN) as H2.
  simpl in H1. lia.
Qed.

Lemma parse_endswith text N : Forall ends_with_qmark (parse text N).
Proof.
  unfold parse_numbered_questions. apply clean_loop_Forall; [done|].
  apply Forall_forall. intros q _. apply tidy_endswith.
Qed.

(** The last loop of the parser: what it adds to [clean] is a
    subsequence of the tidied entries, and [seen] holds the lower-case
    form of every entry met. *)
Lemma clean_loop_added l : ∀ (st : list str * gset str),
  ∃ added,
    (foldl (clean_step lower) st l).1 = st.1 ++ added ∧
    added `sublist_of` (tidy <$> l) ∧
    (foldl (clean_step lower) st l).2 = st.2 ∪ list_to_set (lower <$> added) ∧
    ∀ q0, q0 ∈ l → lower (tidy q0) ∈ (foldl (clean_step lower) st l).2.
Proof.
  induction l as [|q0 l IH]; intros st; simpl.
  - exists []. rewrite app_nil_r. split; [done|]. split; [done|].
    split; [simpl; by rewrite (right_id_L ∅ (∪))|].
    intros q Hq. by apply elem_of_nil in Hq.
  - destruct (IH (clean_step lower st q0)) as (added & E1 & Hsub & E2 & Hcov).
    unfold clean_step in E1, E2, Hcov |- *.
    destruct (decide (lower (tidy q0) ∈ st.2)) as [Hin|Hin].
    + exists added. split; [done|]. split; [by apply sublist_cons|].
      split; [done|].
      intros q [->|Hq]%elem_of_cons; [|by apply Hcov].
      rewrite E2. by apply elem_of_union_l.
    + cbn [fst snd] in E1, E2.
      exists (tidy q0 :: added). rewrite E1, <- app_assoc. split; [done|].
      split; [by apply sublist_skip|]. split.
      * rewrite E2. cbn [fmap list_fmap list_to_set].
        rewrite (comm_L (∪) {[lower (tidy q0)]} st.2).
        by rewrite (assoc_L (∪)).
      * intros q [->|Hq]%elem_of_cons; [|by apply Hcov].
        rewrite E2. apply elem_of_union_l, elem_of_union_l.
        by apply elem_of_singleton.
Qed.

Lemma batch_questions_eq (o : option str) :
  let parsed := parse (text_or_empty o) 15 in
  batch_questions lower o
  = parsed ++ replicate (15 - length parsed) FALLBACK_QUESTION ∧
  length (batch_questions lower o) = 15%nat ∧
  Forall ends_with_qmark (batch_questions lower o).
Proof.
  intros parsed. unfold batch_questions. fold parsed.
  assert (length parsed ≤ 15)%nat as Hlen
    by (apply (parse_length _ 15); lia).
  rewrite pad_loop_replicate by lia.
  assert (slice_to 15 (parsed ++ replicate (15 - length parsed) FALLBACK_QUESTION)
          = parsed ++ replicate (15 - length parsed) FALLBACK_QUESTION) as ->.
  { unfold slice_to. simpl. apply take_ge.
    rewrite length_app, length_replicate. lia. }
  split; [done|]. split.
  - rewrite length_app, length_replicate. lia.
  - apply Forall_app. split; [apply parse_endswith|].
    apply Forall_replicate. by vm_compute.
Qed.

Lemma first_line_none (o : option str) :
  first_line o = None ↔ ∃ t, o = Some t ∧ t ≠ [] ∧ strip t = [].
Proof.
  assert (∀ s b cur, cur ≠ [] → splitlines_from b cur s ≠ []) as Hcur.
  { induction s as [|c s IH]; intros b cur Hne; simpl; [by destruct cur|].
    destruct (b && (c =? 10)); [by apply IH|].
    destruct (islinebreak c); [done|]. by apply IH. }
  assert (∀ s, splitlines s = [] → s = []) as Hnil.
  { intros [|c s]; [done|]. unfold splitlines. simpl.
    destruct (islinebreak c); [done|]. intros E. by apply Hcur in E. }
  unfold first_line, text_or_empty. split.
  - destruct o as [t|]; simpl; [|done].
    destruct t as [|c t]; [done|]. cbn [truthy]. rewrite or_else_nil.
    intros E. exists (c :: t). split; [done|]. split; [done|].
    apply Hnil. by destruct (splitlines (strip (c :: t))).
  - intros (t & -> & Hne & E). simpl. destruct t as [|c t]; [done|].
    cbn [truthy]. rewrite or_else_nil, E. done.
Qed.

Lemma question_of_line_endswith line :
  endswith (question_of_line line) [QMARK] = true.
Proof.
  unfold question_of_line.
  destruct (endswith line [QMARK]) eqn:E.
  - apply endswith_qmark_iff in E as [s ->]. apply endswith_qmark_iff.
    exists (sub_ws s). by apply sub_ws_from_snoc_keep.
  - apply endswith_qmark_iff. eexists. by apply sub_ws_from_snoc_keep.
Qed.

End GeminiFacts.

(** X1. In the first loop of [parse_numbered_questions], a line of the
    text adds an entry exactly when, stripped, it is a numbered line
    (digits, a dot or a closing parenthesis, white space, a body, a
    question mark) or a bulleted line (a bullet, white space, a body,
    a question mark); the entry is the stripped body followed by a
    question mark. *)
Theorem line_question_shape (text line raw : Py.str) :
  line ∈ Py.splitlines text →
  line_question line = Some raw ↔
  ∃ body, raw = Py.strip body ++ [QMARK] ∧
          (numbered_line (Py.strip line) body ∨
           bulleted_line (Py.strip line) body).
Proof. apply line_question_iff. Qed.

Lemma line_question_shape_witness :
  ∃ body, Py.lit "Why now?" = Py.strip body ++ [QMARK] ∧
          (numbered_line (Py.strip (Py.lit "  2) Why now?")) body ∨
           bulleted_line (Py.strip (Py.lit "  2) Why now?")) body).
Proof.
  apply (proj1 (line_question_shape
                  (Py.lit "1. Where?" ++ [0x0A%N] ++ Py.lit "  2) Why now?")
                  (Py.lit "  2) Why now?") (Py.lit "Why now?")
                  ltac:(vm_compute; apply list_elem_of_further,
                                          list_elem_of_here))).
  by vm_compute.
Defined.

(** X2. The last loop of [parse_numbered_questions] keeps the order
    of the entries and drops an entry only as a duplicate: the result
    is a subsequence of the tidied entries of [out[:max_items]], it
    starts with the first of them, and every one of them has its
    lower-case form among those of the result. *)
Theorem parse_numbered_questions_dedup
    (lower : Py.str → Py.str) (text : Py.str) (N : Z) :
  let raws := Py.slice_to N (raw_questions text) in
  let result := parse_numbered_questions lower text N in
  result `sublist_of` (tidy <$> raws) ∧
  head result = head (tidy <$> raws) ∧
  ∀ q0, q0 ∈ raws → ∃ q, q ∈ result ∧ lower q = lower (tidy q0).
Proof.
  intros raws result. subst result. unfold parse_numbered_questions.
  fold raws. clearbody raws.
  destruct (clean_loop_added lower raws ([], ∅)) as (added & E1 & Hsub & E2 & Hcov).
  simpl in E1, E2. rewrite E1. split; [done|]. split.
  - destruct raws as [|q0 raws']; simpl in *; [by rewrite <- E1|].
    destruct (clean_loop_added lower raws' (clean_step lower ([], ∅) q0))
      as (added' & E1' & _).
    rewrite E1' in E1. unfold clean_step in E1. simpl in E1.
    rewrite decide_False in E1 by apply not_elem_of_empty.
    simpl in E1. by rewrite <- E1.
  - intros q0 Hq0. specialize (Hcov q0 Hq0). rewrite E2 in Hcov.
    apply elem_of_union in Hcov as [Hcov|Hcov];
      [by apply not_elem_of_empty in Hcov|].
    apply elem_of_list_to_set, list_elem_of_fmap in Hcov as (q & Hq & Hin).
    eauto.
Qed.

Lemma parse_numbered_questions_dedup_witness :
  ∃ q, q ∈ parse_numbered_questions Py.ascii_lower
             (Py.lit "1. Why?" ++ [0x0A%N] ++ Py.lit "2. why?" ++ [0x0A%N]
              ++ Py.lit "3. Who?") 15
       ∧ Py.ascii_lower q = Py.ascii_lower (tidy (Py.lit "why?")).
Proof.
  apply (proj2 (proj2 (parse_numbered_questions_dedup Py.ascii_lower
                         (Py.lit "1. Why?" ++ [0x0A%N] ++ Py.lit "2. why?"
                          ++ [0x0A%N] ++ Py.lit "3. Who?") 15))
           (Py.lit "why?")).
  vm_compute. apply list_elem_of_further, list_elem_of_here.
Defined.

(** X3. Whatever the reply of the model, [GeminiBatchWorker.run]
    emits the parsed questions followed by as many fallback questions
    as are missing: exactly 15 entries, each ending with a question
    mark.  An exception of the call is emitted as an error. *)
Theorem batch_run_fifteen (lower : Py.str → Py.str) (text : option Py.str) :
  let parsed := parse_numbered_questions lower (Gemini.text_or_empty text) 15 in
  ∃ qs, Gemini.batch_run lower (Gemini.Reply text) = Gemini.Ok qs ∧
        qs = parsed ++ replicate (15 - length parsed) FALLBACK_QUESTION ∧
        length qs = 15%nat ∧
        Forall (λ q, Py.endswith q [QMARK] = true) qs.
Proof.
  intros parsed. eexists. split; [done|]. apply batch_questions_eq.
Qed.

(** X4. [GeminiSingleWorker.run] emits a question that ends with a
    question mark, for the index it was given, for every reply but
    one: a reply whose text is not empty and is all white space ends
    in the error of indexing an empty list of lines.  A reply without
    text, or with the empty text, gives the default question with a
    second question mark. *)
Theorem single_run_question
    (lower : Py.str → Py.str) (index : Z) (text : option Py.str) :
  let blank := ∃ t, text = Some t ∧ t ≠ [] ∧ Py.strip t = [] in
  (blank →
   Gemini.single_run lower index (Gemini.Reply text)
   = Gemini.Err (Py.lit "Gemini single failed: list index out of range")) ∧
  (¬ blank →
   ∃ q, Gemini.single_run lower index (Gemini.Reply text)
        = Gemini.OkSingle index q ∧
        Py.endswith q [QMARK] = true) ∧
  (Gemini.text_or_empty text = [] →
   Gemini.single_run lower index (Gemini.Reply text)
   = Gemini.OkSingle index (Gemini.DEFAULT_SINGLE ++ [QMARK])).
Proof.
  intros blank. unfold Gemini.single_run. split; [|split].
  - intros Hb. pose proof Hb as (t & -> & Hne & E).
    unfold Gemini.text_or_empty. simpl. rewrite or_else_nil.
    rewrite parse_space by by apply strip_nil_iff.
    by rewrite (proj2 (first_line_none (Some t)) Hb).
  - intros Hnb.
    pose proof (parse_endswith lower (Gemini.text_or_empty text) 1) as Hq.
    destruct (parse_numbered_questions lower (Gemini.text_or_empty text) 1)
      as [|q l].
    + destruct (Gemini.first_line text) as [line|] eqn:El.
      * eexists. split; [done|]. apply question_of_line_endswith.
      * by apply first_line_none in El.
    + apply Forall_cons in Hq as [Hq _]. eauto.
  - intros E. rewrite E.
    assert (Gemini.first_line text = Some []) as ->.
    { unfold Gemini.first_line, Gemini.text_or_empty in *.
      destruct text as [[|c t]|]; done. }
    by vm_compute.
Qed.

Lemma single_run_question_witness :
  Gemini.single_run Py.ascii_lower 3 (Gemini.Reply (Some (Py.lit "  ")))
  = Gemini.Err (Py.lit "Gemini single failed: list index out of range").
Proof.
  apply (proj1 (single_run_question Py.ascii_lower 3 (Some (Py.lit "  ")))).
  exists (Py.lit "  "). split; [reflexivity|]. split; [discriminate|reflexivity].
Defined.

(** ** The callbacks of the main window *)

Section WindowFacts.
Import Py App Window.
Variable sha1_hexdigest : list N → str.
Variable encode_utf8 : str → list N.
Implicit Types (q : str) (qs : list str) (st : state) (w : worker).

Local Abbreviation ends_with_qmark := (λ q : str, endswith q [QMARK] = true).
Local Abbreviation shown :=
  (λ q : str, {| row_text := q; real_content := true; regenerated := false |}).
Local Abbreviation after := (Window.after sha1_hexdigest encode_utf8).
Local Abbreviation previews :=
  (λ st : state, filter (λ w, is_preview w = true) (_workers st)).

Lemma ensure_15_idem qs : _ensure_15 (_ensure_15 qs) = _ensure_15 qs.
Proof.
  apply ensure_15_fixed; [apply ensure_15_length | apply ensure_15_settled].
Qed.

Lemma endswith_strip q :
  endswith q [QMARK] = true → endswith (strip q) [QMARK] = true.
Proof.
  intros [s ->]%endswith_qmark_iff. apply endswith_qmark_iff.
  exists (lstrip_by isspace s). by apply strip_by_snoc_keep.
Qed.

Lemma endswith_kept q : endswith q [QMARK] = true → kept q.
Proof.
  intros [s E]%endswith_strip%endswith_qmark_iff.
  unfold kept. rewrite or_else_nil, E. by destruct s.
Qed.

Lemma ensure_15_endswith qs :
  Forall ends_with_qmark qs → Forall ends_with_qmark (_ensure_15 qs).
Proof.
  intros H. apply Forall_forall.
  intros r [(q & -> & _ & Hq)| ->]%ensure_15_elem; [|by vm_compute].
  apply normalize_endswith. by eapply Forall_forall in H.
Qed.

Lemma ensure_15_normalize qs :
  length qs = 15%nat → Forall kept qs → _ensure_15 qs = normalize <$> qs.
Proof.
  intros Hlen Hqs. rewrite ensure_15_eq, filter_Forall_id by done.
  rewrite Hlen. simpl replicate. rewrite app_nil_r.
  apply take_ge. rewrite length_fmap. lia.
Qed.

Lemma as_original_zip qs (rows : list row) :
  length rows = length qs →
  as_original <$> zip_with set_text qs rows = shown <$> qs.
Proof.
  revert rows. induction qs as [|q qs IH]; intros [|r rows]; simpl; try done.
  intros [= Hlen]. f_equal. by apply IH.
Qed.

Lemma apply_batch_state qs st :
  questions (_apply_batch qs st).1 = _ensure_15 qs ∧
  row_widgets (_apply_batch qs st).1 = shown <$> _ensure_15 qs ∧
  _workers (_apply_batch qs st).1 = _workers st ∧
  (_apply_batch qs st).2 = preview_visible st.
Proof.
  unfold _apply_batch. cbn [questions row_widgets set_questions set_row_widgets
                           preview_visible].
  assert ((as_original <$>
           (if decide (length (row_widgets st) ≠ length (_ensure_15 qs))
            then fresh_row <$> _ensure_15 qs
            else zip_with set_text (_ensure_15 qs) (row_widgets st)))
          = shown <$> _ensure_15 qs) as ->.
  { case_decide as Hlen.
    - rewrite <- list_fmap_compose. done.
    - apply as_original_zip. destruct (decide (length (row_widgets st)
                                               = length (_ensure_15 qs))); done. }
  by destruct (preview_visible st).
Qed.

Lemma batch_done_state w qs st :
  questions (batch_done w qs st).1 = _ensure_15 qs ∧
  row_widgets (batch_done w qs st).1 = shown <$> _ensure_15 qs ∧
  _workers (batch_done w qs st).1 = filter (λ w', w' ≠ w) (_workers st) ∧
  (batch_done w qs st).2 = preview_visible st.
Proof.
  unfold batch_done.
  destruct (apply_batch_state (_ensure_15 qs) st) as (E1 & E2 & E3 & E4).
  destruct (_apply_batch (_ensure_15 qs) st) as [st' timer]. simpl in *.
  by rewrite E1, E2, E3, E4, ensure_15_idem.
Qed.

Lemma previews_renewed (ws : list worker) w :
  is_preview w = true →
  filter (λ w', is_preview w' = true)
         (filter (λ w', is_preview w' = false) ws ++ [w]) = [w].
Proof.
  intros Hw. induction ws as [|a ws IH]; simpl.
  - rewrite filter_cons, decide_True by done. done.
  - rewrite (filter_cons _ a). case_decide as Ha; [|done].
    simpl. rewrite filter_cons, decide_False by (by rewrite Ha). done.
Qed.

Lemma start_exact_render_state st :
  let st' := (_start_exact_render sha1_hexdigest encode_utf8 st).1 in
  questions st' = questions st ∧ row_widgets st' = row_widgets st ∧
  ∃ w, previews st' = [w] ∧ is_preview w = true.
Proof.
  unfold _start_exact_render. simpl. split; [done|]. split; [done|].
  eexists. split; [by apply previews_renewed|done].
Qed.

Lemma apply_single_state idx q st :
  let st' := (_apply_single sha1_hexdigest encode_utf8 idx q st).1.1 in
  length (questions st') = length (questions st) ∧
  length (row_widgets st') = length (row_widgets st) ∧
  (∀ P : str → Prop, P q → Forall P (questions st) → Forall P (questions st')) ∧
  ((length (previews st') ≤ 1)%nat ∨ _workers st' = _workers st).
Proof.
  unfold _apply_single.
  destruct (index_of (questions st) idx) as [i|]; [|by auto].
  cbn [row_widgets set_questions].
  destruct (index_of (row_widgets st) idx) as [j|].
  - cbn [preview_visible set_questions set_row_widgets].
    destruct (preview_visible st); simpl.
    + rewrite !length_insert. split; [done|]. split; [done|].
      split; [intros P HP HF; by apply Forall_insert|]. left.
      by rewrite previews_renewed.
    + rewrite !length_insert. split; [done|]. split; [done|].
      split; [intros P HP HF; by apply Forall_insert|]. by right.
  - simpl. rewrite length_insert. split; [done|]. split; [done|].
    split; [intros P HP HF; by apply Forall_insert|]. by right.
Qed.

Lemma filter_filter_length {A} (P Q : A → Prop)
    `{!∀ x, Decision (P x)} `{!∀ x, Decision (Q x)} (l : list A) :
  (length (filter P (filter Q l)) ≤ length (filter P l))%nat.
Proof.
  induction l as [|x l IH]; simpl; [done|].
  rewrite !filter_cons. destruct (decide (Q x)), (decide (P x)); simpl;
    rewrite ?filter_cons; try case_decide; simpl; try done; lia.
Qed.

Lemma single_done_state w idx q st :
  let st' := (single_done sha1_hexdigest encode_utf8 w idx q st).1.1 in
  length (questions st') = length (questions st) ∧
  length (row_widgets st') = length (row_widgets st) ∧
  (∀ P : str → Prop, P (strip q) → Forall P (questions st) →
                     Forall P (questions st')) ∧
  ((length (previews st) ≤ 1)%nat → (length (previews st') ≤ 1)%nat).
Proof.
  unfold single_done.
  destruct (truthy q && truthy (strip q)).
  - pose proof (apply_single_state idx (strip q) st) as (E1 & E2 & E3 & E4).
    destruct (_apply_single sha1_hexdigest encode_utf8 idx (strip q) st)
      as [[st' exn] evs]. simpl in *.
    split; [done|]. split; [done|]. split; [done|]. intros Hp.
    etrans; [apply filter_filter_length|].
    destruct E4 as [E4|E4]; [done|]. by rewrite E4.
  - simpl. split; [done|]. split; [done|]. split; [done|]. intros Hp.
    etrans; [apply filter_filter_length|]. done.
Qed.

Lemma on_done_state w k png st :
  let st' := (on_done sha1_hexdigest encode_utf8 w k png st).1 in
  questions st' = questions st ∧ row_widgets st' = row_widgets st ∧
  _workers st' = filter (λ w', w' ≠ w) (_workers st).
Proof.
  unfold on_done, show_exact.
  repeat case_decide; simpl; done.
Qed.

(** The calls leave the numbers of questions and rows as they are,
    but for the batch, which makes them 15. *)
Lemma after_lengths st c :
  length (questions st) = 15%nat → length (row_widgets st) = 15%nat →
  length (questions (after st c)) = 15%nat ∧
  length (row_widgets (after st c)) = 15%nat.
Proof.
  intros Hq Hr. destruct c as [w qs|w idx q|idx t|txt|lvl| | |w k png|w msg];
    cbn [Window.after].
  - destruct (batch_done_state w qs st) as (-> & -> & _).
    by rewrite length_fmap, ensure_15_length.
  - destruct (single_done_state w idx q st) as (-> & -> & _). done.
  - unfold on_text_edit.
    destruct ((0 <=? idx)%Z && (idx <? Z.of_nat (length (questions st)))%Z);
      simpl; by rewrite ?length_insert.
  - done.
  - done.
  - unfold render_exact_now.
    destruct (start_exact_render_state
                (queue_exact (if negb (preview_visible st) then show st else st)))
      as (-> & -> & _).
    by destruct (preview_visible st).
  - by destruct (start_exact_render_state st) as (-> & -> & _).
  - by destruct (on_done_state w k png st) as (-> & -> & _).
  - done.
Qed.

(** No call leaves more than one preview worker. *)
Lemma after_previews st c :
  (length (previews st) ≤ 1)%nat → (length (previews (after st c)) ≤ 1)%nat.
Proof.
  intros Hp. destruct c as [w qs|w idx q|idx t|txt|lvl| | |w k png|w msg];
    cbn [Window.after].
  - destruct (batch_done_state w qs st) as (_ & _ & -> & _).
    etrans; [apply filter_filter_length|]. done.
  - by apply single_done_state.
  - unfold on_text_edit.
    by destruct ((0 <=? idx)%Z && (idx <? Z.of_nat (length (questions st)))%Z).
  - done.
  - done.
  - unfold render_exact_now.
    destruct (start_exact_render_state
                (queue_exact (if negb (preview_visible st) then show st else st)))
      as (_ & _ & w & -> & _). done.
  - destruct (start_exact_render_state st) as (_ & _ & w & -> & _). done.
  - destruct (on_done_state w k png st) as (_ & _ & ->).
    etrans; [apply filter_filter_length|]. done.
  - simpl. etrans; [apply filter_filter_length|]. done.
Qed.

(** What a call does to the questions. *)
Lemma after_questions st c :
  questions (after st c) =
  match c with
  | BatchDone _ qs => _ensure_15 qs
  | SingleDone _ index q =>
      if truthy (strip q)
      then match index_of (questions st) index with
           | Some i => <[i := strip q]> (questions st)
           | None => questions st
           end
      else questions st
  | TextEdit idx t =>
      if (0 <=? idx)%Z && (idx <? Z.of_nat (length (questions st)))%Z
      then <[Z.to_nat idx := strip t]> (questions st)
      else questions st
  | _ => questions st
  end.
Proof.
  destruct c as [w qs|w idx q|idx t|txt|lvl| | |w k png|w msg];
    cbn [Window.after].
  - by destruct (batch_done_state w qs st) as (-> & _).
  - unfold single_done.
    assert (truthy q && truthy (strip q) = truthy (strip q)) as ->
      by (by destruct q).
    destruct (truthy (strip q)); [|done].
    unfold _apply_single.
    destruct (index_of (questions st) idx) as [i|]; [|done].
    cbn [row_widgets set_questions].
    destruct (index_of (row_widgets st) idx) as [j|]; [|done].
    cbn [preview_visible set_questions set_row_widgets].
    by destruct (preview_visible st).
  - unfold on_text_edit.
    by destruct ((0 <=? idx)%Z && (idx <? Z.of_nat (length (questions st)))%Z).
  - done.
  - done.
  - unfold render_exact_now.
    destruct (start_exact_render_state
                (queue_exact (if negb (preview_visible st) then show st else st)))
      as (-> & _).
    by destruct (preview_visible st).
  - by destruct (start_exact_render_state st) as (-> & _).
  - by destruct (on_done_state w k png st) as (-> & _).
  - done.
Qed.

(** What a call needs for the question marks to stay. *)
Lemma after_qmarks st c :
  match c with
  | BatchDone _ qs => Forall ends_with_qmark qs
  | SingleDone _ _ q => endswith q [QMARK] = true
  | TextEdit _ t => endswith t [QMARK] = true
  | _ => True
  end →
  Forall ends_with_qmark (questions st) →
  Forall ends_with_qmark (questions (after st c)).
Proof.
  intros Hc Hq. destruct c as [w qs|w idx q|idx t|txt|lvl| | |w k png|w msg];
    cbn [Window.after].
  - destruct (batch_done_state w qs st) as (-> & _).
    by apply ensure_15_endswith.
  - apply single_done_state; [by apply endswith_strip | done].
  - unfold on_text_edit.
    destruct ((0 <=? idx)%Z && (idx <? Z.of_nat (length (questions st)))%Z);
      simpl; [|done].
    apply Forall_insert; [done|]. by apply endswith_strip.
  - done.
  - done.
  - unfold render_exact_now.
    destruct (start_exact_render_state
                (queue_exact (if negb (preview_visible st) then show st else st)))
      as (-> & _).
    by destruct (preview_visible st).
  - by destruct (start_exact_render_state st) as (-> & _).
  - by destruct (on_done_state w k png st) as (-> & _).
  - done.
Qed.

End WindowFacts.

(** X5. The callback [done] of [generate_with_gemini], on the list
    that [GeminiBatchWorker.run] emits for a reply: the window then
    holds the 15 entries of that list, each with its white space
    normalised and each ending with a question mark; there is one row
    for every question, with its text, shown as real content and not
    as regenerated; the worker is no longer among the workers. *)
Theorem batch_done_fifteen
    (lower : Py.str → Py.str) (w : App.worker) (text : option Py.str)
    (st : App.state) :
  let qs := Gemini.batch_questions lower text in
  let st' := (Window.batch_done w qs st).1 in
  App.questions st' = normalize <$> qs ∧
  length (App.questions st') = 15%nat ∧
  Forall (λ q, Py.endswith q [QMARK] = true) (App.questions st') ∧
  App.row_widgets st'
  = (λ q, {| App.row_text := q; App.real_content := true;
             App.regenerated := false |}) <$> App.questions st' ∧
  w ∉ App._workers st'.
Proof.
  intros qs st'. subst st'.
  destruct (batch_questions_eq lower text) as (_ & Hlen & Hq). fold qs in Hlen, Hq.
  destruct (batch_done_state w qs st) as (-> & -> & -> & _).
  rewrite <- ensure_15_normalize; [|done|].
  - split; [done|]. split; [apply ensure_15_length|].
    split; [by apply ensure_15_endswith|]. split; [done|].
    intros [Hw _]%list_elem_of_filter. done.
  - eapply Forall_impl; [done|]. apply endswith_kept.
Qed.

(** X6. The calls that the window receives keep the number of
    questions and the number of rows: a window with 15 questions and
    15 rows has 15 of each after any sequence of batches,
    regenerations, edits, changes of title or level, renders and
    results of renders, whatever their arguments. *)
Theorem window_keeps_fifteen
    (sha1_hexdigest : list N → Py.str) (encode_utf8 : Py.str → list N)
    (calls : list Window.call) (st : App.state) :
  length (App.questions st) = 15%nat →
  length (App.row_widgets st) = 15%nat →
  let st' := foldl (Window.after sha1_hexdigest encode_utf8) st calls in
  length (App.questions st') = 15%nat ∧
  length (App.row_widgets st') = 15%nat.
Proof.
  revert st. induction calls as [|c calls IH]; intros st Hq Hr; simpl; [done|].
  destruct (after_lengths sha1_hexdigest encode_utf8 st c Hq Hr).
  by apply IH.
Qed.

Lemma window_keeps_fifteen_witness :
  let st := {| App.unit_title := Py.lit "Travel"; App.level := Py.lit "B2";
               App.questions := Window.PLACEHOLDERS;
               App.row_widgets := Window.fresh_row <$> Window.PLACEHOLDERS;
               App.preview_visible := true; App.page := None;
               App.overlay := None; App.files := ∅; App._workers := [] |} in
  let st' := foldl (Window.after (λ b, b) (λ s, s)) st
               [Window.TextEdit 20 (Py.lit "Hi");
                Window.BatchDone (App.OtherWorker 0) [Py.lit "Why?"];
                Window.SingleDone (App.OtherWorker 1) (-1) (Py.lit " Who? ");
                Window.TextEdit 3 []] in
  length (App.questions st') = 15%nat ∧ length (App.row_widgets st') = 15%nat.
Proof.
  cbv zeta. apply window_keeps_fifteen; reflexivity.
Defined.

(** X7. The calls write the questions in three ways only: a batch
    result replaces them by [_ensure_15] of its list; a regeneration
    result whose text is not blank, and an edit, replace the question
    at their index, when it is an index of the list, by the stripped
    text; every other call leaves the questions as they are.  So the
    question marks stay as long as every text that comes in has one:
    if the questions of the window all end with a question mark, they
    still do after any sequence of calls in which the batches bring
    lists of such questions, and the regenerations and the edits bring
    such a text. *)
Theorem window_keeps_question_marks
    (sha1_hexdigest : list N → Py.str) (encode_utf8 : Py.str → list N) :
  (∀ st c,
     App.questions (Window.after sha1_hexdigest encode_utf8 st c) =
     match c with
     | Window.BatchDone _ qs => _ensure_15 qs
     | Window.SingleDone _ index q =>
         if Py.truthy (Py.strip q)
         then match App.index_of (App.questions st) index with
              | Some i => <[i := Py.strip q]> (App.questions st)
              | None => App.questions st
              end
         else App.questions st
     | Window.TextEdit idx t =>
         if (0 <=? idx)%Z && (idx <? Z.of_nat (length (App.questions st)))%Z
         then <[Z.to_nat idx := Py.strip t]> (App.questions st)
         else App.questions st
     | _ => App.questions st
     end) ∧
  (∀ calls st,
     Forall (λ c, match c with
                  | Window.BatchDone _ qs =>
                      Forall (λ q, Py.endswith q [QMARK] = true) qs
                  | Window.SingleDone _ _ q => Py.endswith q [QMARK] = true
                  | Window.TextEdit _ t => Py.endswith t [QMARK] = true
                  | _ => True
                  end) calls →
     Forall (λ q, Py.endswith q [QMARK] = true) (App.questions st) →
     Forall (λ q, Py.endswith q [QMARK] = true)
            (App.questions
               (foldl (Window.after sha1_hexdigest encode_utf8) st calls))).
Proof.
  split; [apply after_questions|].
  intros calls. induction calls as [|c calls IH]; intros st Hc Hq; simpl; [done|].
  apply Forall_cons in Hc as [Hc Hcalls].
  apply IH; [done|]. by apply after_qmarks.
Qed.

Lemma window_keeps_question_marks_witness :
  let st := {| App.unit_title := Py.lit "Travel"; App.level := Py.lit "B2";
               App.questions := [Py.lit "a?"; Py.lit "b?"; Py.lit "c?"];
               App.row_widgets := [];
               App.preview_visible := false; App.page := None;
               App.overlay := None; App.files := ∅; App._workers := [] |} in
  Forall (λ q, Py.endswith q [QMARK] = true)
         (App.questions
            (foldl (Window.after (λ b, b) (λ s, s)) st
               [Window.TextEdit 1 (Py.lit " Where to?");
                Window.BatchDone (App.OtherWorker 0) [Py.lit "Why?"];
                Window.SingleDone (App.OtherWorker 1) 2 (Py.lit "Who?");
                Window.TitleChanged (Py.lit "Food")])).
Proof.
  cbv zeta. apply (proj2 (window_keeps_question_marks (λ b, b) (λ s, s))).
  - repeat (apply Forall_cons; split); try apply Forall_nil;
      try exact I; reflexivity.
  - repeat (apply Forall_cons; split); try apply Forall_nil; reflexivity.
Defined.

(** X8. The window never keeps more than one preview worker: with
    at most one among its workers, there is at most one after any
    sequence of calls, and exactly the new one after a render has been
    started. *)
Theorem at_most_one_preview_worker
    (sha1_hexdigest : list N → Py.str) (encode_utf8 : Py.str → list N)
    (calls : list Window.call) (st : App.state) :
  (length (filter (λ w, App.is_preview w = true) (App._workers st)) ≤ 1)%nat →
  (length (filter (λ w, App.is_preview w = true)
             (App._workers (foldl (Window.after sha1_hexdigest encode_utf8)
                              st calls))) ≤ 1)%nat ∧
  filter (λ w, App.is_preview w = true)
    (App._workers (App._start_exact_render sha1_hexdigest encode_utf8 st).1)
  = [App.PreviewWorker (App._content_key sha1_hexdigest encode_utf8 st)
       (App.unit_title st) (App.level st) (App.questions st)].
Proof.
  intros Hp. split.
  - revert st Hp. induction calls as [|c calls IH]; intros st Hp; simpl; [done|].
    apply IH. by apply after_previews.
  - unfold App._start_exact_render. simpl. by apply previews_renewed.
Qed.

Lemma at_most_one_preview_worker_witness :
  let st := {| App.unit_title := Py.lit "Travel"; App.level := Py.lit "B2";
               App.questions := [Py.lit "a?"; Py.lit "b?"; Py.lit "c?"];
               App.row_widgets := [];
               App.preview_visible := false; App.page := None;
               App.overlay := None; App.files := ∅;
               App._workers := [App.OtherWorker 0] |} in
  (length (filter (λ w, App.is_preview w = true)
             (App._workers
                (foldl (Window.after (λ b, b) (λ s, s)) st
                   [Window.RenderExactNow; Window.TitleChanged (Py.lit "Food");
                    Window.RenderExactNow; Window.TimerRender]))) ≤ 1)%nat.
Proof.
  cbv zeta.
  refine (proj1 (at_most_one_preview_worker (λ b, b) (λ s, s) _ _ _)).
  simpl. lia.
Defined.

(** ** Versions and the updater, further *)

Section VersionMore.
Import Py.
Implicit Types (s t w pre suf rest bef aft : str) (c : char) (l : list N).

Local Abbreviation no_digit := (λ c : char, negb (isdecimal c)).
Local Abbreviation step := (λ (acc : N) (c : char), 10 * acc + digit_value c).
Local Abbreviation runs_from := (Re.findall_from DIGITS 0).

(** One step of [findall] on the pattern of digits: a character that
    is no digit is passed; a digit starts a match, which is the whole
    run of digits. *)
Lemma findall_other c aft bef :
  isdecimal c = false → runs_from bef (c :: aft) = runs_from (c :: bef) aft.
Proof.
  intros Hc. simpl. unfold Re.match_at, DIGITS. cbn [Re.run]. by rewrite Hc.
Qed.

Lemma findall_run c w rest bef :
  isdecimal c = true → forallb isdecimal w = true → stops isdecimal rest →
  runs_from bef (c :: w ++ rest)
  = (c :: w) :: runs_from (rev w ++ c :: bef) rest.
Proof.
  intros Hc Hw Hrest. simpl. unfold Re.match_at, DIGITS. cbn [Re.run].
  rewrite Hc. rewrite star_max by done. unfold Re.len_matched. cbn [Re.upto].
  rewrite length_app, length_rev. simpl length.
  replace (length w + S (length bef) - length bef)%nat
    with (S (length w)) by lia.
  rewrite findall_skip. by rewrite consumed_app_cons.
Qed.

(** The matches do not depend on what comes before. *)
Lemma findall_bef aft : ∀ bef bef', runs_from bef aft = runs_from bef' aft.
Proof.
  induction aft as [aft IH] using (induction_ltof1 _ (@length _)).
  unfold ltof in IH. intros bef bef'. destruct aft as [|c aft]; [done|].
  destruct (isdecimal c) eqn:Hc.
  - destruct (span_run isdecimal aft) as (w & rest & -> & Hw & Hrest).
    rewrite !findall_run by done. f_equal.
    apply IH. simpl. rewrite length_app. lia.
  - rewrite !findall_other by done. apply IH. simpl. lia.
Qed.

Lemma findall_no_digit suf : ∀ bef,
  forallb no_digit suf = true → runs_from bef suf = [].
Proof.
  induction suf as [|c suf IH]; intros bef Hsuf; [done|].
  simpl in Hsuf. apply andb_true_iff in Hsuf as [Hc Hsuf].
  apply negb_true_iff in Hc. rewrite findall_other by done. by apply IH.
Qed.

Lemma stops_app_no_digit rest suf :
  stops isdecimal rest → forallb no_digit suf = true →
  stops isdecimal (rest ++ suf).
Proof.
  intros Hrest Hsuf. destruct rest as [|c rest]; [|done].
  destruct suf as [|c suf]; [done|]. simpl in *.
  apply andb_true_iff in Hsuf as [Hc _]. by apply negb_true_iff in Hc.
Qed.

Lemma findall_suffix aft : ∀ bef suf,
  forallb no_digit suf = true →
  runs_from bef (aft ++ suf) = runs_from bef aft.
Proof.
  induction aft as [aft IH] using (induction_ltof1 _ (@length _)).
  unfold ltof in IH. intros bef suf Hsuf. destruct aft as [|c aft].
  - by apply findall_no_digit.
  - destruct (isdecimal c) eqn:Hc.
    + destruct (span_run isdecimal aft) as (w & rest & -> & Hw & Hrest).
      rewrite <- app_comm_cons, <- app_assoc.
      rewrite !findall_run by (try done; by apply stops_app_no_digit).
      f_equal. apply IH; [|done]. simpl. rewrite length_app. lia.
    + rewrite <- app_comm_cons. rewrite !findall_other by done.
      apply IH; [|done]. simpl. lia.
Qed.

Lemma findall_prefix pre s : ∀ bef,
  forallb no_digit pre = true →
  runs_from bef (pre ++ s) = runs_from bef s.
Proof.
  induction pre as [|c pre IH]; intros bef Hpre; [done|].
  simpl in Hpre. apply andb_true_iff in Hpre as [Hc Hpre].
  apply negb_true_iff in Hc. rewrite <- app_comm_cons.
  rewrite findall_other by done. rewrite IH by done. apply findall_bef.
Qed.

Lemma in_run_ascii k : k < 10 → in_run 0x30 (0x30 + k) = true.
Proof.
  intros Hk. unfold in_run. apply andb_true_iff.
  split; [apply N.leb_le | apply N.ltb_lt]; lia.
Qed.

Lemma digit_value_ascii k : k < 10 → digit_value (0x30 + k) = k.
Proof.
  intros Hk. unfold digit_value, DIGIT_ZEROS. cbn [find].
  rewrite in_run_ascii by done. lia.
Qed.

Lemma isdecimal_ascii k : k < 10 → isdecimal (0x30 + k) = true.
Proof.
  intros Hk. unfold isdecimal, DIGIT_ZEROS. cbn [existsb].
  by rewrite in_run_ascii.
Qed.

(** The digits that [str] writes are decimal digits, and [int] reads
    the number back. *)
Lemma digits_of_spec fuel : ∀ n acc,
  n < 2 ^ N.of_nat fuel → forallb isdecimal acc = true →
  forallb isdecimal (digits_of fuel n acc) = true ∧
  fold_left step (digits_of fuel n acc) 0 = fold_left step acc n.
Proof.
  induction fuel as [|fuel IH]; intros n acc Hn Hacc.
  - simpl in *. assert (n = 0) as -> by lia. done.
  - cbn [digits_of]. cbv zeta.
    assert (n mod 10 < 10) as Hmod by (apply N.mod_lt; lia).
    assert (forallb isdecimal ((0x30 + n mod 10) :: acc) = true) as Hacc'.
    { simpl. by rewrite isdecimal_ascii, Hacc. }
    pose proof (N.div_mod n 10 ltac:(lia)) as Hdm.
    destruct (N.eqb_spec (n / 10) 0) as [E|E].
    + split; [done|]. cbn [fold_left].
      rewrite digit_value_ascii by done. f_equal. lia.
    + destruct (IH (n / 10) ((0x30 + n mod 10) :: acc)) as [H1 H2];
        [|done|].
      * apply N.Div0.div_lt_upper_bound.
        rewrite Nat2N.inj_succ, N.pow_succ_r' in Hn. lia.
      * split; [done|]. rewrite H2. cbn [fold_left].
        rewrite digit_value_ascii by done. f_equal. lia.
Qed.

Lemma str_of_N_spec n :
  str_of_N n ≠ [] ∧ forallb isdecimal (str_of_N n) = true ∧
  int_of_digits (str_of_N n) = n.
Proof.
  unfold str_of_N, int_of_digits. split.
  - cbn [digits_of]. cbv zeta. destruct (n / 10 =? 0); [done|].
    generalize (N.to_nat (N.log2 n)). intros fuel.
    assert (∀ f m acc, acc ≠ [] → digits_of f m acc ≠ []) as H.
    { induction f as [|f IH]; intros m acc Hacc; simpl; [done|].
      destruct (m / 10 =? 0); [done|]. by apply IH. }
    by apply H.
  - apply (digits_of_spec (S (N.to_nat (N.log2 n))) n []); [|done].
    rewrite Nat2N.inj_succ, N2Nat.id.
    destruct (N.eq_dec n 0) as [->|Hn]; [done|].
    apply N.log2_spec. lia.
Qed.

(** The number of digits that [str] writes. *)
Lemma digits_of_length fuel : ∀ n acc k,
  n < 10 ^ N.of_nat (S k) →
  (length (digits_of fuel n acc) ≤ length acc + S k)%nat.
Proof.
  induction fuel as [|fuel IH]; intros n acc k Hn; [simpl; lia|].
  cbn [digits_of]. cbv zeta.
  destruct (N.eqb_spec (n / 10) 0) as [E|E]; [simpl; lia|].
  destruct k as [|k].
  - change (10 ^ N.of_nat 1) with 10 in Hn.
    exfalso. apply E. by apply N.div_small.
  - etrans; [apply (IH _ _ k)|simpl; lia].
    apply N.Div0.div_lt_upper_bound.
    by rewrite (Nat2N.inj_succ (S k)), N.pow_succ_r' in Hn.
Qed.

Lemma str_of_N_length n k :
  n < 10 ^ N.of_nat (S k) → (length (str_of_N n) ≤ S k)%nat.
Proof. intros Hn. by apply (digits_of_length _ n [] k). Qed.

(** The runs of digits of numbers joined by dots are the numbers as
    [str] writes them. *)
Lemma findall_dotted l : ∀ bef,
  l ≠ [] → runs_from bef (join [0x2E] (str_of_N <$> l)) = str_of_N <$> l.
Proof.
  induction l as [|n l IH]; intros bef Hl; [done|].
  destruct (str_of_N_spec n) as (Hne & Hdec & _).
  destruct (str_of_N n) as [|c w] eqn:En; [done|].
  simpl in Hdec. apply andb_true_iff in Hdec as [Hc Hw].
  destruct l as [|m l].
  - simpl. rewrite En.
    pose proof (findall_run c w [] bef Hc Hw I) as H.
    rewrite app_nil_r in H. by rewrite H.
  - change (join [0x2E] (str_of_N <$> n :: m :: l))
      with (str_of_N n ++ [0x2E] ++ join [0x2E] (str_of_N <$> m :: l)).
    rewrite En. rewrite <- app_comm_cons.
    rewrite findall_run by done.
    change (str_of_N <$> n :: m :: l)
      with (str_of_N n :: (str_of_N <$> m :: l)).
    rewrite En. f_equal.
    change ([0x2E] ++ join [0x2E] (str_of_N <$> m :: l))
      with (0x2E :: join [0x2E] (str_of_N <$> m :: l)).
    rewrite findall_other by done. by apply IH.
Qed.

End VersionMore.

(** X9. [version_tuple] reads the runs of digits only: text without
    digits before or after a version string changes nothing, neither
    the tuple nor the exception, so that a release and its pre-release
    of the same number have the same tuple, and neither is newer than
    the other. *)
Theorem version_tuple_ignores_affixes (pre s suf : Py.str) :
  forallb (λ c, negb (Py.isdecimal c)) pre = true →
  forallb (λ c, negb (Py.isdecimal c)) suf = true →
  version_tuple (pre ++ s ++ suf) = version_tuple s ∧
  ∀ a b, version_tuple (pre ++ s ++ suf) = Py.Return a →
         version_tuple s = Py.Return b →
         tuple_gt a b = false ∧ tuple_gt b a = false.
Proof.
  intros Hpre Hsuf.
  assert (version_tuple (pre ++ s ++ suf) = version_tuple s) as ->.
  { unfold version_tuple, Re.findall.
    assert (∀ x y, x ≠ [] → Py.or_else x y = x) as Hor
      by (by intros [|??] ??).
    destruct (decide (pre ++ s ++ suf = [])) as [E|E].
    - apply app_eq_nil in E as [-> [-> ->]%app_eq_nil]. done.
    - rewrite Hor by done. rewrite findall_prefix by done.
      rewrite findall_suffix by done.
      destruct s as [|c s]; [done|]. by rewrite Hor. }
  split; [done|]. intros a b -> [= ->].
  unfold tuple_gt. by rewrite tuple_lt_irrefl.
Qed.

Lemma version_tuple_ignores_affixes_witness :
  version_tuple (Py.lit "v" ++ Py.lit "0.23" ++ Py.lit " BETA")
  = version_tuple (Py.lit "0.23").
Proof.
  refine (proj1 (version_tuple_ignores_affixes (Py.lit "v") (Py.lit "0.23")
                   (Py.lit " BETA") _ _)); reflexivity.
Defined.

(** X10. [version_tuple] reads back the integers of a version written
    in the usual way: for a tuple that is not empty, of numbers below
    10 to the power 4300 (those whose decimal form has at most 4300
    digits, the limit of [int]), the decimal numbers joined by dots
    give the tuple. *)
Theorem version_tuple_of_dotted (l : list N) :
  l ≠ [] → Forall (λ n, n < 10 ^ 4300) l →
  version_tuple (Py.join [0x2E%N] (Py.str_of_N <$> l)) = Py.Return l.
Proof.
  intros Hl Hsmall.
  assert (Py.join [0x2E%N] (Py.str_of_N <$> l) ≠ []) as Hne.
  { destruct l as [|n l]; [done|].
    destruct (str_of_N_spec n) as (Hn & _).
    destruct l; simpl; [done|]. by destruct (Py.str_of_N n). }
  unfold version_tuple, Re.findall.
  replace (Py.or_else (Py.join [0x2E%N] (Py.str_of_N <$> l)) (Py.lit "0"))
    with (Py.join [0x2E%N] (Py.str_of_N <$> l))
    by (by destruct (Py.join [0x2E%N] (Py.str_of_N <$> l))).
  rewrite findall_dotted by done.
  rewrite ints_short.
  - rewrite <- list_fmap_compose.
    replace (Py.int_of_digits ∘ Py.str_of_N <$> l) with l; [by destruct l|].
    clear. induction l as [|n l IH]; [done|]. simpl.
    destruct (str_of_N_spec n) as (_ & _ & ->). by f_equal.
  - apply Forall_fmap. eapply Forall_impl; [exact Hsmall|].
    intros n Hn. simpl. by apply (str_of_N_length n 4299).
Qed.

Lemma version_tuple_of_dotted_witness :
  version_tuple (Py.join [0x2E%N] (Py.str_of_N <$> [1; 20; 305]))
  = Py.Return [1; 20; 305].
Proof.
  apply version_tuple_of_dotted; [discriminate|].
  repeat (apply Forall_cons; split); try apply Forall_nil; by vm_compute.
Defined.

Section UpdaterMore.
Import Py Updater.
Variable lower : str → str.
Variable sha256_of_file : str → str.
Variable current_executable_path : str.
Variable replace_ends : str → str → replace_outcome.

Local Abbreviation on_done :=
  (Updater.on_done lower sha256_of_file current_executable_path replace_ends).

(** When there is no digest to compare with, or the digests are equal
    up to case, [on_done] goes on to [begin_update_replace]. *)
Lemma on_done_passes d path g :
  truthy (default [] (dl_sha d)) = false ∨
  lower (sha256_of_file path) = lower (default [] (dl_sha d)) →
  on_done d path g
  = ((begin_update_replace replace_ends path current_executable_path g).1,
     [CloseProgress;
      Information (lit "Updater")
        (lit "Update downloaded. The app will exit to finalize.")]
     ++ (begin_update_replace replace_ends path current_executable_path g).2).
Proof.
  intros H. unfold Updater.on_done, on_done_body.
  assert (truthy (default [] (dl_sha d))
          && negb (bool_decide (lower (sha256_of_file path)
                                = lower (default [] (dl_sha d)))) = false) as ->.
  { destruct H as [->| ->]; [done|].
    rewrite bool_decide_eq_true_2 by done. apply andb_false_r. }
  by destruct (begin_update_replace replace_ends path current_executable_path g).
Qed.

Lemma begin_update_replace_called path g :
  BeginUpdateReplace path current_executable_path
  ∈ (begin_update_replace replace_ends path current_executable_path g).2.
Proof.
  unfold begin_update_replace.
  destruct (replace_ends path current_executable_path); apply list_elem_of_here.
Qed.

Lemma check_fetches pane f accepted g :
  UPDATE_IN_PROGRESS g = false →
  FetchManifest ∈ events (check_for_updates pane f accepted g).
Proof.
  intros Hg. unfold check_for_updates. rewrite Hg.
  destruct f as [m|e]; [|apply list_elem_of_here].
  destruct (compare_versions tuple_le (latest_of m)) as [[|]|e];
    [apply list_elem_of_here| |apply list_elem_of_here].
  destruct (negb accepted); apply list_elem_of_here.
Qed.

End UpdaterMore.

(** X11. A manifest without a sha256 value (absent, or empty) makes
    the updater install the download unchecked: when the user accepts
    the update, the download that [check_for_updates] starts goes on
    to [begin_update_replace] with any file, whatever its digest. *)
Theorem update_without_sha256_unchecked
    (lower : Py.str → Py.str) (exe : Py.str)
    (replace_ends : Py.str → Py.str → Updater.replace_outcome)
    (pane : bool) (m : Updater.manifest) (g : Updater.globals) :
  Updater.UPDATE_IN_PROGRESS g = false →
  Updater.newer m = true →
  Updater.m_sha256 m = None ∨ Updater.m_sha256 m = Some [] →
  let r := Updater.check_for_updates pane (Updater.Fetched m) true g in
  ∃ d, Updater.started r = Some d ∧
       ∀ (sha256_of_file : Py.str → Py.str) (path : Py.str),
         Updater.BeginUpdateReplace path exe
         ∈ (Updater.on_done lower sha256_of_file exe replace_ends d path
              (Updater.globals_after r)).2.
Proof.
  intros Hg Hm Hsha r.
  destruct (check_accepted pane m g Hg Hm) as (_ & _ & Hd). fold r in Hd.
  eexists. split; [exact Hd|]. intros sha256_of_file path.
  rewrite on_done_passes by (left; simpl; by destruct Hsha as [-> | ->]).
  cbn [snd]. do 2 apply list_elem_of_further.
  apply begin_update_replace_called.
Qed.

Lemma update_without_sha256_unchecked_witness :
  let m := {| Updater.m_version := Some (Py.lit "1.0");
              Updater.m_url := Some (Py.lit "https://example.org/app.exe");
              Updater.m_sha256 := None; Updater.m_notes := None |} in
  ∃ d, Updater.started
         (Updater.check_for_updates false (Updater.Fetched m) true
            {| Updater.UPDATE_IN_PROGRESS := false |}) = Some d ∧
       ∀ (sha256_of_file : Py.str → Py.str) (path : Py.str),
         Updater.BeginUpdateReplace path (Py.lit "app.exe")
         ∈ (Updater.on_done Py.ascii_lower sha256_of_file (Py.lit "app.exe")
              (λ _ _, Updater.Replaced) d path
              (Updater.globals_after
                 (Updater.check_for_updates false (Updater.Fetched m) true
                    {| Updater.UPDATE_IN_PROGRESS := false |}))).2.
Proof.
  cbv zeta.
  apply (update_without_sha256_unchecked Py.ascii_lower (Py.lit "app.exe")
           (λ _ _, Updater.Replaced) false _ _);
    [reflexivity | by vm_compute | by left].
Defined.

(** X12. What follows a download that passes the check of [on_done]
    (no digest to compare with, or equal digests) while the flag is
    set: if [begin_update_replace] fails with an exception the flag is
    cleared, and the next [check_for_updates] asks the server again;
    if it finds the lock of another update the flag stays set, and
    the next [check_for_updates] is refused without asking the
    server. *)
Theorem update_after_finalisation
    (lower sha256_of_file : Py.str → Py.str) (exe : Py.str)
    (replace_ends : Py.str → Py.str → Updater.replace_outcome)
    (d : Updater.download) (path : Py.str) (g : Updater.globals) :
  Updater.UPDATE_IN_PROGRESS g = true →
  Py.truthy (default [] (Updater.dl_sha d)) = false ∨
  lower (sha256_of_file path) = lower (default [] (Updater.dl_sha d)) →
  let g' := (Updater.on_done lower sha256_of_file exe replace_ends d path g).1 in
  (∀ e, replace_ends path exe = Updater.ReplaceError e →
        Updater.UPDATE_IN_PROGRESS g' = false ∧
        ∀ pane f accepted,
          Updater.FetchManifest
          ∈ Updater.events (Updater.check_for_updates pane f accepted g')) ∧
  (replace_ends path exe = Updater.Locked →
   Updater.UPDATE_IN_PROGRESS g' = true ∧
   ∀ pane f accepted,
     Updater.started (Updater.check_for_updates pane f accepted g') = None ∧
     Updater.FetchManifest
     ∉ Updater.events (Updater.check_for_updates pane f accepted g')).
Proof.
  intros Hg Hpass g'. subst g'. rewrite on_done_passes by done. cbn [fst].
  unfold Updater.begin_update_replace. split.
  - intros e ->. cbn [fst]. split; [done|]. intros pane f accepted.
    by apply check_fetches.
  - intros ->. cbn [fst]. split; [done|]. intros pane f accepted.
    rewrite check_guarded by done. cbn. split; [done|].
    intros H. elem_cases H.
Qed.

Lemma update_after_finalisation_witness :
  let d := {| Updater.dl_url := None; Updater.dl_sha := Some (Py.lit "AB12") |} in
  Updater.UPDATE_IN_PROGRESS
    (Updater.on_done Py.ascii_lower (λ _, Py.lit "ab12") (Py.lit "app.exe")
       (λ _ _, Updater.ReplaceError (Py.lit "disk full")) d
       (Py.lit "/tmp/upd_1.bin") {| Updater.UPDATE_IN_PROGRESS := true |}).1
  = false.
Proof.
  cbv zeta.
  refine (proj1 (proj1 (update_after_finalisation Py.ascii_lower
                          (λ _, Py.lit "ab12") (Py.lit "app.exe")
                          (λ _ _, Updater.ReplaceError (Py.lit "disk full"))
                          _ (Py.lit "/tmp/upd_1.bin")
                          {| Updater.UPDATE_IN_PROGRESS := true |} _ _)
                   (Py.lit "disk full") _));
    [reflexivity | right; reflexivity | reflexivity].
Defined.

(** ** The documents that are saved *)

Section DocxMore.
Import Py Docx.
Implicit Types (d head : document) (p : paragraph) (qs : list str).

Lemma find_discussion_Some d idx :
  find_discussion d = Some idx → (idx < length d)%nat.
Proof.
  unfold find_discussion. intros ([i x] & H & ->)%fmap_Some.
  apply list_find_Some in H as (H & _). by apply lookup_lt_Some in H.
Qed.

Lemma question_paragraphs_length prefix style_name qs :
  length (question_paragraphs prefix style_name qs) = length qs.
Proof. unfold question_paragraphs. apply length_imap. Qed.

(** What is kept of the document: the paragraphs up to the marker and
    those after it that come before the first numbered item. *)
Lemma kept_part_structure d idx_disc :
  (idx_disc < length d)%nat →
  let head :=
    match first_item d idx_disc with
    | Some (i, _) => take i d
    | None => take (S idx_disc) d
    end in
  head `prefix_of` d ∧ (idx_disc < length head)%nat ∧
  ∀ j p, (idx_disc < j)%nat → head !! j = Some p → ¬ is_first_item p.
Proof.
  intros Hidx. unfold first_item.
  destruct (list_find is_first_item (drop (S idx_disc) d)) as [[i0 p0]|] eqn:E;
    simpl.
  - apply list_find_Some in E as (Hl & Hp & Hmin).
    split; [apply prefix_take|]. split; [rewrite length_take; lia|].
    intros j p Hj [Hjp Hlt]%lookup_take_Some.
    apply (Hmin (j - S idx_disc)%nat); [|lia].
    rewrite lookup_drop. by replace (S idx_disc + (j - S idx_disc))%nat with j by lia.
  - split; [apply prefix_take|]. split; [rewrite length_take; lia|].
    intros j p Hj [_ Hlt]%lookup_take_Some. lia.
Qed.

Lemma fill_export_structure d idx_disc qs :
  (idx_disc < length d)%nat →
  ∃ head prefix style_name,
    fill_export d idx_disc qs = head ++ question_paragraphs prefix style_name qs ∧
    head `prefix_of` d ∧ (idx_disc < length head)%nat ∧
    ∀ j p, (idx_disc < j)%nat → head !! j = Some p → ¬ is_first_item p.
Proof.
  intros Hidx. pose proof (kept_part_structure d idx_disc Hidx) as H.
  unfold fill_export. destruct (first_item d idx_disc) as [[i p]|];
    cbv zeta in H; eauto.
Qed.

Lemma fill_preview_structure d idx_disc qs :
  (idx_disc < length d)%nat →
  ∃ head prefix style_name,
    fill_preview d idx_disc qs = head ++ question_paragraphs prefix style_name qs ∧
    head `prefix_of` d ∧ (idx_disc < length head)%nat ∧
    ∀ j p, (idx_disc < j)%nat → head !! j = Some p → ¬ is_first_item p.
Proof.
  intros Hidx. pose proof (kept_part_structure d idx_disc Hidx) as H.
  unfold fill_preview. destruct (first_item d idx_disc) as [[i p]|];
    cbv zeta in H; eauto.
Qed.

Lemma replace_level_and_title_length unit_title level d idx_disc :
  length (_replace_level_and_title unit_title level d idx_disc) = length d.
Proof.
  unfold _replace_level_and_title.
  by rewrite length_app, length_fmap, <- length_app, take_drop.
Qed.

End DocxMore.

(** X13. The document that [export_docx] saves goes to the chosen
    path and is made of two parts: a beginning of the template (after
    the substitution of title and level) that holds the marker and no
    first numbered item after it, and then the question paragraphs of
    [_ensure_15(self.questions)], exactly 15, whatever the questions
    of the window are. *)
Theorem export_docx_document
    (TEMPLATE_PATH unit_title level : Py.str) (questions : list Py.str)
    (chosen : Py.str) (deps : option Py.str) (template : Docx.template_file)
    (path : Py.str) (d' : Docx.document) :
  Docx.Save path d'
  ∈ Docx.export_docx TEMPLATE_PATH unit_title level questions chosen deps template →
  path = chosen ∧
  ∃ d idx_disc head prefix style_name,
    template = Docx.Template d ∧
    Docx.find_discussion (Docx.substitute_export unit_title level d) = Some idx_disc ∧
    head `prefix_of` Docx.substitute_export unit_title level d ∧
    (idx_disc < length head)%nat ∧
    (∀ j p, (idx_disc < j)%nat → head !! j = Some p → ¬ Docx.is_first_item p) ∧
    d' = head ++ Docx.question_paragraphs prefix style_name (_ensure_15 questions) ∧
    length d' = (length head + 15)%nat.
Proof.
  unfold Docx.export_docx.
  destruct (negb (Py.truthy unit_title) || negb (Py.truthy (Py.strip unit_title)));
    [intros H; elem_cases H|].
  destruct (negb (Py.truthy chosen)); [intros H; elem_cases H|].
  destruct deps; [intros H; elem_cases H|].
  destruct template as [|e|d]; try (intros H; by elem_cases H).
  destruct (Docx.find_discussion _) as [idx_disc|] eqn:E;
    [|intros H; elem_cases H].
  intros H. elem_cases H. split; [done|].
  destruct (fill_export_structure (Docx.substitute_export unit_title level d)
              idx_disc (_ensure_15 questions))
    as (head & prefix & style_name & E' & Hpre & Hlen & Hitems);
    [by apply find_discussion_Some|].
  exists d, idx_disc, head, prefix, style_name.
  repeat (split; [done|]).
  by rewrite E', length_app, question_paragraphs_length, ensure_15_length.
Qed.

Lemma export_docx_document_witness :
  ∃ path d',
    Docx.Save path d'
    ∈ Docx.export_docx (Py.lit "template.docx") (Py.lit "Travel") (Py.lit "B2")
        [Py.lit "Why?"] (Py.lit "out.docx") None
        (Docx.Template
           [ {| Docx.runs := [Py.lit "Discussion"]; Docx.style := Py.lit "Heading" |};
             {| Docx.runs := [Py.lit "1. Old?"]; Docx.style := Py.lit "List" |} ])
    ∧ path = Py.lit "out.docx" ∧ (15 < length d')%nat.
Proof.
  match goal with
  | |- ∃ path d', _ ∈ ?evs ∧ _ =>
      assert (∃ path d', Docx.Save path d' ∈ evs) as (path & d' & Hin)
        by (eexists _, _; vm_compute; apply list_elem_of_here)
  end.
  exists path, d'. split; [exact Hin|].
  destruct (export_docx_document _ _ _ _ _ _ _ _ _ Hin)
    as (-> & d & idx_disc & head & prefix & style_name
        & _ & _ & _ & Hhead & _ & _ & Hlen).
  split; [reflexivity|lia].
Defined.

Section PreviewRun.
Import Py Docx.
Variables tmp_docx tmp_png : str.

Local Abbreviation run := (Docx.run tmp_docx tmp_png).

(** The conversion that the preview worker calls. *)
Local Abbreviation conversion :=
  (λ (DEBUG_MODE : bool) (pdf_method : str) (attempt : Pdf.tool → option str),
     if DEBUG_MODE && negb (bool_decide (pdf_method = lit "reportlab"))
     then Pdf.convert_docx_to_pdf_with_method attempt pdf_method
     else Pdf.convert_docx_to_pdf attempt).

(** The events of a run that has found the marker. *)
Lemma run_marker debug key unit_title level questions pdf_method d idx_disc
    attempt raster :
  find_discussion d = Some idx_disc →
  run debug key unit_title level questions pdf_method None (Template d)
      attempt raster
  = [Save tmp_docx
       (fill_preview (_replace_level_and_title unit_title level d idx_disc)
          idx_disc questions);
     Convert (conversion debug pdf_method attempt).1]
    ++ match (conversion debug pdf_method attempt).2 with
       | Pdf.Written => []
       | Pdf.Raised e => [Failed (conversion_failed e)]
       end
    ++ match raster (conversion debug pdf_method attempt).2 with
       | None => [Done key tmp_png]
       | Some e => [Failed e]
       end.
Proof.
  intros E. unfold Docx.run. rewrite E.
  by destruct (if debug && _ then _ else _).
Qed.

(** The cases of a run: it stops early with one failure, or it saves
    the document and calls the conversion. *)
Lemma run_cases debug key unit_title level questions pdf_method deps template
    attempt raster :
  (∃ msg, run debug key unit_title level questions pdf_method deps template
              attempt raster = [Failed msg]) ∨
  (∃ d idx_disc, deps = None ∧ template = Template d ∧
                 find_discussion d = Some idx_disc).
Proof.
  unfold Docx.run. destruct deps; [by eauto|].
  destruct template as [|e|d]; [by eauto..|].
  destruct (find_discussion d) eqn:E; by eauto 6.
Qed.

Lemma run_done debug key unit_title level questions pdf_method deps template
    attempt raster k png :
  Done k png ∈ run debug key unit_title level questions pdf_method deps
                   template attempt raster →
  k = key ∧ png = tmp_png.
Proof.
  intros H.
  destruct (run_cases debug key unit_title level questions pdf_method deps
              template attempt raster)
    as [[msg E]|(d & idx_disc & -> & -> & E)].
  { rewrite E in H. elem_cases H. }
  rewrite (run_marker _ _ _ _ _ _ _ idx_disc) in H by done.
  destruct (_.2); destruct (raster _); elem_cases H; done.
Qed.

End PreviewRun.

(** X14. The document that [PreviewWorker.run] saves goes to the
    temporary path and is made of two parts: a beginning of the
    template (after the substitution of title and level up to the
    marker) that holds the marker and no first numbered item after
    it, and then one paragraph for every question that the worker was
    given, as it was given: the list is neither padded nor cut to 15,
    and no question is normalised. *)
Theorem preview_document
    (tmp_docx tmp_png : Py.str) (DEBUG_MODE : bool)
    (key unit_title level : Py.str) (questions : list Py.str)
    (pdf_method : Py.str) (deps : option Py.str)
    (template : Docx.template_file) (attempt : Pdf.tool → option Py.str)
    (raster : Pdf.outcome → option Py.str)
    (path : Py.str) (d' : Docx.document) :
  Docx.Save path d'
  ∈ Docx.run tmp_docx tmp_png DEBUG_MODE key unit_title level questions
      pdf_method deps template attempt raster →
  path = tmp_docx ∧
  ∃ d idx_disc head prefix style_name,
    template = Docx.Template d ∧
    Docx.find_discussion d = Some idx_disc ∧
    head `prefix_of` Docx._replace_level_and_title unit_title level d idx_disc ∧
    (idx_disc < length head)%nat ∧
    (∀ j p, (idx_disc < j)%nat → head !! j = Some p → ¬ Docx.is_first_item p) ∧
    d' = head ++ Docx.question_paragraphs prefix style_name questions ∧
    length d' = (length head + length questions)%nat.
Proof.
  intros H.
  destruct (run_cases tmp_docx tmp_png DEBUG_MODE key unit_title level questions
              pdf_method deps template attempt raster)
    as [[msg E]|(d & idx_disc & -> & -> & E)].
  { rewrite E in H. elem_cases H. }
  rewrite (run_marker _ _ _ _ _ _ _ _ _ idx_disc) in H by done.
  assert (path = tmp_docx ∧
          d' = Docx.fill_preview
                 (Docx._replace_level_and_title unit_title level d idx_disc)
                 idx_disc questions) as [-> ->].
  { destruct (_.2); destruct (raster _); elem_cases H; done. }
  split; [done|].
  destruct (fill_preview_structure
              (Docx._replace_level_and_title unit_title level d idx_disc)
              idx_disc questions)
    as (head & prefix & style_name & E' & Hpre & Hlen & Hitems).
  { rewrite replace_level_and_title_length. by apply find_discussion_Some. }
  exists d, idx_disc, head, prefix, style_name.
  repeat (split; [done|]).
  by rewrite E', length_app, question_paragraphs_length.
Qed.

Lemma preview_document_witness :
  ∃ path d',
    Docx.Save path d'
    ∈ Docx.run (Py.lit "preview.docx") (Py.lit "preview.png") false
        (Py.lit "k") (Py.lit "Travel") (Py.lit "B2") [Py.lit "Why?"; []]
        (Py.lit "reportlab") None
        (Docx.Template
           [ {| Docx.runs := [Py.lit "Discussion"]; Docx.style := Py.lit "Heading" |};
             {| Docx.runs := [Py.lit "1. Old?"]; Docx.style := Py.lit "List" |} ])
        (λ _, None) (λ _, None)
    ∧ path = Py.lit "preview.docx" ∧ (2 < length d')%nat.
Proof.
  match goal with
  | |- ∃ path d', _ ∈ ?evs ∧ _ =>
      assert (∃ path d', Docx.Save path d' ∈ evs) as (path & d' & Hin)
        by (eexists _, _; vm_compute; apply list_elem_of_here)
  end.
  exists path, d'. split; [exact Hin|].
  destruct (preview_document _ _ _ _ _ _ _ _ _ _ _ _ _ _ Hin)
    as (-> & d & idx_disc & head & prefix & style_name
        & _ & _ & _ & Hhead & _ & _ & Hlen).
  split; [reflexivity|]. simpl in Hlen. lia.
Defined.

(** X15. Every run of the preview worker ends with a signal, [done]
    or [failed].  [done] is emitted at most as the last event, with
    the key and the PNG path of the worker.  When the conversion to
    PDF raises, the worker emits [failed] for it and still goes on to
    the rendering; when that raises too, [failed] is emitted a second
    time. *)
Theorem preview_run_signals
    (tmp_docx tmp_png : Py.str) (DEBUG_MODE : bool)
    (key unit_title level : Py.str) (questions : list Py.str)
    (pdf_method : Py.str) (deps : option Py.str)
    (template : Docx.template_file) (attempt : Pdf.tool → option Py.str)
    (raster : Pdf.outcome → option Py.str) :
  let evs := Docx.run tmp_docx tmp_png DEBUG_MODE key unit_title level questions
               pdf_method deps template attempt raster in
  let conversion :=
    if DEBUG_MODE && negb (bool_decide (pdf_method = Py.lit "reportlab"))
    then Pdf.convert_docx_to_pdf_with_method attempt pdf_method
    else Pdf.convert_docx_to_pdf attempt in
  (∃ e, last evs = Some e ∧
        match e with Docx.Failed _ | Docx.Done _ _ => True | _ => False end) ∧
  (∀ k png, Docx.Done k png ∈ evs →
            k = key ∧ png = tmp_png ∧ last evs = Some (Docx.Done key tmp_png)) ∧
  (∀ d idx_disc e e2,
     deps = None → template = Docx.Template d →
     Docx.find_discussion d = Some idx_disc →
     conversion.2 = Pdf.Raised e → raster (Pdf.Raised e) = Some e2 →
     ∃ d', evs = [Docx.Save tmp_docx d'; Docx.Convert conversion.1;
                  Docx.Failed (Docx.conversion_failed e); Docx.Failed e2]).
Proof.
  intros evs conversion. subst evs.
  destruct (run_cases tmp_docx tmp_png DEBUG_MODE key unit_title level questions
              pdf_method deps template attempt raster)
    as [[msg E]|(d & idx_disc & -> & -> & E)].
  { rewrite E. split; [eexists; split; [reflexivity|exact I]|].
    split; [intros k png H; elem_cases H|].
    intros d idx_disc e e2 -> -> Hd. unfold Docx.run in E. rewrite Hd in E.
    by destruct (if DEBUG_MODE && _ then _ else _). }
  rewrite (run_marker _ _ _ _ _ _ _ _ _ idx_disc) by done.
  fold conversion. split; [|split].
  - destruct (conversion.2); destruct (raster _); simpl;
      (eexists; split; [reflexivity|exact I]).
  - intros k png H.
    destruct (conversion.2); destruct (raster _); elem_cases H; done.
  - intros d0 idx0 e e2 _ [= <-] Hd0 Hc Hr.
    rewrite Hc, Hr. eauto.
Qed.

Lemma preview_run_signals_witness :
  ∃ d', Docx.run (Py.lit "preview.docx") (Py.lit "preview.png") false
          (Py.lit "k") (Py.lit "Travel") (Py.lit "B2") [Py.lit "Why?"]
          (Py.lit "reportlab") None
          (Docx.Template
             [ {| Docx.runs := [Py.lit "Discussion"];
                  Docx.style := Py.lit "Heading" |} ])
          (λ _, Some (Py.lit "no converter"))
          (λ _, Some (Py.lit "no such file"))
        = [Docx.Save (Py.lit "preview.docx") d';
           Docx.Convert [Pdf.ReportLab; Pdf.Docx2Pdf];
           Docx.Failed (Docx.conversion_failed
                          (Pdf.both_failed (Py.lit "no converter")
                             (Py.lit "no converter")));
           Docx.Failed (Py.lit "no such file")].
Proof.
  refine (proj2 (proj2 (preview_run_signals (Py.lit "preview.docx")
                          (Py.lit "preview.png") false (Py.lit "k")
                          (Py.lit "Travel") (Py.lit "B2") [Py.lit "Why?"]
                          (Py.lit "reportlab") None _
                          (λ _, Some (Py.lit "no converter"))
                          (λ _, Some (Py.lit "no such file"))))
            _ 0%nat _ _ eq_refl eq_refl _ _ _);
    [by vm_compute | by vm_compute | reflexivity].
Defined.

(** X16. From the start of a render to its result: the worker that
    [_start_exact_render] starts carries the key of the content at
    that moment; its run emits [done] with that key only; and the
    callback shows the result only if the content at the time of the
    callback still has that key.  A result that is shown is the PNG
    of the worker. *)
Theorem render_shown_only_if_unchanged
    (sha1_hexdigest : list N → Py.str) (encode_utf8 : Py.str → list N)
    (tmp_docx tmp_png : Py.str) (DEBUG_MODE : bool) (pdf_method : Py.str)
    (deps : option Py.str) (template : Docx.template_file)
    (attempt : Pdf.tool → option Py.str) (raster : Pdf.outcome → option Py.str)
    (st st2 : App.state) (k png p : Py.str) :
  let key := App._content_key sha1_hexdigest encode_utf8 st in
  let w := App.PreviewWorker key (App.unit_title st) (App.level st)
             (App.questions st) in
  (App._start_exact_render sha1_hexdigest encode_utf8 st).2 = [App.Start w] ∧
  (Docx.Done k png
   ∈ Docx.run tmp_docx tmp_png DEBUG_MODE key (App.unit_title st) (App.level st)
       (App.questions st) pdf_method deps template attempt raster →
   App.ShowExact p ∈ (App.on_done sha1_hexdigest encode_utf8 w k png st2).2 →
   App._content_key sha1_hexdigest encode_utf8 st2 = key ∧ p = tmp_png).
Proof.
  intros key w. split; [done|]. intros Hdone Hshow.
  apply run_done in Hdone as [-> ->].
  destruct (decide (key = App._content_key sha1_hexdigest encode_utf8 st2))
    as [Hk|Hk].
  - split; [done|].
    destruct (on_done_current sha1_hexdigest encode_utf8 w key tmp_png st2 Hk)
      as (E & _).
    rewrite E in Hshow. unfold App.show_exact in Hshow.
    destruct (decide (tmp_png ∈ App.files st2)); simpl in Hshow;
      elem_cases Hshow; done.
  - destruct (on_done_stale sha1_hexdigest encode_utf8 w key tmp_png st2 Hk)
      as (Hno & _).
    by apply Hno in Hshow.
Qed.

Lemma render_shown_only_if_unchanged_witness :
  let st := {| App.unit_title := Py.lit "Travel"; App.level := Py.lit "B2";
               App.questions := [Py.lit "a?"; Py.lit "b?"];
               App.row_widgets := [];
               App.preview_visible := true; App.page := None;
               App.overlay := None; App.files := {[Py.lit "preview.png"]};
               App._workers := [] |} in
  App._content_key (λ b, b) (λ s, s) st = App._content_key (λ b, b) (λ s, s) st
  ∧ Py.lit "preview.png" = Py.lit "preview.png".
Proof.
  cbv zeta.
  refine (proj2 (render_shown_only_if_unchanged (λ b, b) (λ s, s)
                   (Py.lit "preview.docx") (Py.lit "preview.png") false
                   (Py.lit "reportlab") None
                   (Docx.Template
                      [ {| Docx.runs := [Py.lit "Discussion"];
                           Docx.style := Py.lit "Heading" |} ])
                   (λ _, None) (λ _, None) _ _ _ (Py.lit "preview.png")
                   (Py.lit "preview.png")) _ _).
  - vm_compute. do 2 apply list_elem_of_further. apply list_elem_of_here.
  - vm_compute. apply list_elem_of_here.
Defined.

(** X17. The callback [done(index, new_q)] of [regen_single].  A text
    that is empty once stripped changes nothing and gives the warning
    "No result".  Any other text, for an index of the list: the
    question and the row at that index get the stripped text, the row
    shows as regenerated, nothing else in the two lists changes, and,
    when the preview is visible, a render is started on the content
    with the new question. *)
Theorem single_done_replaces
    (sha1_hexdigest : list N → Py.str) (encode_utf8 : Py.str → list N)
    (w : App.worker) (index : Z) (new_q : Py.str) (st : App.state) :
  let r := Window.single_done sha1_hexdigest encode_utf8 w index new_q st in
  let st' := r.1.1 in
  (Py.strip new_q = [] →
   App.questions st' = App.questions st ∧
   App.row_widgets st' = App.row_widgets st ∧
   r.1.2 = None ∧
   r.2 = [App.Warning (Py.lit "No result") (Py.lit "Model returned empty text.")]) ∧
  (Py.strip new_q ≠ [] →
   (0 ≤ index < Z.of_nat (length (App.questions st)))%Z →
   (index < Z.of_nat (length (App.row_widgets st)))%Z →
   App.questions st'
   = <[Z.to_nat index := Py.strip new_q]> (App.questions st) ∧
   App.row_widgets st'
   = <[Z.to_nat index := {| App.row_text := Py.strip new_q;
                            App.real_content := true;
                            App.regenerated := true |}]> (App.row_widgets st) ∧
   r.1.2 = None ∧
   r.2 = if App.preview_visible st
         then [App.Start
                 (App.PreviewWorker
                    (App._content_key sha1_hexdigest encode_utf8 st')
                    (App.unit_title st) (App.level st) (App.questions st'))]
         else []).
Proof.
  intros r st'. subst st' r. unfold Window.single_done. split.
  - intros E. rewrite E. rewrite andb_false_r. done.
  - intros Hne Hq Hr.
    assert (Py.truthy new_q && Py.truthy (Py.strip new_q) = true) as ->.
    { destruct new_q as [|c s]; [done|]. simpl.
      by destruct (Py.strip (c :: s)). }
    unfold App._apply_single.
    assert (∀ {A} (l : list A), (0 ≤ index < Z.of_nat (length l))%Z →
                                App.index_of l index = Some (Z.to_nat index))
      as Hidx.
    { intros A l Hl. unfold App.index_of.
      destruct (Z.leb_spec 0 index), (Z.ltb_spec index (Z.of_nat (length l)));
        simpl; try lia; done. }
    rewrite Hidx by done. cbn [App.row_widgets App.set_questions].
    rewrite Hidx by lia.
    cbn [App.preview_visible App.set_questions App.set_row_widgets].
    by destruct (App.preview_visible st).
Qed.

Lemma single_done_replaces_witness :
  let st := {| App.unit_title := Py.lit "Travel"; App.level := Py.lit "B2";
               App.questions := [Py.lit "a?"; Py.lit "b?"; Py.lit "c?"];
               App.row_widgets := Window.fresh_row <$> [Py.lit "a?"; Py.lit "b?"; Py.lit "c?"];
               App.preview_visible := false; App.page := None;
               App.overlay := None; App.files := ∅; App._workers := [] |} in
  App.questions
    (Window.single_done (λ b, b) (λ s, s) (App.OtherWorker 0) 1
       (Py.lit "  Why now?  ") st).1.1
  = <[1%nat := Py.strip (Py.lit "  Why now?  ")]> (App.questions st).
Proof.
  cbv zeta.
  refine (proj1 (proj2 (single_done_replaces (λ b, b) (λ s, s)
                          (App.OtherWorker 0) 1 (Py.lit "  Why now?  ") _)
                   _ _ _)).
  - by vm_compute.
  - simpl. lia.
  - simpl. lia.
Defined.

(** X18. The lists that [_ensure_15] returns unchanged are exactly
    the lists of 15 entries that are each not empty once stripped and
    already normalised.  These are the lists for which the export,
    which writes [_ensure_15(self.questions)], and the preview, which
    writes the questions as they are, write the same questions. *)
Theorem ensure_15_fixed_points (qs : list Py.str) :
  _ensure_15 qs = qs ↔
  length qs = 15%nat ∧ Forall (λ q, kept q ∧ normalize q = q) qs.
Proof.
  split.
  - intros E. rewrite <- E. split; [apply ensure_15_length|].
    apply ensure_15_settled.
  - intros [Hlen Hqs]. by apply ensure_15_fixed.
Qed.

Lemma ensure_15_fixed_points_witness :
  _ensure_15 (replicate 15 (Py.lit "Why now?")) = replicate 15 (Py.lit "Why now?").
Proof.
  apply (proj2 (ensure_15_fixed_points (replicate 15 (Py.lit "Why now?")))).
  split; [reflexivity|].
  apply Forall_replicate. split; reflexivity.
Defined.

(** X19. A template without a first numbered item after the marker:
    both [export_docx] and the preview worker keep the paragraphs up
    to the marker and number the questions "1. ", "2. " and so on.
    The export reads the style after it has removed the paragraphs
    behind the marker, and so always writes the questions in the
    style "Normal"; the preview worker reads it before, and writes
    them in the style of the paragraph that followed the marker, if
    there was one. *)
Theorem numbering_without_first_item
    (d : Docx.document) (idx_disc : nat) (qs : list Py.str) :
  Docx.first_item d idx_disc = None →
  Docx.fill_export d idx_disc qs
  = take (S idx_disc) d
    ++ Docx.question_paragraphs (Py.lit "1. ") Docx.NORMAL qs ∧
  Docx.fill_preview d idx_disc qs
  = take (S idx_disc) d
    ++ Docx.question_paragraphs (Py.lit "1. ")
         (match d !! S idx_disc with
          | Some p => Docx.style p
          | None => Docx.NORMAL
          end) qs ∧
  ∀ style_name i q,
    qs !! i = Some q →
    Docx.question_paragraphs (Py.lit "1. ") style_name qs !! i
    = Some {| Docx.runs := [Py.str_of_N (N.of_nat (S i)) ++ Py.lit ". " ++ q];
              Docx.style := style_name |}.
Proof.
  intros E. unfold Docx.fill_export, Docx.fill_preview. rewrite E.
  cbn [Docx.prefix_example]. split; [|split; [done|]].
  - rewrite lookup_take_ge by lia. done.
  - intros style_name i q Hq. unfold Docx.question_paragraphs.
    rewrite list_lookup_imap.
    change (list Py.char) with Py.str in *.
    destruct (qs !! i) as [q'|]; [|done]. by injection Hq as ->.
Qed.

Lemma numbering_without_first_item_witness :
  let d := [ {| Docx.runs := [Py.lit "Discussion"]; Docx.style := Py.lit "Heading" |};
             {| Docx.runs := [Py.lit "Talk about it."]; Docx.style := Py.lit "List" |} ] in
  Docx.fill_export d 0 [Py.lit "Why?"]
  = take 1 d ++ Docx.question_paragraphs (Py.lit "1. ") Docx.NORMAL [Py.lit "Why?"].
Proof.
  cbv zeta.
  refine (proj1 (numbering_without_first_item _ 0 [Py.lit "Why?"] _)).
  by vm_compute.
Defined.
